(** * Uternity voice agent: connection, capture pipeline and session store

    A shallow embedding of
      - [src/web/js/services/audio-capture.js]  ([AudioCaptureService] and
        [VoiceAgentWebSocket]), and
      - [src/web/js/stores/sessionStore.js]     ([SessionStore]),
    followed by the properties the specification states about them.

    JavaScript objects are records, their methods are state transformers,
    [try]/[catch] is written with an explicit completion type, promises and
    timers are part of the state, and the browser (socket events, timer
    expiry) and the HTTP backend drive the model from outside. *)

From stdpp Require Import gmap strings list pretty.
From Stdlib Require Import ZArith.

Open Scope Z_scope.

(** ** A few JavaScript notions *)

Module Js.

(** The completion of a statement or call: it returns or it throws. *)
Inductive Completion (A : Type) : Type :=
| Return (a : A)
| Throw (e : string).
Arguments Return {A} a.
Arguments Throw {A} e.

Definition returned {A} (c : Completion A) : bool :=
  match c with Return _ => true | Throw _ => false end.

(** [try { body } catch (error) { handler(error) }] *)
Definition try_catch {St A} (body : St -> St * Completion A)
    (handler : string -> St -> St * Completion A) (s : St) : St * Completion A :=
  match body s with
  | (s', Return a) => (s', Return a)
  | (s', Throw e) => handler e s'
  end.

(** [Array.prototype.indexOf]; [None] stands for [-1]. *)
Fixpoint indexOf {A} `{EqDecision A} (l : list A) (x : A) : option nat :=
  match l with
  | [] => None
  | y :: l' => if decide (y = x) then Some 0%nat else S <$> indexOf l' x
  end.

(** [const i = l.indexOf(x); if (i > -1) l.splice(i, 1)] *)
Definition remove_first {A} `{EqDecision A} (x : A) (l : list A) : list A :=
  match indexOf l x with
  | Some i => delete i l
  | None => l
  end.

(** [Array.prototype.forEach] on an array that the callback may mutate.

    The length is read once, before the loop; at each index the element is
    read from the array as it is at that moment, and an index that is no
    longer present is passed over.  [live] reads the array object out of
    the state, so that a [push] or a [splice] done by a callback is seen by
    the rest of the loop.  A callback that throws ends the loop. *)
Section ForEach.
Context {St H : Type}.
Variable live : St -> list H.
Variable call : H -> St -> St * Completion unit.

Fixpoint forEach_from (todo k : nat) (s : St) : St * Completion unit :=
  match todo with
  | O => (s, Return tt)
  | S todo' =>
      match live s !! k with
      | Some h =>
          match call h s with
          | (s', Return _) => forEach_from todo' (S k) s'
          | (s', Throw e) => (s', Throw e)
          end
      | None => forEach_from todo' (S k) s
      end
  end.

Definition forEach (s : St) : St * Completion unit :=
  forEach_from (length (live s)) 0%nat s.
End ForEach.

End Js.

Import Js.

(** ** The connection: [VoiceAgentWebSocket] *)

Module Connection.

(** [WS_CONFIG] *)
Definition MAX_RECONNECT_ATTEMPTS : nat := 5.
Definition RECONNECT_DELAY : Z := 1000.
Definition AUTH_TIMEOUT : Z := 10000.
Definition HEARTBEAT_INTERVAL : Z := 30000.

(** [this.maxReconnectAttempts] and [this.reconnectDelay] are assigned once,
    in the constructor, from [WS_CONFIG], and never written again. *)
Definition maxReconnectAttempts : nat := MAX_RECONNECT_ATTEMPTS.
Definition reconnectDelay : Z := RECONNECT_DELAY.

(** A parsed inbound message, with the fields the client reads. *)
Record Inbound : Type := MkInbound {
  in_type : string;
  in_user_id : string;
  in_message : string
}.

(** What arrives on the socket: text that parses to an object, or text on
    which [JSON.parse] (or the read of [data.type]) throws. *)
Inductive Frame : Type :=
| FJson (d : Inbound)
| FGarbage (raw : string).

(** The second argument of [emit]. *)
Inductive Payload : Type :=
| PData (d : Inbound)
| PConnected (sessionId userId : option string)
| PDisconnected (code : Z) (reason : string)
| PSocketError
| PParseError (rawData : string)
| PUndefined.

(** The messages the client hands to [send].  Their [timestamp] fields
    ([new Date().toISOString()]) are left out, except for the label of an
    audio chunk, which the client derives from the clock. *)
Inductive Outbound : Type :=
| OAuth (token : string) (session_id : option string)
| OPing
| OStartAudioStream (session_id : option string)
| OStopAudioStream (session_id : option string)
| OAudioChunk (chunk_id : string) (audio_buffer : string)
| OCaptureChunk (audio : string) (format : string)
| OConversationStart (test_type task_type : string) (session_id : option string)
| OConversationMessage (message : string)
| ORaw (text : string).


(** Listeners are compared by identity ([indexOf]), so they are names: the
    [authListener] closure made by the [n]-th socket's [authenticate] call,
    or a function registered by the rest of the application. *)
Inductive Callback : Type :=
| AuthListener (n : nat)
| UserCb (id : nat).

#[global] Instance Callback_eq_dec : EqDecision Callback.
Proof. solve_decision. Defined.

(** What a registered application function may do to the emitter while it
    runs: subscribe or unsubscribe application functions. *)
Inductive RegOp : Type :=
| ROn (event : string) (id : nat)
| ROff (event : string) (id : nat).

(** The outcome of running an application listener: its own state
    afterwards, the subscriptions it changed on the way, and whether it
    returned or threw. *)
Record CbResult (World : Type) : Type := MkCbResult {
  cb_world : World;
  cb_ops : list RegOp;
  cb_completion : Completion unit
}.
Arguments MkCbResult {World} _ _ _.
Arguments cb_world {World} _.
Arguments cb_ops {World} _.
Arguments cb_completion {World} _.

(** The application's listeners.  [World] is whatever state they keep;
    they are otherwise arbitrary.  Re-entrant calls from a listener into
    [connect], [send] or [emit] are outside this model. *)
Class UserCallbacks (World : Type) : Type :=
  user_cb : nat -> Payload -> World -> CbResult World.

(** The browser's [WebSocket.readyState]. *)
Inductive ReadyState : Type := CONNECTING | OPEN | CLOSING | CLOSED.

#[global] Instance ReadyState_eq_dec : EqDecision ReadyState.
Proof. solve_decision. Defined.

Inductive PromiseState : Type :=
| Pending
| Fulfilled
| Rejected (error : string).

(** Who called [connect]: the application, or a reconnection timer (which
    awaits the promise inside [attemptReconnect]). *)
Inductive Origin : Type := FromCaller | FromReconnect.

(** One [new WebSocket(...)] together with what the handlers installed on
    it by [connect] close over: the [sessionId] and [authToken] arguments
    and the [resolve]/[reject] of the promise [connect] returned, and the
    promise of the [authenticate] call its [onopen] makes. *)
Record Sock : Type := MkSock {
  sk_session : option string;
  sk_token : string;
  sk_origin : Origin;
  sk_ready : ReadyState;
  sk_closed : bool;               (* the close event has been delivered *)
  sk_outbox : list Outbound;      (* frames accepted by the transport *)
  sk_auth : option PromiseState;  (* the [authenticate] promise, once made *)
  sk_promise : PromiseState       (* the [connect] promise *)
}.

Definition sk_set_ready (r : ReadyState) (k : Sock) : Sock :=
  MkSock (sk_session k) (sk_token k) (sk_origin k) r (sk_closed k)
         (sk_outbox k) (sk_auth k) (sk_promise k).
Definition sk_set_closed (b : bool) (k : Sock) : Sock :=
  MkSock (sk_session k) (sk_token k) (sk_origin k) (sk_ready k) b
         (sk_outbox k) (sk_auth k) (sk_promise k).
Definition sk_set_outbox (o : list Outbound) (k : Sock) : Sock :=
  MkSock (sk_session k) (sk_token k) (sk_origin k) (sk_ready k) (sk_closed k)
         o (sk_auth k) (sk_promise k).
Definition sk_set_auth (a : option PromiseState) (k : Sock) : Sock :=
  MkSock (sk_session k) (sk_token k) (sk_origin k) (sk_ready k) (sk_closed k)
         (sk_outbox k) a (sk_promise k).
Definition sk_set_promise (p : PromiseState) (k : Sock) : Sock :=
  MkSock (sk_session k) (sk_token k) (sk_origin k) (sk_ready k) (sk_closed k)
         (sk_outbox k) (sk_auth k) p.

(** Pending [setTimeout] callbacks. *)
Inductive TimerKind : Type :=
| TAuth (n : nat)              (* the timeout set by socket [n]'s [authenticate] *)
| TReconnect (token : string). (* the callback set by [attemptReconnect] *)

Record Timer : Type := MkTimer { t_kind : TimerKind; t_delay : Z }.

(** Promise reactions waiting in the microtask queue. *)
Inductive Micro : Type :=
| AuthThen (n : nat)
| AuthCatch (n : nat) (error : string)
| ConnectThen (n : nat)
| ConnectCatch (n : nat) (error : string).

Inductive Level : Type := LLog | LWarn | LError.

#[global] Instance Level_eq_dec : EqDecision Level.
Proof. solve_decision. Defined.

(** The fields of a [VoiceAgentWebSocket]. *)
Record WS : Type := MkWS {
  socket : option nat;            (* index of the current socket *)
  sessionId : option string;
  userId : option string;
  isConnected : bool;
  isAuthenticated : bool;
  reconnectAttempts : nat;
  eventListeners : gmap string (list Callback);
  heartbeatInterval : option nat
}.

(** The runtime around it. *)
Record Env (World : Type) : Type := MkEnv {
  sockets : list Sock;
  timers : list Timer;
  intervals : list nat;           (* running [setInterval] handles *)
  nextHandle : nat;
  microtasks : list Micro;
  console : list (Level * string);
  emitted : list (string * Payload);    (* every [emit(event, data)] call *)
  invoked : list (string * Callback);   (* every listener invocation *)
  world : World
}.
Arguments MkEnv {World} _ _ _ _ _ _ _ _ _.
Arguments sockets {World} _.
Arguments timers {World} _.
Arguments intervals {World} _.
Arguments nextHandle {World} _.
Arguments microtasks {World} _.
Arguments console {World} _.
Arguments emitted {World} _.
Arguments invoked {World} _.
Arguments world {World} _.

Record State (World : Type) : Type := MkState {
  ws : WS;
  env : Env World
}.
Arguments MkState {World} _ _.
Arguments ws {World} _.
Arguments env {World} _.

(** Field updates.  [set_f v s] is the assignment [this.f = v]. *)

Section Updates.
Context {World : Type}.
Implicit Types (w : WS) (e : Env World) (s : State World).

Definition ws_set_socket (v : option nat) w : WS :=
  MkWS v (sessionId w) (userId w) (isConnected w) (isAuthenticated w) (reconnectAttempts w) (eventListeners w) (heartbeatInterval w).
Definition ws_set_sessionId (v : option string) w : WS :=
  MkWS (socket w) v (userId w) (isConnected w) (isAuthenticated w) (reconnectAttempts w) (eventListeners w) (heartbeatInterval w).
Definition ws_set_userId (v : option string) w : WS :=
  MkWS (socket w) (sessionId w) v (isConnected w) (isAuthenticated w) (reconnectAttempts w) (eventListeners w) (heartbeatInterval w).
Definition ws_set_isConnected (v : bool) w : WS :=
  MkWS (socket w) (sessionId w) (userId w) v (isAuthenticated w) (reconnectAttempts w) (eventListeners w) (heartbeatInterval w).
Definition ws_set_isAuthenticated (v : bool) w : WS :=
  MkWS (socket w) (sessionId w) (userId w) (isConnected w) v (reconnectAttempts w) (eventListeners w) (heartbeatInterval w).
Definition ws_set_reconnectAttempts (v : nat) w : WS :=
  MkWS (socket w) (sessionId w) (userId w) (isConnected w) (isAuthenticated w) v (eventListeners w) (heartbeatInterval w).
Definition ws_set_eventListeners (v : gmap string (list Callback)) w : WS :=
  MkWS (socket w) (sessionId w) (userId w) (isConnected w) (isAuthenticated w) (reconnectAttempts w) v (heartbeatInterval w).
Definition ws_set_heartbeatInterval (v : option nat) w : WS :=
  MkWS (socket w) (sessionId w) (userId w) (isConnected w) (isAuthenticated w) (reconnectAttempts w) (eventListeners w) v.

Definition env_set_sockets (v : list Sock) e : Env World :=
  MkEnv v (timers e) (intervals e) (nextHandle e) (microtasks e) (console e) (emitted e) (invoked e) (world e).
Definition env_set_timers (v : list Timer) e : Env World :=
  MkEnv (sockets e) v (intervals e) (nextHandle e) (microtasks e) (console e) (emitted e) (invoked e) (world e).
Definition env_set_intervals (v : list nat) e : Env World :=
  MkEnv (sockets e) (timers e) v (nextHandle e) (microtasks e) (console e) (emitted e) (invoked e) (world e).
Definition env_set_nextHandle (v : nat) e : Env World :=
  MkEnv (sockets e) (timers e) (intervals e) v (microtasks e) (console e) (emitted e) (invoked e) (world e).
Definition env_set_microtasks (v : list Micro) e : Env World :=
  MkEnv (sockets e) (timers e) (intervals e) (nextHandle e) v (console e) (emitted e) (invoked e) (world e).
Definition env_set_console (v : list (Level * string)) e : Env World :=
  MkEnv (sockets e) (timers e) (intervals e) (nextHandle e) (microtasks e) v (emitted e) (invoked e) (world e).
Definition env_set_emitted (v : list (string * Payload)) e : Env World :=
  MkEnv (sockets e) (timers e) (intervals e) (nextHandle e) (microtasks e) (console e) v (invoked e) (world e).
Definition env_set_invoked (v : list (string * Callback)) e : Env World :=
  MkEnv (sockets e) (timers e) (intervals e) (nextHandle e) (microtasks e) (console e) (emitted e) v (world e).
Definition env_set_world (v : World) e : Env World :=
  MkEnv (sockets e) (timers e) (intervals e) (nextHandle e) (microtasks e) (console e) (emitted e) (invoked e) v.

Definition on_ws (f : WS -> WS) s : State World := MkState (f (ws s)) (env s).
Definition on_env (f : Env World -> Env World) s : State World := MkState (ws s) (f (env s)).

Definition set_socket (v : option nat) s : State World := on_ws (ws_set_socket v) s.
Definition set_sessionId (v : option string) s : State World := on_ws (ws_set_sessionId v) s.
Definition set_userId (v : option string) s : State World := on_ws (ws_set_userId v) s.
Definition set_isConnected (v : bool) s : State World := on_ws (ws_set_isConnected v) s.
Definition set_isAuthenticated (v : bool) s : State World := on_ws (ws_set_isAuthenticated v) s.
Definition set_reconnectAttempts (v : nat) s : State World := on_ws (ws_set_reconnectAttempts v) s.
Definition set_eventListeners (v : gmap string (list Callback)) s : State World := on_ws (ws_set_eventListeners v) s.
Definition set_heartbeatInterval (v : option nat) s : State World := on_ws (ws_set_heartbeatInterval v) s.
Definition set_sockets (v : list Sock) s : State World := on_env (env_set_sockets v) s.
Definition set_timers (v : list Timer) s : State World := on_env (env_set_timers v) s.
Definition set_intervals (v : list nat) s : State World := on_env (env_set_intervals v) s.
Definition set_nextHandle (v : nat) s : State World := on_env (env_set_nextHandle v) s.
Definition set_microtasks (v : list Micro) s : State World := on_env (env_set_microtasks v) s.
Definition set_console (v : list (Level * string)) s : State World := on_env (env_set_console v) s.
Definition set_emitted (v : list (string * Payload)) s : State World := on_env (env_set_emitted v) s.
Definition set_invoked (v : list (string * Callback)) s : State World := on_env (env_set_invoked v) s.
Definition set_world (v : World) s : State World := on_env (env_set_world v) s.

End Updates.

Section Client.
Context {World : Type} `{!UserCallbacks World}.
Implicit Types (s : State World).

(** The state the constructor leaves, in a fresh runtime. *)
Definition initial (w : World) : State World :=
  MkState (MkWS None None None false false 0%nat ∅ None)
          (MkEnv [] [] [] 1%nat [] [] [] [] w).

Definition log (lv : Level) (msg : string) s : State World :=
  set_console (console (env s) ++ [(lv, msg)]) s.

(** *** Event system *)

(** The listener table is a [Map] from event names to arrays. *)
Definition listeners_in (m : gmap string (list Callback)) (event : string) : list Callback :=
  default [] (m !! event).

(** [if (!m.has(event)) m.set(event, []); m.get(event).push(callback)] *)
Definition add_listener (event : string) (cb : Callback) (m : gmap string (list Callback))
  : gmap string (list Callback) :=
  <[event := listeners_in m event ++ [cb]]> m.

(** [const l = m.get(event); if (l) { remove the first occurrence }] *)
Definition remove_listener (event : string) (cb : Callback) (m : gmap string (list Callback))
  : gmap string (list Callback) :=
  match m !! event with
  | Some l => <[event := remove_first cb l]> m
  | None => m
  end.

Definition listeners (event : string) s : list Callback :=
  listeners_in (eventListeners (ws s)) event.

Definition on (event : string) (cb : Callback) s : State World :=
  set_eventListeners (add_listener event cb (eventListeners (ws s))) s.

Definition off (event : string) (cb : Callback) s : State World :=
  set_eventListeners (remove_listener event cb (eventListeners (ws s))) s.

(** *** Promises: settling is effective once, and queues the reaction *)

Definition settle_auth (n : nat) (p : PromiseState) (reaction : Micro) s : State World :=
  match sockets (env s) !! n with
  | Some k =>
      match sk_auth k with
      | Some Pending =>
          set_microtasks (microtasks (env s) ++ [reaction])
            (set_sockets (<[n := sk_set_auth (Some p) k]> (sockets (env s))) s)
      | _ => s
      end
  | None => s
  end.

Definition resolve_auth (n : nat) s : State World :=
  settle_auth n Fulfilled (AuthThen n) s.
Definition reject_auth (n : nat) (e : string) s : State World :=
  settle_auth n (Rejected e) (AuthCatch n e) s.

Definition settle_connect (n : nat) (p : PromiseState) (reaction : Micro) s : State World :=
  match sockets (env s) !! n with
  | Some k =>
      match sk_promise k with
      | Pending =>
          set_microtasks (microtasks (env s) ++ [reaction])
            (set_sockets (<[n := sk_set_promise p k]> (sockets (env s))) s)
      | _ => s
      end
  | None => s
  end.

Definition resolve_connect (n : nat) s : State World :=
  settle_connect n Fulfilled (ConnectThen n) s.
Definition reject_connect (n : nat) (e : string) s : State World :=
  settle_connect n (Rejected e) (ConnectCatch n e) s.

(** The [authListener] closure of [authenticate]. *)
Definition authListener (n : nat) (data : Payload) s : State World * Completion unit :=
  match data with
  | PData d =>
      if decide (in_type d = "authenticated") then
        let s1 := set_isAuthenticated true s in
        let s2 := set_userId (Some (in_user_id d)) s1 in
        let s3 := log LLog "WebSocket authenticated" s2 in
        let s4 := off "message" (AuthListener n) s3 in
        (resolve_auth n s4, Return tt)
      else if decide (in_type d = "auth_error") then
        let s1 := log LError "WebSocket authentication failed" s in
        let s2 := off "message" (AuthListener n) s1 in
        (reject_auth n (in_message d) s2, Return tt)
      else (s, Return tt)
  | PUndefined => (s, Throw "TypeError")
  | _ => (s, Return tt)
  end.

Definition apply_op (s : State World) (op : RegOp) : State World :=
  match op with
  | ROn event id => on event (UserCb id) s
  | ROff event id => off event (UserCb id) s
  end.

(** Calling a listener. *)
Definition run_cb (cb : Callback) (data : Payload) s : State World * Completion unit :=
  match cb with
  | AuthListener n => authListener n data s
  | UserCb id =>
      let r := user_cb id data (world (env s)) in
      (foldl apply_op (set_world (cb_world r) s) (cb_ops r), cb_completion r)
  end.

(** The arrow function [emit] passes to [forEach]:
    [callback => { try { callback(data) } catch (error) { console.error(..) } }] *)
Definition guarded (event : string) (data : Payload) (cb : Callback) s
  : State World * Completion unit :=
  try_catch (run_cb cb data)
    (fun _ s' => (log LError "Event listener error" s', Return tt))
    (set_invoked (invoked (env s) ++ [(event, cb)]) s).

(** [emit(event, data)], with its completion. *)
Definition emit_c (event : string) (data : Payload) s : State World * Completion unit :=
  let s0 := set_emitted (emitted (env s) ++ [(event, data)]) s in
  match eventListeners (ws s0) !! event with
  | Some _ => forEach (listeners event) (guarded event data) s0
  | None => (s0, Return tt)
  end.

Definition emit (event : string) (data : Payload) s : State World :=
  fst (emit_c event data s).

(** *** Sending *)

(** The browser's [socket.send]: it throws while the socket is still
    connecting, queues the frame while it is open, and discards it
    silently once the socket is closing or closed. *)
Definition socket_send (k : nat) (m : Outbound) s : State World * Completion unit :=
  match sockets (env s) !! k with
  | Some sk =>
      match sk_ready sk with
      | CONNECTING => (s, Throw "InvalidStateError")
      | OPEN =>
          (set_sockets (<[k := sk_set_outbox (sk_outbox sk ++ [m]) sk]> (sockets (env s))) s,
           Return tt)
      | CLOSING | CLOSED => (s, Return tt)
      end
  | None => (s, Return tt)
  end.

(** [send(message)], with its completion. *)
Definition send_c (m : Outbound) s : State World * Completion bool :=
  match isConnected (ws s), socket (ws s) with
  | true, Some k =>
      try_catch
        (fun s0 =>
           match socket_send k m s0 with
           | (s1, Return _) => (log LLog "WebSocket message sent" s1, Return true)
           | (s1, Throw e) => (s1, Throw e)
           end)
        (fun _ s1 => (log LError "Failed to send WebSocket message" s1, Return false))
        s
  | _, _ => (log LWarn "Cannot send message - WebSocket not connected" s, Return false)
  end.

Definition send (m : Outbound) s : State World := fst (send_c m s).

(** *** Heartbeat *)

Definition startHeartbeat s : State World :=
  let h := nextHandle (env s) in
  set_heartbeatInterval (Some h)
    (set_intervals (intervals (env s) ++ [h]) (set_nextHandle (S h) s)).

Definition stopHeartbeat s : State World :=
  match heartbeatInterval (ws s) with
  | Some h =>
      set_heartbeatInterval None
        (set_intervals (filter (fun h' => h' ≠ h) (intervals (env s))) s)
  | None => s
  end.

Definition heartbeatTick s : State World :=
  if isConnected (ws s) then send OPing s else s.


(** *** Connection management *)

(** [connect(sessionId, authToken)] up to the point where it has created
    the socket and installed its handlers; the handlers are [onopen],
    [onmessage], [onclose] and [onerror] below, indexed by the socket. *)
Definition connect (sid : option string) (tok : string) (origin : Origin) s : State World :=
  let s1 := set_sessionId sid s in
  let s2 := log LLog "Connecting to WebSocket" s1 in
  let n := length (sockets (env s2)) in
  let s3 :=
    set_sockets (sockets (env s2) ++ [MkSock sid tok origin CONNECTING false [] None Pending]) s2 in
  set_socket (Some n) s3.

Definition disconnect s : State World :=
  let s1 := log LLog "Disconnecting WebSocket..." s in
  let s2 := stopHeartbeat s1 in
  let s3 :=
    match socket (ws s2) with
    | Some k =>
        match sockets (env s2) !! k with
        | Some sk =>
            if decide (sk_ready sk = OPEN)
            then set_sockets (<[k := sk_set_ready CLOSING sk]> (sockets (env s2))) s2
            else s2
        | None => s2
        end
    | None => s2
    end in
  let s4 := set_isConnected false s3 in
  let s5 := set_isAuthenticated false s4 in
  let s6 := set_sessionId None s5 in
  let s7 := set_userId None s6 in
  let s8 := set_socket None s7 in
  log LLog "WebSocket disconnected" s8.

Definition attemptReconnect (tok : string) s : State World :=
  let s1 := set_reconnectAttempts (S (reconnectAttempts (ws s))) s in
  let delay := reconnectDelay * 2 ^ (Z.of_nat (reconnectAttempts (ws s1)) - 1) in
  let s2 := log LLog "Reconnection attempt" s1 in
  set_timers (timers (env s2) ++ [MkTimer (TReconnect tok) delay]) s2.

(** [authenticate(authToken)], called by the [onopen] of socket [n]. *)
Definition authenticate (n : nat) (tok : string) s : State World :=
  let s0 :=
    match sockets (env s) !! n with
    | Some k => set_sockets (<[n := sk_set_auth (Some Pending) k]> (sockets (env s))) s
    | None => s
    end in
  if negb (isConnected (ws s0)) then reject_auth n "WebSocket not connected" s0
  else
    let s1 := on "message" (AuthListener n) s0 in
    let s2 := send (OAuth tok (sessionId (ws s1))) s1 in
    set_timers (timers (env s2) ++ [MkTimer (TAuth n) AUTH_TIMEOUT]) s2.

(** The timeout callback of [authenticate]. *)
Definition authTimeout (n : nat) s : State World :=
  if isAuthenticated (ws s) then s
  else reject_auth n "Authentication timeout" (off "message" (AuthListener n) s).

(** *** Message handling *)

Definition handleMessage (f : Frame) s : State World :=
  match f with
  | FGarbage raw =>
      emit "parseError" (PParseError raw) (log LError "Failed to parse WebSocket message" s)
  | FJson d =>
      let s1 := log LLog "WebSocket message received" s in
      let ty := in_type d in
      if decide (ty = "pong") then emit "heartbeat" (PData d) s1
      else if decide (ty = "error") then
        emit "error" (PData d) (log LError "WebSocket server error" s1)
      else if decide (ty = "session_updated") then emit "sessionUpdated" (PData d) s1
      else if decide (ty = "audio_processed") then emit "audioProcessed" (PData d) s1
      else if decide (ty = "transcription") then emit "transcription" (PData d) s1
      else if decide (ty = "ai_response") then emit "aiResponse" (PData d) s1
      else if decide (ty = "real_time_feedback") then emit "realTimeFeedback" (PData d) s1
      else emit "message" (PData d) s1
  end.

(** *** The socket's handlers *)

Definition onopen (n : nat) s : State World :=
  match sockets (env s) !! n with
  | Some k =>
      let s1 := log LLog "WebSocket connected" s in
      let s2 := set_isConnected true s1 in
      let s3 := set_reconnectAttempts 0%nat s2 in
      authenticate n (sk_token k) s3
  | None => s
  end.

Definition onmessage (n : nat) (f : Frame) s : State World := handleMessage f s.

Definition onclose (n : nat) (wasClean : bool) (code : Z) (reason : string) s : State World :=
  match sockets (env s) !! n with
  | Some k =>
      let s1 := log LWarn "WebSocket disconnected" s in
      let s2 := set_isConnected false s1 in
      let s3 := set_isAuthenticated false s2 in
      let s4 := stopHeartbeat s3 in
      let s5 := emit "disconnected" (PDisconnected code reason) s4 in
      if negb wasClean && bool_decide (reconnectAttempts (ws s5) < maxReconnectAttempts)%nat
      then attemptReconnect (sk_token k) s5
      else s5
  | None => s
  end.

Definition onerror (n : nat) s : State World :=
  let s1 := log LError "WebSocket error" s in
  let s2 := emit "error" PSocketError s1 in
  reject_connect n "WebSocket error" s2.

(** *** Promise reactions *)

(** The [.then]/[.catch] that [onopen] chains on [authenticate], and the
    continuation of [await this.connect(..)] in the reconnection timer.
    The continuation of an application caller is not part of the client. *)
Definition run_micro (s : State World) (m : Micro) : State World :=
  match m with
  | AuthThen n =>
      let s1 := startHeartbeat s in
      let sid := match sockets (env s1) !! n with Some k => sk_session k | None => None end in
      let s2 := emit "connected" (PConnected sid (userId (ws s1))) s1 in
      resolve_connect n s2
  | AuthCatch n e =>
      reject_connect n e (log LError "Authentication failed" s)
  | ConnectThen n =>
      match sk_origin <$> sockets (env s) !! n with
      | Some FromReconnect =>
          emit "reconnected" PUndefined (log LLog "Reconnection successful" s)
      | _ => s
      end
  | ConnectCatch n e =>
      match sk_origin <$> sockets (env s) !! n with
      | Some FromReconnect =>
          let s1 := log LError "Reconnection failed" s in
          if bool_decide (maxReconnectAttempts <= reconnectAttempts (ws s1))%nat
          then emit "reconnectionFailed" PUndefined
                 (log LError "Max reconnection attempts reached" s1)
          else s1
      | _ => s
      end
  end.

(** One pass over the queue as it stands; reactions queued meanwhile wait
    for the next pass. *)
Definition drain_pass s : State World :=
  foldl run_micro (set_microtasks [] s) (microtasks (env s)).

(** A reaction of [authenticate]'s promise queues at most a reaction of
    [connect]'s promise, which queues nothing: two passes empty the queue
    (lemma [drain_quiescent]). *)
Definition drain s : State World := drain_pass (drain_pass s).

(** *** Audio streaming and conversation *)

(** Audio handed to [sendAudioChunk]: an [ArrayBuffer], or something
    else, taken to be text that is already encoded. *)
Inductive AudioData : Type :=
| ArrayBuffer (bytes : list N)
| Encoded (text : string).

(** [btoa] is kept symbolic: the encoding of a buffer is written as a
    tagged rendering of its bytes. *)
Definition arrayBufferToBase64 (bytes : list N) : string :=
  "base64:" +:+ String.concat "," (pretty <$> bytes).

(** [chunkId || `chunk_${Date.now()}`]; the empty string is falsy. *)
Definition chunk_label (chunkId : option string) (now : Z) : string :=
  match chunkId with
  | Some c => if decide (c = "") then "chunk_" +:+ pretty now else c
  | None => "chunk_" +:+ pretty now
  end.

Definition startAudioStream s : State World * bool :=
  if negb (isAuthenticated (ws s))
  then (log LWarn "Cannot start audio stream - not authenticated" s, false)
  else (send (OStartAudioStream (sessionId (ws s))) s, true).

(** The message [sendAudioChunk] builds. *)
Definition audio_chunk_message (audioData : AudioData) (chunkId : option string) (now : Z)
  : Outbound :=
  let audioBase64 :=
    match audioData with
    | ArrayBuffer bytes => arrayBufferToBase64 bytes
    | Encoded text => text
    end in
  OAudioChunk (chunk_label chunkId now) audioBase64.

(** [sendAudioChunk(audioData, chunkId = null)]; [now] is what
    [Date.now()] returns during the call. *)
Definition sendAudioChunk (audioData : AudioData) (chunkId : option string) (now : Z) s
  : State World * bool :=
  if negb (isAuthenticated (ws s))
  then (log LWarn "Cannot send audio chunk - not authenticated" s, false)
  else (send (audio_chunk_message audioData chunkId now) s, true).

Definition stopAudioStream s : State World :=
  send (OStopAudioStream (sessionId (ws s))) s.

Definition startConversation (testType taskType : string) s : State World * bool :=
  if negb (isAuthenticated (ws s))
  then (log LWarn "Cannot start conversation - not authenticated" s, false)
  else (send (OConversationStart testType taskType (sessionId (ws s))) s, true).

Definition sendConversationMessage (message : string) s : State World * bool :=
  if negb (isAuthenticated (ws s))
  then (log LWarn "Cannot send conversation message - not authenticated" s, false)
  else (send (OConversationMessage message) s, true).

(** *** The event loop

    One task of the browser's event loop: a call from the application, an
    event on a socket, or the expiry of a timer; the microtask queue is
    emptied at the end of every task. *)
Inductive Task : Type :=
| CallConnect (sid : option string) (tok : string)
| CallDisconnect
| CallSend (m : Outbound)
| CallSendAudioChunk (audioData : AudioData) (chunkId : option string) (now : Z)
| CallOn (event : string) (id : nat)
| CallOff (event : string) (id : nat)
| SockOpen (n : nat)
| SockMessage (n : nat) (f : Frame)
| SockError (n : nat)
| SockClose (n : nat) (wasClean : bool) (code : Z) (reason : string)
| TimerFire (i : nat)
| IntervalTick (h : nat).

Definition set_sock (n : nat) (f : Sock -> Sock) s : State World :=
  set_sockets (alter f n (sockets (env s))) s.

(** The browser's side of a task, then the client's handler.  A socket
    opens only while connecting, delivers messages only while open, and
    reports an error or its closing only until the close event has been
    delivered; the socket is already [CLOSED] when either is reported. *)
Definition task (t : Task) s : State World :=
  match t with
  | CallConnect sid tok => connect sid tok FromCaller s
  | CallDisconnect => disconnect s
  | CallSend m => send m s
  | CallSendAudioChunk a c now => fst (sendAudioChunk a c now s)
  | CallOn event id => on event (UserCb id) s
  | CallOff event id => off event (UserCb id) s
  | SockOpen n =>
      match sockets (env s) !! n with
      | Some k =>
          if bool_decide (sk_ready k = CONNECTING) && negb (sk_closed k)
          then onopen n (set_sock n (sk_set_ready OPEN) s)
          else s
      | None => s
      end
  | SockMessage n f =>
      match sockets (env s) !! n with
      | Some k =>
          if bool_decide (sk_ready k = OPEN) && negb (sk_closed k)
          then onmessage n f s
          else s
      | None => s
      end
  | SockError n =>
      match sockets (env s) !! n with
      | Some k =>
          if negb (sk_closed k)
          then onerror n (set_sock n (sk_set_ready CLOSED) s)
          else s
      | None => s
      end
  | SockClose n wasClean code reason =>
      match sockets (env s) !! n with
      | Some k =>
          if negb (sk_closed k)
          then onclose n wasClean code reason
                 (set_sock n (fun k' => sk_set_closed true (sk_set_ready CLOSED k')) s)
          else s
      | None => s
      end
  | TimerFire i =>
      match timers (env s) !! i with
      | Some t =>
          let s1 := set_timers (delete i (timers (env s))) s in
          match t_kind t with
          | TAuth n => authTimeout n s1
          | TReconnect tok => connect (sessionId (ws s1)) tok FromReconnect s1
          end
      | None => s
      end
  | IntervalTick h =>
      if decide (h ∈ intervals (env s)) then heartbeatTick s else s
  end.

Definition step (s : State World) (t : Task) : State World := drain (task t s).

Definition run (ts : list Task) s : State World := foldl step s ts.

(** Reconnections that fail before the transport opens: each timer
    expires, the new socket (the [ns]-th, then the next, ...) reports an
    error and closes, not cleanly, with the given code and reason.  [nt]
    is the position of the reconnection timer among the pending timers. *)
Fixpoint failed_reconnects (nt ns : nat) (details : list (Z * string)) : list Task :=
  match details with
  | [] => []
  | (code, reason) :: rest =>
      TimerFire nt :: SockError ns :: SockClose ns false code reason
        :: failed_reconnects nt (S ns) rest
  end.

(** The connection status the specification speaks of, read off the
    client's flags ([getConnectionStatus]) and its pending timers. *)
Inductive Status : Type :=
| Disconnected | Connecting | Connected | Authenticated | Reconnecting.

Definition reconnect_pending s : bool :=
  existsb (fun t => match t_kind t with TReconnect _ => true | TAuth _ => false end)
          (timers (env s)).

Definition status s : Status :=
  if isAuthenticated (ws s) then Authenticated
  else if isConnected (ws s) then Connected
  else if reconnect_pending s then Reconnecting
  else match socket (ws s) with
       | Some k =>
           match sk_ready <$> sockets (env s) !! k with
           | Some CONNECTING => Connecting
           | _ => Disconnected
           end
       | None => Disconnected
       end.
(** What the application's listeners cannot reach: everything but the
    listener table, the console, the record of invocations and their own
    state. *)
Definition core s : State unit :=
  MkState (ws_set_eventListeners ∅ (ws s))
          (MkEnv (sockets (env s)) (timers (env s)) (intervals (env s)) (nextHandle (env s))
                 (microtasks (env s)) [] (emitted (env s)) [] tt).

(** The replies [authListener] acts on. *)
Definition is_auth_reply (data : Payload) : bool :=
  match data with
  | PData d =>
      bool_decide (in_type d = "authenticated") || bool_decide (in_type d = "auth_error")
  | _ => false
  end.

(** The reactions of a [connect] promise. *)
Definition is_connect_reaction (m : Micro) : bool :=
  match m with
  | ConnectThen _ | ConnectCatch _ _ => true
  | AuthThen _ | AuthCatch _ _ => false
  end.

(** [getConnectionStatus()] *)
Definition getConnectionStatus s : bool * bool * option string * option string * nat :=
  (isConnected (ws s), isAuthenticated (ws s), sessionId (ws s), userId (ws s),
   reconnectAttempts (ws s)).

(** How often an event was emitted. *)
Definition times_emitted (event : string) s : nat :=
  length (List.filter (fun e => bool_decide (e.1 = event)) (emitted (env s))).

End Client.
End Connection.

(** ** The capture pipeline: [AudioCaptureService] *)

Module Capture.
Import Connection.

(** A recorded slice of audio. *)
Record Blob : Type := MkBlob { blob_bytes : list N; blob_type : string }.

Definition blob_size (b : Blob) : nat := length (blob_bytes b).

(** What [setWebSocket] may be given: a browser socket (it has a
    [readyState]), the [VoiceAgentWebSocket] client (no [readyState], a
    [send] method), or an object with neither. *)
Inductive Sink : Type :=
| SinkSocket (k : nat)
| SinkClient
| SinkOther.

Record AudioCaptureService : Type := MkCapture {
  isRecording : bool;
  mediaRecorder : bool;          (* a [MediaRecorder] has been created *)
  audioStream : bool;            (* the microphone stream is held *)
  audioChunks : list Blob;
  websocket : option Sink;
  recordingStartTime : option Z
}.

Definition constructed : AudioCaptureService :=
  MkCapture false false false [] None None.

Section Service.
Context {World : Type} `{!UserCallbacks World}.
Implicit Types (c : AudioCaptureService) (s : State World).

(** [initialize()]; [denied] is the error of [getUserMedia], if it fails. *)
Definition initialize (denied : option string) c s
  : AudioCaptureService * State World * Completion bool :=
  let s1 := log LLog "Requesting microphone access..." s in
  match denied with
  | None =>
      (MkCapture (isRecording c) (mediaRecorder c) true (audioChunks c)
                 (websocket c) (recordingStartTime c),
       log LLog "Microphone access granted" s1, Return true)
  | Some message =>
      (c, log LError "Microphone access failed" s1,
       Throw ("Microphone access denied: " +:+ message))
  end.

Definition setWebSocket (sink : Sink) c s : AudioCaptureService * State World :=
  (MkCapture (isRecording c) (mediaRecorder c) (audioStream c) (audioChunks c)
             (Some sink) (recordingStartTime c),
   log LLog "WebSocket connected to audio capture service" s).

Definition startRecording (now : Z) c s
  : AudioCaptureService * State World * Completion bool :=
  if isRecording c then (c, log LWarn "Already recording" s, Return false)
  else if negb (audioStream c)
  then (c, s, Throw "Audio stream not initialized. Call initialize() first.")
  else
    (MkCapture true true (audioStream c) [] (websocket c) (Some now),
     log LLog "Audio recording started" (log LLog "Starting audio recording..." s),
     Return true).

Definition stopRecording c s : AudioCaptureService * State World * bool :=
  if negb (isRecording c) || negb (mediaRecorder c) then (c, s, false)
  else
    (MkCapture false (mediaRecorder c) (audioStream c) (audioChunks c)
               (websocket c) (recordingStartTime c),
     log LLog "Stopping audio recording..." s, true).

(** [handleAudioChunk(audioBlob)].  The method assigns no field of the
    service; the chunk goes to the bound sink or nowhere. *)
Definition handleAudioChunk (blob : Blob) c s
  : AudioCaptureService * State World * Completion unit :=
  match websocket c with
  | None => (c, s, Return tt)
  | Some sink =>
      let message := OCaptureChunk (arrayBufferToBase64 (blob_bytes blob)) (blob_type blob) in
      let '(s', r) :=
        try_catch
          (fun s0 =>
             match sink with
             | SinkSocket k =>
                 if bool_decide (sk_ready <$> sockets (env s0) !! k = Some OPEN) then
                   match socket_send k message s0 with
                   | (s1, Return _) =>
                       (log LLog "Audio chunk sent for transcription" s1, Return tt)
                   | (s1, Throw e) => (s1, Throw e)
                   end
                 else
                   (* a browser socket has a [send] function; given an
                      object, it sends the object's string conversion *)
                   match socket_send k (ORaw "[object Object]") s0 with
                   | (s1, Return _) => (log LLog "Audio chunk sent via wrapper" s1, Return tt)
                   | (s1, Throw e) => (s1, Throw e)
                   end
             | SinkClient =>
                 (log LLog "Audio chunk sent via wrapper" (send message s0), Return tt)
             | SinkOther =>
                 (log LWarn "WebSocket not ready for audio streaming" s0, Return tt)
             end)
          (fun _ s1 => (log LError "Failed to process audio chunk" s1, Return tt))
          s in
      (c, s', r)
  end.

(** [mediaRecorder.ondataavailable] *)
Definition ondataavailable (blob : Blob) c s
  : AudioCaptureService * State World * Completion unit :=
  if bool_decide (0 < blob_size blob)%nat then handleAudioChunk blob c s
  else (c, s, Return tt).

Definition cleanup c s : AudioCaptureService * State World :=
  let '(c1, s1, _) :=
    if mediaRecorder c && isRecording c then stopRecording c s else (c, s, false) in
  let c2 :=
    if audioStream c1
    then MkCapture (isRecording c1) (mediaRecorder c1) false (audioChunks c1)
                   (websocket c1) (recordingStartTime c1)
    else c1 in
  (c2, log LLog "Audio capture cleaned up" s1).

(** The calls made on the service, and the chunks a recorder delivers
    once it has been created (the last one arrives after [stop()]). *)
Inductive Op : Type :=
| OpInitialize (denied : option string)
| OpSetWebSocket (sink : Sink)
| OpStartRecording (now : Z)
| OpStopRecording
| OpDataAvailable (blob : Blob)
| OpCleanup.

Definition perform (cs : AudioCaptureService * State World) (op : Op)
  : AudioCaptureService * State World :=
  let '(c, s) := cs in
  match op with
  | OpInitialize denied => (initialize denied c s).1
  | OpSetWebSocket sink => setWebSocket sink c s
  | OpStartRecording now => (startRecording now c s).1
  | OpStopRecording => (stopRecording c s).1
  | OpDataAvailable blob => if mediaRecorder c then (ondataavailable blob c s).1 else (c, s)
  | OpCleanup => cleanup c s
  end.

Definition perform_all (ops : list Op) (cs : AudioCaptureService * State World)
  : AudioCaptureService * State World :=
  foldl perform cs ops.

End Service.
End Capture.

(** ** The coordinator: [SessionStore] *)

Module Store.
Import Connection(Level, LLog, LWarn, LError).

Record Session : Type := MkSession { id : string }.

(** [testState.phase] is one of three strings. *)
Inductive Phase : Type := Preparation | Response | Completed.

#[global] Instance Phase_eq_dec : EqDecision Phase.
Proof. solve_decision. Defined.

Record Recording : Type := MkRecording {
  task : nat;
  audioId : option string;
  transcription : option string;
  duration : option Z;
  timestamp : Z
}.

(** [audioResult.audio] *)
Record Audio : Type := MkAudio {
  audio_id : string;
  audio_transcription : string;
  quality_metrics : string
}.

(** The fields of [responseData] the store reads. *)
Record ResponseData : Type := MkResponseData {
  question_id : option string;
  response_time : option Z;
  recording_duration : option Z
}.

Record SubmitData : Type := MkSubmitData {
  sd_audio_id : option string;
  sd_transcription : option string;
  sd_response_time : Z;
  sd_recording_duration : option Z;
  sd_audio_quality : option string
}.

(** Calls the store makes on its collaborators: the HTTP client [api]
    and the [websocket] client. *)
Inductive Call : Type :=
| ApiCreateSession (testType mode : option string)
| ApiGetSessions
| ApiStartTOEFLTask (sessionId : string) (taskNumber : nat)
| ApiStartIELTSPart (sessionId : string) (partNumber : nat)
| ApiUploadAudio (audioFile sessionId : string) (user_id : option string)
    (part_task : string) (question_id : option string)
| ApiSubmitTOEFLResponse (sessionId : string) (taskNumber : nat) (d : SubmitData)
| ApiSubmitIELTSResponse (sessionId : string) (partNumber : nat) (d : SubmitData)
| ApiGetTOEFLScore (sessionId : string)
| ApiGetIELTSScore (sessionId : string)
| WsConnect (sessionId token : string)
| WsStartConversation (testType : option string) (taskType : string).

Definition is_upload (c : Call) : bool :=
  match c with ApiUploadAudio _ _ _ _ _ => true | _ => false end.
Definition is_submit (c : Call) : bool :=
  match c with
  | ApiSubmitTOEFLResponse _ _ _ | ApiSubmitIELTSResponse _ _ _ => true
  | _ => false
  end.

(** Every method of [api] catches its own errors and answers
    [{ success: true, ... }] or [{ success: false, error }]. *)
Inductive Result (A : Type) : Type :=
| Ok (a : A)
| Err (error : string).
Arguments Ok {A} a.
Arguments Err {A} error.

(** The collaborators.  An answer may depend on the call and on every
    call made before it. *)
Class Backend : Type := MkBackend {
  isLoggedIn : list Call -> bool;
  getStoredToken : list Call -> option string;
  getUserId : list Call -> option string;
  answer_session : list Call -> Call -> Result (Session * option string);
  answer_sessions : list Call -> Call -> Result (list Session);
  answer_task : list Call -> Call -> Result string;
  answer_upload : list Call -> Call -> Result Audio;
  answer_submit : list Call -> Call -> Result string;
  answer_score : list Call -> Call -> Result string;
  ws_connects : list Call -> Call -> bool
}.

(** The second argument of a session listener. *)
Inductive Detail : Type :=
| DNull
| DFlag (b : bool)
| DText (t : string)
| DSession (s : Session)
| DSessions (l : list Session)
| DTask (currentTask totalTasks : nat)
| DStarted (testType : option string) (task : string)
| DSubmitted (audio : option Audio) (result : string)
| DCompleted (scores : string) (recordings : list Recording) (duration : Z)
| DWs (p : Connection.Payload).

Definition Notice : Type := string * Detail.

(** What a listener may do to the store's listener array while it runs:
    call [onSessionChange], or an unsubscribe function it holds. *)
Inductive SubOp : Type :=
| Subscribe (id : nat)
| Unsubscribe (id : nat).

Record LResult (World : Type) : Type := MkLResult {
  l_world : World;
  l_ops : list SubOp;
  l_completion : Completion unit
}.
Arguments MkLResult {World} _ _ _.
Arguments l_world {World} _.
Arguments l_ops {World} _.
Arguments l_completion {World} _.

(** The functions registered with [onSessionChange], by name.  They are
    observers: what they do to [World] is arbitrary, and re-entrant calls
    into the store's methods are outside this model. *)
Class Listeners (World : Type) : Type :=
  listener_cb : nat -> Notice -> World -> LResult World.

(** What a method hands back: [{ success: true, ... }] or
    [{ success: false, error }]. *)
Inductive Outcome : Type :=
| Success (d : Detail)
| Failure (error : string).

Definition succeeded (o : Outcome) : bool :=
  match o with Success _ => true | Failure _ => false end.

Record TestState : Type := MkTestState {
  type : option string;
  mode : option string;
  currentTask : nat;
  totalTasks : nat;
  phase : Phase;
  isRecording : bool;
  recordings : list Recording;
  scores : option string;
  feedback : option string;
  startTime : option Z;
  endTime : option Z
}.

Record SessionStore : Type := MkStore {
  currentSession : option Session;
  sessions : list Session;
  isLoading : bool;
  error : option string;
  sessionListeners : list nat;
  websocketConnected : bool;
  testState : TestState
}.

Definition ts_set_type (v : option string) (t : TestState) : TestState :=
  MkTestState v (mode t) (currentTask t) (totalTasks t) (phase t) (isRecording t) (recordings t) (scores t) (feedback t) (startTime t) (endTime t).
Definition ts_set_mode (v : option string) (t : TestState) : TestState :=
  MkTestState (type t) v (currentTask t) (totalTasks t) (phase t) (isRecording t) (recordings t) (scores t) (feedback t) (startTime t) (endTime t).
Definition ts_set_currentTask (v : nat) (t : TestState) : TestState :=
  MkTestState (type t) (mode t) v (totalTasks t) (phase t) (isRecording t) (recordings t) (scores t) (feedback t) (startTime t) (endTime t).
Definition ts_set_totalTasks (v : nat) (t : TestState) : TestState :=
  MkTestState (type t) (mode t) (currentTask t) v (phase t) (isRecording t) (recordings t) (scores t) (feedback t) (startTime t) (endTime t).
Definition ts_set_phase (v : Phase) (t : TestState) : TestState :=
  MkTestState (type t) (mode t) (currentTask t) (totalTasks t) v (isRecording t) (recordings t) (scores t) (feedback t) (startTime t) (endTime t).
Definition ts_set_isRecording (v : bool) (t : TestState) : TestState :=
  MkTestState (type t) (mode t) (currentTask t) (totalTasks t) (phase t) v (recordings t) (scores t) (feedback t) (startTime t) (endTime t).
Definition ts_set_recordings (v : list Recording) (t : TestState) : TestState :=
  MkTestState (type t) (mode t) (currentTask t) (totalTasks t) (phase t) (isRecording t) v (scores t) (feedback t) (startTime t) (endTime t).
Definition ts_set_scores (v : option string) (t : TestState) : TestState :=
  MkTestState (type t) (mode t) (currentTask t) (totalTasks t) (phase t) (isRecording t) (recordings t) v (feedback t) (startTime t) (endTime t).
Definition ts_set_feedback (v : option string) (t : TestState) : TestState :=
  MkTestState (type t) (mode t) (currentTask t) (totalTasks t) (phase t) (isRecording t) (recordings t) (scores t) v (startTime t) (endTime t).
Definition ts_set_startTime (v : option Z) (t : TestState) : TestState :=
  MkTestState (type t) (mode t) (currentTask t) (totalTasks t) (phase t) (isRecording t) (recordings t) (scores t) (feedback t) v (endTime t).
Definition ts_set_endTime (v : option Z) (t : TestState) : TestState :=
  MkTestState (type t) (mode t) (currentTask t) (totalTasks t) (phase t) (isRecording t) (recordings t) (scores t) (feedback t) (startTime t) v.

Definition st_set_currentSession (v : option Session) (o : SessionStore) : SessionStore :=
  MkStore v (sessions o) (isLoading o) (error o) (sessionListeners o) (websocketConnected o) (testState o).
Definition st_set_sessions (v : list Session) (o : SessionStore) : SessionStore :=
  MkStore (currentSession o) v (isLoading o) (error o) (sessionListeners o) (websocketConnected o) (testState o).
Definition st_set_isLoading (v : bool) (o : SessionStore) : SessionStore :=
  MkStore (currentSession o) (sessions o) v (error o) (sessionListeners o) (websocketConnected o) (testState o).
Definition st_set_error (v : option string) (o : SessionStore) : SessionStore :=
  MkStore (currentSession o) (sessions o) (isLoading o) v (sessionListeners o) (websocketConnected o) (testState o).
Definition st_set_sessionListeners (v : list nat) (o : SessionStore) : SessionStore :=
  MkStore (currentSession o) (sessions o) (isLoading o) (error o) v (websocketConnected o) (testState o).
Definition st_set_websocketConnected (v : bool) (o : SessionStore) : SessionStore :=
  MkStore (currentSession o) (sessions o) (isLoading o) (error o) (sessionListeners o) v (testState o).
Definition st_set_testState (v : TestState) (o : SessionStore) : SessionStore :=
  MkStore (currentSession o) (sessions o) (isLoading o) (error o) (sessionListeners o) (websocketConnected o) v.

(** The runtime around the store. *)
Record Runtime (World : Type) : Type := MkRuntime {
  calls : list Call;               (* calls on the collaborators, in order *)
  invoked : list (nat * Notice);   (* listener invocations, in order *)
  console : list (Level * string);
  world : World
}.
Arguments MkRuntime {World} _ _ _ _.
Arguments calls {World} _.
Arguments invoked {World} _.
Arguments console {World} _.
Arguments world {World} _.

Record State (World : Type) : Type := MkState {
  store : SessionStore;
  rt : Runtime World
}.
Arguments MkState {World} _ _.
Arguments store {World} _.
Arguments rt {World} _.

Definition fresh_testState : TestState :=
  MkTestState None None 1%nat 4%nat Preparation false [] None None None None.


Section Coordinator.
Context {World : Type} `{!Backend} `{!Listeners World}.
Implicit Types (s : State World).

(** The state the constructor leaves. *)
Definition constructed (w : World) : State World :=
  MkState (MkStore None [] false None [] false fresh_testState)
          (MkRuntime [] [] [] w).

Definition on_store (f : SessionStore -> SessionStore) s : State World :=
  MkState (f (store s)) (rt s).
Definition on_testState (f : TestState -> TestState) s : State World :=
  on_store (fun o => st_set_testState (f (testState o)) o) s.
Definition set_calls (v : list Call) s : State World :=
  MkState (store s) (MkRuntime v (invoked (rt s)) (console (rt s)) (world (rt s))).
Definition set_invoked (v : list (nat * Notice)) s : State World :=
  MkState (store s) (MkRuntime (calls (rt s)) v (console (rt s)) (world (rt s))).
Definition set_console (v : list (Level * string)) s : State World :=
  MkState (store s) (MkRuntime (calls (rt s)) (invoked (rt s)) v (world (rt s))).
Definition set_world (v : World) s : State World :=
  MkState (store s) (MkRuntime (calls (rt s)) (invoked (rt s)) (console (rt s)) v).

Definition log (lv : Level) (msg : string) s : State World :=
  set_console (console (rt s) ++ [(lv, msg)]) s.

(** *** Statements with completions *)

Definition M (A : Type) : Type := State World -> State World * Completion A.

Definition ret {A} (a : A) : M A := fun s => (s, Return a).
Definition throw {A} (e : string) : M A := fun s => (s, Throw e).
Definition bind {A B} (m : M A) (f : A -> M B) : M B :=
  fun s =>
    match m s with
    | (s', Return a) => f a s'
    | (s', Throw e) => (s', Throw e)
    end.
Definition get : M (State World) := fun s => (s, Return s).
Definition modify (f : State World -> State World) : M unit := fun s => (f s, Return tt).

Notation "'let*' x ':=' m 'in' k" := (bind m (fun x => k))
  (at level 10, x name, m at level 100, k at level 200).
Notation "m >> k" := (bind m (fun _ => k))
  (at level 100, k at level 200, right associativity).

(** A call on a collaborator: recorded, and answered from the history. *)
Definition ask {A} (answer : list Call -> Call -> A) (c : Call) : M A :=
  fun s => (set_calls (calls (rt s) ++ [c]) s, Return (answer (calls (rt s)) c)).

(** *** Event system *)

Definition apply_sub (s : State World) (op : SubOp) : State World :=
  match op with
  | Subscribe i =>
      on_store (fun o => st_set_sessionListeners (sessionListeners o ++ [i]) o) s
  | Unsubscribe i =>
      on_store (fun o => st_set_sessionListeners (remove_first i (sessionListeners o)) o) s
  end.

Definition run_listener (n : Notice) (i : nat) s : State World * Completion unit :=
  let r := listener_cb i n (world (rt s)) in
  (foldl apply_sub (set_world (l_world r) s) (l_ops r), l_completion r).

(** [callback => { try { callback(event, data) } catch (error) { console.error(..) } }] *)
Definition guarded (n : Notice) (i : nat) s : State World * Completion unit :=
  try_catch (run_listener n i)
    (fun _ s' => (log LError "Session listener error" s', Return tt))
    (set_invoked (invoked (rt s) ++ [(i, n)]) s).

(** [notifyListeners(event, data = null)], with its completion. *)
Definition notifyListeners_c (event : string) (data : Detail) : M unit :=
  forEach (fun s => sessionListeners (store s)) (guarded (event, data)).

Definition notifyListeners (event : string) (data : Detail) s : State World :=
  fst (notifyListeners_c event data s).

(** *** State management *)

Definition setLoading (loading : bool) s : State World :=
  notifyListeners "loadingChanged" (DFlag loading)
    (on_store (st_set_isLoading loading) s).

Definition setError (e : string) s : State World :=
  notifyListeners "errorChanged" (DText e) (on_store (st_set_error (Some e)) s).

Definition clearError s : State World :=
  notifyListeners "errorChanged" DNull (on_store (st_set_error None) s).

Definition clearSessions s : State World :=
  notifyListeners "sessionsCleared" DNull
    (on_store (fun o =>
       st_set_testState fresh_testState (st_set_currentSession None (st_set_sessions [] o))) s).

(** The shape every asynchronous method of the store has:
    [try { body } catch (error) { console.error(..); this.setError(error.message);
     return { success: false, error: error.message } } finally { this.setLoading(false) }] *)
Definition attempt (what : string) (body : M Outcome) s : State World * Outcome :=
  let '(s2, out) :=
    match body s with
    | (s1, Return o) => (s1, o)
    | (s1, Throw e) => (setError e (log LError what s1), Failure e)
    end in
  (setLoading false s2, out).

(** *** Session management *)

Definition loadUserSessions s : State World :=
  if negb (isLoggedIn (calls (rt s))) then s
  else
    match ask answer_sessions ApiGetSessions s with
    | (s1, Return (Ok l)) =>
        log LLog "Loaded user sessions"
          (notifyListeners "sessionsLoaded" (DSessions l) (on_store (st_set_sessions l) s1))
    | (s1, _) => s1
    end.

(** [totalTasks: testType === 'toefl' ? 4 : 3] *)
Definition tasks_of (testType : option string) : nat :=
  if decide (testType = Some "toefl") then 4%nat else 3%nat.

(** [createSession(testType, mode)]; [now] is the clock during the call. *)
Definition createSession (testType mode : option string) (now : Z) s
  : State World * Outcome :=
  attempt "Session creation failed"
    (modify (setLoading true) >>
     modify clearError >>
     let* s1 := get in
     if negb (isLoggedIn (calls (rt s1))) then throw "Authentication required"
     else
       match testType with
       | None => throw "TypeError: testType.toUpperCase"
       | Some _ =>
           modify (log LLog "Creating session") >>
           let* result := ask answer_session (ApiCreateSession testType mode) in
           match result with
           | Ok (session, websocket_url) =>
               modify (on_store (st_set_currentSession (Some session))) >>
               modify (on_testState (fun t =>
                 MkTestState testType mode 1%nat (tasks_of testType) Preparation
                             (isRecording t) [] None None (Some now) (endTime t))) >>
               let* s2 := get in
               (match websocket_url, getStoredToken (calls (rt s2)) with
                | Some _, Some token =>
                    let* connected := ask ws_connects (WsConnect (id session) token) in
                    if connected : bool
                    then modify (log LLog "WebSocket connected for session")
                    else modify (log LWarn "WebSocket connection failed")
                | _, _ => ret tt
                end) >>
               modify (notifyListeners "sessionCreated" (DSession session)) >>
               modify loadUserSessions >>
               modify (log LLog "Session created successfully") >>
               ret (Success (DSession session))
           | Err e => throw (if decide (e = "") then "Failed to create session" else e)
           end
       end)
    s.

(** *** Test flow *)

(** [taskNumber || this.testState.currentTask]: [null] and [0] are falsy. *)
Definition task_or_current (taskNumber : option nat) s : nat :=
  match taskNumber with
  | Some (S n) => S n
  | _ => currentTask (testState (store s))
  end.

(** [api.startTOEFLTask] or [api.startIELTSPart], by the argument. *)
Definition start_request (testType : option string) (session : Session) (n : nat) : Call :=
  if decide (testType = Some "toefl")
  then ApiStartTOEFLTask (id session) n
  else ApiStartIELTSPart (id session) n.

Definition startTest (testType mode : option string) (taskNumber : option nat) (now : Z) s
  : State World * Outcome :=
  attempt "Failed to start test"
    (modify (setLoading true) >>
     let* s1 := get in
     (match currentSession (store s1) with
      | Some _ => ret tt
      | None =>
          fun s' =>
            match createSession testType mode now s' with
            | (s'', Success _) => (s'', Return tt)
            | (s'', Failure e) => (s'', Throw e)
            end
      end) >>
     let* s2 := get in
     match currentSession (store s2) with
     | None => throw "TypeError: this.currentSession.id"
     | Some session =>
         let* result :=
           ask answer_task (start_request testType session (task_or_current taskNumber s2)) in
         match result with
         | Ok content =>
             modify (on_testState (ts_set_phase Preparation)) >>
             modify (notifyListeners "testStarted" (DStarted testType content)) >>
             let* s3 := get in
             (if websocketConnected (store s3)
              then
                let* _ := ask (fun _ _ => tt)
                      (WsStartConversation testType
                         ("task_" +:+ pretty (task_or_current taskNumber s3))) in
                ret tt
              else ret tt) >>
             ret (Success (DText content))
         | Err e => throw e
         end
     end)
    s.

(** [`${this.testState.type}`]: [null] prints as text. *)
Definition show_type (t : option string) : string := default "null" t.

(** [responseData.response_time || Date.now() - this.testState.startTime] *)
Definition response_time_or_elapsed (rd : ResponseData) (now : Z) (t : TestState) : Z :=
  let elapsed := now - default 0 (startTime t) in
  match response_time rd with
  | Some r => if decide (r = 0) then elapsed else r
  | None => elapsed
  end.

(** The upload request, [submitData], the submission request and the
    recording that [submitResponse] builds. *)
Definition upload_request (file : string) (session : Session) (rd : ResponseData)
    (user_id : option string) (t : TestState) : Call :=
  ApiUploadAudio file (id session) user_id
    (show_type (type t) +:+ "_task_" +:+ pretty (currentTask t))
    (question_id rd).

Definition submitData_of (audioResult : option Audio) (rd : ResponseData) (now : Z)
    (t : TestState) : SubmitData :=
  MkSubmitData (audio_id <$> audioResult) (audio_transcription <$> audioResult)
               (response_time_or_elapsed rd now t) (recording_duration rd)
               (quality_metrics <$> audioResult).

Definition submit_request (session : Session) (audioResult : option Audio)
    (rd : ResponseData) (now : Z) (t : TestState) : Call :=
  if decide (type t = Some "toefl")
  then ApiSubmitTOEFLResponse (id session) (currentTask t) (submitData_of audioResult rd now t)
  else ApiSubmitIELTSResponse (id session) (currentTask t) (submitData_of audioResult rd now t).

Definition recording_of (audioResult : option Audio) (rd : ResponseData) (now : Z)
    (t : TestState) : Recording :=
  MkRecording (currentTask t) (audio_id <$> audioResult)
              (audio_transcription <$> audioResult) (recording_duration rd) now.

(** [submitResponse(audioFile, responseData = {})]; [audioFile] is a
    file object or [null]. *)
Definition submitResponse (audioFile : option string) (rd : ResponseData) (now : Z) s
  : State World * Outcome :=
  attempt "Response submission failed"
    (modify (setLoading true) >>
     let* s1 := get in
     match currentSession (store s1) with
     | None => throw "No active session"
     | Some session =>
         modify (log LLog "Submitting response for session") >>
         let* audioResult :=
           match audioFile with
           | Some file =>
               let* s2 := get in
               let* uploaded :=
                 ask answer_upload
                   (upload_request file session rd (getUserId (calls (rt s2)))
                      (testState (store s2))) in
               match uploaded with
               | Ok audio => ret (Some audio)
               | Err e => throw ("Audio upload failed: " +:+ e)
               end
           | None => ret None
           end in
         let* s3 := get in
         let* result :=
           ask answer_submit (submit_request session audioResult rd now (testState (store s3))) in
         match result with
         | Ok r =>
             modify (on_testState (fun t =>
               ts_set_recordings (recordings t ++ [recording_of audioResult rd now t]) t)) >>
             modify (notifyListeners "responseSubmitted" (DSubmitted audioResult r)) >>
             ret (Success (DSubmitted audioResult r))
         | Err e => throw e
         end
     end)
    s.

(** [api.getTOEFLScore] or [api.getIELTSScore], by the test's type. *)
Definition score_request (session : Session) (t : TestState) : Call :=
  if decide (type t = Some "toefl")
  then ApiGetTOEFLScore (id session)
  else ApiGetIELTSScore (id session).

Definition completeTest (now : Z) s : State World * Outcome :=
  attempt "Test completion failed"
    (modify (setLoading true) >>
     let* s1 := get in
     match currentSession (store s1) with
     | None => throw "No active session"
     | Some session =>
         modify (log LLog "Completing test session") >>
         let* scoreResult :=
           ask answer_score (score_request session (testState (store s1))) in
         match scoreResult with
         | Ok score =>
             modify (on_testState (fun t =>
               ts_set_endTime (Some now) (ts_set_phase Completed (ts_set_scores (Some score) t)))) >>
             let* s2 := get in
             let t := testState (store s2) in
             modify (notifyListeners "testCompleted"
                       (DCompleted score (recordings t) (now - default 0 (startTime t)))) >>
             ret (Success (DText score))
         | Err e => throw e
         end
     end)
    s.

Definition nextTask (now : Z) s : State World * Outcome :=
  let t := testState (store s) in
  if bool_decide (currentTask t < totalTasks t)%nat then
    let s1 := on_testState (ts_set_currentTask (S (currentTask t))) s in
    let s2 := on_testState (ts_set_phase Preparation) s1 in
    let t2 := testState (store s2) in
    let s3 := notifyListeners "taskChanged" (DTask (currentTask t2) (totalTasks t2)) s2 in
    let t3 := testState (store s3) in
    startTest (type t3) (mode t3) (Some (currentTask t3)) now s3
  else completeTest now s.

(** *** Handlers of the connection's events *)

Definition onWebsocketConnected (data : Connection.Payload) s : State World :=
  notifyListeners "websocketConnected" (DWs data)
    (on_store (st_set_websocketConnected true) s).

Definition onWebsocketDisconnected (data : Connection.Payload) s : State World :=
  notifyListeners "websocketDisconnected" (DWs data)
    (on_store (st_set_websocketConnected false) s).

(** [handleSessionUpdate(data)], with [data.session_id] made explicit. *)
Definition handleSessionUpdate (session_id : string) (data : Connection.Payload) s
  : State World :=
  match currentSession (store s) with
  | Some session =>
      if decide (session_id = id session)
      then notifyListeners "sessionUpdated" (DWs data)
             (log LLog "Session updated via WebSocket" s)
      else s
  | None => s
  end.

(** [handleAudioProcessed], [handleTranscription], [handleAIResponse] and
    [handleRealTimeFeedback]: a log line and a notification. *)
Definition forwardEvent (event : string) (data : Connection.Payload) s : State World :=
  notifyListeners event (DWs data) (log LLog event s).

(** *** Runs of the coordinator *)

Inductive Request : Type :=
| ReqCreateSession (testType mode : option string)
| ReqStartTest (testType mode : option string) (taskNumber : option nat)
| ReqSubmitResponse (audioFile : option string) (rd : ResponseData)
| ReqNextTask
| ReqCompleteTest.

Definition exec (r : Request) (now : Z) s : State World * Outcome :=
  match r with
  | ReqCreateSession testType mode => createSession testType mode now s
  | ReqStartTest testType mode taskNumber => startTest testType mode taskNumber now s
  | ReqSubmitResponse audioFile rd => submitResponse audioFile rd now s
  | ReqNextTask => nextTask now s
  | ReqCompleteTest => completeTest now s
  end.

(** A sequence of requests, each at its own time, with what each handed
    back. *)
Fixpoint run (rs : list (Request * Z)) s : State World * list (Request * Outcome) :=
  match rs with
  | [] => (s, [])
  | (r, now) :: rs' =>
      let '(s1, o) := exec r now s in
      let '(s2, os) := run rs' s1 in
      (s2, (r, o) :: os)
  end.

Definition is_successful_submit (ro : Request * Outcome) : bool :=
  match ro with
  | (ReqSubmitResponse _ _, Success _) => true
  | _ => false
  end.

Definition is_nextTask (r : Request) : bool :=
  match r with ReqNextTask => true | _ => false end.

(** The requests of a test in progress: everything but [createSession]. *)
Definition in_test (r : Request) : bool :=
  match r with ReqCreateSession _ _ => false | _ => true end.


Definition successful_submits (os : list (Request * Outcome)) : nat :=
  length (List.filter is_successful_submit os).

Definition nextTask_calls (rs : list (Request * Z)) : nat :=
  length (List.filter (fun r => is_nextTask r.1) rs).

(** What the listeners cannot reach: the store's own fields apart from
    the listener array and the two flags they are told about, and the
    record of calls on the collaborators. *)
Definition core s : option Session * bool * TestState * list Call :=
  (currentSession (store s), websocketConnected (store s), testState (store s), calls (rt s)).

(** The store's own fields, the listener array apart. *)
Definition fields s : SessionStore := st_set_sessionListeners [] (store s).

(** A test taken task by task, without audio files: for each task a
    response is submitted and then [nextTask] is called.  A round gives
    the response data and the times of the two calls. *)
Fixpoint answer_each (rounds : list (ResponseData * Z * Z)) : list (Request * Z) :=
  match rounds with
  | [] => []
  | (rd, t1, t2) :: rest =>
      (ReqSubmitResponse None rd, t1) :: (ReqNextTask, t2) :: answer_each rest
  end.

End Coordinator.
End Store.

(** * Scenarios *)

Module ConnectionScenarios.
Import Connection.

(** Application listeners: number 0 always throws, number 1 counts its
    calls, number 2 unsubscribes itself from "message" when called; any
    other does nothing. *)
Definition demo_callbacks : UserCallbacks nat :=
  fun id _ w =>
    match id with
    | 0%nat => MkCbResult w [] (Throw "listener failed")
    | 1%nat => MkCbResult (S w) [] (Return tt)
    | 2%nat => MkCbResult w [ROff "message" 2] (Return tt)
    | _ => MkCbResult w [] (Return tt)
    end.

#[export] Instance scenario_callbacks : UserCallbacks nat := demo_callbacks.

Definition unclean (n : nat) : Task := SockClose n false 1006 "".

Definition authenticated_reply : Frame := FJson (MkInbound "authenticated" "user-1" "").

(** The transport is open and the handshake sent. *)
Definition connected : State nat :=
  run [CallConnect (Some "session-1") "token-1"; SockOpen 0] (initial 0%nat).

(** The handshake has been answered. *)
Definition authenticated : State nat := run [SockMessage 0 authenticated_reply] connected.

Definition authenticated_socket : Sock :=
  MkSock (Some "session-1") "token-1" FromCaller OPEN false
         [OAuth "token-1" (Some "session-1")] (Some Fulfilled) Fulfilled.

Definition connected_socket : Sock :=
  MkSock (Some "session-1") "token-1" FromCaller OPEN false
         [OAuth "token-1" (Some "session-1")] (Some Pending) Pending.

(** The server refuses the handshake. *)
Definition refused_reply : Frame := FJson (MkInbound "auth_error" "" "invalid token").

(** The connection has dropped and a reconnection is scheduled. *)
Definition dropped : State nat := run [unclean 0] connected.


(** A second connection attempt is under way after a drop. *)
Definition reconnecting : State nat := run [unclean 0; TimerFire 1] connected.

(** A server that accepts every transport and drops it at once, six
    times over. *)
Definition flapping : list Task :=
  [unclean 0; TimerFire 1; SockOpen 1;
   unclean 1; TimerFire 2; SockOpen 2;
   unclean 2; TimerFire 3; SockOpen 3;
   unclean 3; TimerFire 4; SockOpen 4;
   unclean 4; TimerFire 5; SockOpen 5;
   unclean 5; TimerFire 6; SockOpen 6].

Definition from_reconnect (k : Sock) : bool :=
  match sk_origin k with FromReconnect => true | FromCaller => false end.

Definition five_failures : list (Z * string) :=
  [(1006, ""); (1006, ""); (1006, ""); (1006, ""); (1006, "")].


(** A listener that throws, then one that counts, on "transcription". *)
Definition listening : State nat :=
  run [CallOn "transcription" 0; CallOn "transcription" 1] authenticated.

Definition transcript : Payload := PData (MkInbound "transcription" "" "").

(** A listener registered while the handshake is pending. *)
Definition handshaking : State nat := run [CallOn "message" 1] connected.

(** A second of recorded audio. *)
Definition one_second : Capture.Blob :=
  Capture.MkBlob [26%N; 69%N; 223%N; 163%N] "audio/webm;codecs=opus".

(** A capture service that is recording, with no connection bound. *)
Definition unbound : Capture.AudioCaptureService :=
  Capture.MkCapture true true true [] None (Some 0).

(** The same, bound to the client. *)
Definition bound : Capture.AudioCaptureService :=
  Capture.MkCapture true true true [] (Some Capture.SinkClient) (Some 0).

End ConnectionScenarios.

Module StoreScenarios.
Import Store.

(** A backend that accepts everything except: the upload of the file
    named "corrupt.webm", the submission of a recording of duration 0, and
    a score request made before any response was submitted. *)
Definition demo_backend : Backend :=
  MkBackend
    (fun _ => true) (fun _ => Some "token-1") (fun _ => Some "user-1")
    (fun _ _ => Ok (MkSession "session-1", Some "/api/v1/ws/session-1"))
    (fun _ _ => Ok [MkSession "session-1"])
    (fun _ _ => Ok "describe a familiar place")
    (fun _ c =>
       match c with
       | ApiUploadAudio file _ _ _ _ =>
           if decide (file = "corrupt.webm") then Err "413 Payload Too Large"
           else Ok (MkAudio "audio-1" "a transcript" "clear")
       | _ => Err "unexpected request"
       end)
    (fun _ c =>
       match c with
       | ApiSubmitTOEFLResponse _ _ d | ApiSubmitIELTSResponse _ _ d =>
           if decide (sd_recording_duration d = Some 0) then Err "422 Empty recording"
           else Ok "accepted"
       | _ => Err "unexpected request"
       end)
    (fun h _ => if existsb is_submit h then Ok "overall 24" else Err "503 Score not ready")
    (fun _ _ => true).

(** Session listeners: number 0 unsubscribes itself the first time it
    is told anything, number 1 always throws, the others count what they
    are told. *)
Definition demo_listeners : Listeners nat :=
  fun i _ w =>
    match i with
    | 0%nat => MkLResult w [Unsubscribe 0] (Return tt)
    | 1%nat => MkLResult w [] (Throw "listener failed")
    | _ => MkLResult (S w) [] (Return tt)
    end.

Definition spoken : ResponseData := MkResponseData None None (Some 45000).
Definition silent : ResponseData := MkResponseData None None (Some 0).

(** A backend that accepts everything. *)
Definition agreeable_backend : Backend :=
  MkBackend
    (fun _ => true) (fun _ => Some "token-1") (fun _ => Some "user-1")
    (fun _ _ => Ok (MkSession "session-1", None))
    (fun _ _ => Ok [MkSession "session-1"])
    (fun _ _ => Ok "describe a familiar place")
    (fun _ _ => Ok (MkAudio "audio-1" "a transcript" "clear"))
    (fun _ _ => Ok "accepted")
    (fun _ _ => Ok "26")
    (fun _ _ => true).

(** A backend with nobody logged in. *)
Definition anonymous_backend : Backend :=
  MkBackend
    (fun _ => false) (fun _ => None) (fun _ => None)
    (fun _ _ => Err "401 Unauthorized")
    (fun _ _ => Err "401 Unauthorized")
    (fun _ _ => Err "401 Unauthorized")
    (fun _ _ => Err "401 Unauthorized")
    (fun _ _ => Err "401 Unauthorized")
    (fun _ _ => Err "401 Unauthorized")
    (fun _ _ => false).

(** The four tasks of a test, each answered and left. *)
Definition four_rounds : list (ResponseData * Z * Z) :=
  [(spoken, 10, 20); (spoken, 30, 40); (spoken, 50, 60); (spoken, 70, 80)].

#[export] Instance scenario_backend : Backend := demo_backend.
#[export] Instance scenario_listeners : Listeners nat := demo_listeners.

(** The store after [createSession("toefl", "practice")] at time 1000. *)
Definition created : State nat :=
  (createSession (Some "toefl") (Some "practice") 1000 (constructed 0%nat)).1.

(** A test in progress: a response with audio, the next task, a response
    without audio, a response whose upload fails, an empty response. *)
Definition test_run : list (Request * Z) :=
  [(ReqStartTest (Some "toefl") (Some "practice") (Some 1%nat), 1100);
   (ReqSubmitResponse (Some "take-1.webm") spoken, 1200);
   (ReqNextTask, 1300);
   (ReqSubmitResponse None spoken, 1400);
   (ReqSubmitResponse (Some "corrupt.webm") spoken, 1500);
   (ReqSubmitResponse (Some "take-2.webm") silent, 1600)].

(** A store with two listeners: one that throws, one that counts. *)
Definition observed : State nat :=
  MkState (MkStore None [] false None [1%nat; 2%nat] false fresh_testState)
          (MkRuntime [] [] [] 0%nat).

(** A store whose first listener unsubscribes itself when told. *)
Definition one_shot : State nat :=
  MkState (MkStore None [] false None [0%nat; 2%nat] false fresh_testState)
          (MkRuntime [] [] [] 0%nat).

End StoreScenarios.

(** * Properties *)

(** ** [forEach] *)

Module JsFacts.

Section ForEachFacts.
Context {St H : Type}.
Variable live : St -> list H.
Variable call : H -> St -> St * Completion unit.

(** A callback that never throws makes a loop that never throws. *)
Lemma forEach_from_returns :
  (forall h s, snd (call h s) = Return tt) ->
  forall todo k s, snd (forEach_from live call todo k s) = Return tt.
Proof.
  intros Hret todo. induction todo as [|todo IH]; intros k s; simpl; [done|].
  destruct (live s !! k) as [h|]; [|apply IH].
  specialize (Hret h s). destruct (call h s) as [s' [[]|e]]; simpl in Hret.
  - apply IH.
  - discriminate.
Qed.

(** Whatever every callback leaves alone, the loop leaves alone. *)
Lemma forEach_from_preserves {X : Type} (proj : St -> X) :
  (forall h s, proj (fst (call h s)) = proj s) ->
  forall todo k s, proj (fst (forEach_from live call todo k s)) = proj s.
Proof.
  intros Hp todo. induction todo as [|todo IH]; intros k s; simpl; [done|].
  destruct (live s !! k) as [h|]; [|apply IH].
  specialize (Hp h s). destruct (call h s) as [s' [[]|e]]; simpl in *.
  - rewrite IH. exact Hp.
  - exact Hp.
Qed.

(** When no callback that runs changes the array or throws, the loop is
    a left fold over the array as it was at the start. *)
Lemma forEach_from_fold (l : list H) :
  (forall h s, h ∈ l -> live s = l ->
     live (fst (call h s)) = l /\ snd (call h s) = Return tt) ->
  forall todo k s, live s = l -> (k + todo)%nat = length l ->
    forEach_from live call todo k s
    = (foldl (fun s' h => fst (call h s')) s (drop k l), Return tt).
Proof.
  intros Hst todo. induction todo as [|todo IH]; intros k s Hl Hlen; simpl.
  - rewrite drop_ge by lia. done.
  - rewrite Hl. destruct (l !! k) as [h|] eqn:Hk.
    + rewrite (drop_S _ _ _ Hk). simpl.
      destruct (Hst h s) as [Hl' Hr]; [by eapply list_elem_of_lookup_2|done|].
      destruct (call h s) as [s' [[]|e]]; simpl in *; [|discriminate].
      apply IH; [done|lia].
    + apply lookup_ge_None in Hk. lia.
Qed.

Lemma forEach_fold (s : St) :
  (forall h s', h ∈ live s -> live s' = live s ->
     live (fst (call h s')) = live s /\ snd (call h s') = Return tt) ->
  forEach live call s = (foldl (fun s' h => fst (call h s')) s (live s), Return tt).
Proof.
  intros Hst. unfold forEach.
  rewrite (forEach_from_fold (live s) Hst (length (live s)) 0 s); [done|done|lia].
Qed.
End ForEachFacts.

(** [indexOf] and the removal of the first occurrence. *)

Lemma indexOf_absent {A} `{EqDecision A} (l : list A) x : x ∉ l -> indexOf l x = None.
Proof.
  induction l as [|y l IH]; [done|]. intros [Hy Hl]%not_elem_of_cons. cbn.
  rewrite decide_False by done. by rewrite IH.
Qed.

Lemma indexOf_first {A} `{EqDecision A} (l1 l2 : list A) x :
  x ∉ l1 -> indexOf (l1 ++ x :: l2) x = Some (length l1).
Proof.
  induction l1 as [|y l1 IH]; cbn.
  - intros _. by rewrite decide_True.
  - intros [Hy Hl]%not_elem_of_cons. rewrite decide_False by done. by rewrite IH.
Qed.

Lemma remove_first_absent {A} `{EqDecision A} (l : list A) x : x ∉ l -> remove_first x l = l.
Proof. intros Hx. unfold remove_first. by rewrite indexOf_absent. Qed.

Lemma remove_first_middle {A} `{EqDecision A} (l1 l2 : list A) x :
  x ∉ l1 -> remove_first x (l1 ++ x :: l2) = l1 ++ l2.
Proof. intros Hx. unfold remove_first. rewrite indexOf_first by done. apply delete_middle. Qed.

Lemma remove_first_single {A} `{EqDecision A} (x : A) : remove_first x [x] = [].
Proof. exact (remove_first_middle [] [] x (not_elem_of_nil x)). Qed.

End JsFacts.

(** ** The connection *)

Module ConnectionFacts.
Import Connection JsFacts.

Section Facts.
Context {World : Type} `{!UserCallbacks World}.
Implicit Types (s : State World).

(** *** What the listeners leave alone *)

Lemma log_core lv msg s : core (log lv msg s) = core s.
Proof. done. Qed.

Lemma on_core event cb s : core (on event cb s) = core s.
Proof. done. Qed.

Lemma off_core event cb s : core (off event cb s) = core s.
Proof. done. Qed.

Lemma apply_op_core s op : core (apply_op s op) = core s.
Proof. destruct op; [apply on_core|apply off_core]. Qed.

Lemma foldl_apply_op_core ops s : core (foldl apply_op s ops) = core s.
Proof.
  revert s. induction ops as [|op ops IH]; intros s; simpl; [done|].
  by rewrite IH, apply_op_core.
Qed.

(** A listener called with anything but a handshake reply. *)
Lemma run_cb_core cb data s :
  is_auth_reply data = false -> core (run_cb cb data s).1 = core s.
Proof.
  intros Hd. destruct cb as [n|i]; cbn [run_cb fst].
  - unfold authListener. destruct data as [d| | | | |]; try done.
    cbn in Hd. apply orb_false_iff in Hd as [H1 H2].
    apply bool_decide_eq_false in H1, H2.
    destruct (decide _); [done|]. destruct (decide _); done.
  - by rewrite foldl_apply_op_core.
Qed.

Lemma guarded_returns event data cb s : (guarded event data cb s).2 = Return tt.
Proof. unfold guarded, try_catch. by destruct (run_cb _ _ _) as [s' [[]|e]]. Qed.

Lemma guarded_core event data cb s :
  is_auth_reply data = false -> core (guarded event data cb s).1 = core s.
Proof.
  intros Hd. unfold guarded, try_catch.
  pose proof (run_cb_core cb data (set_invoked (invoked (env s) ++ [(event, cb)]) s) Hd) as Hc.
  destruct (run_cb _ _ _) as [s' [[]|e]]; cbn [fst] in *; rewrite ?log_core, Hc; done.
Qed.

(** [emit] never throws. *)
Lemma emit_returns event data s : (emit_c event data s).2 = Return tt.
Proof.
  unfold emit_c. destruct (_ !! _); [|done].
  apply forEach_from_returns. intros. apply guarded_returns.
Qed.

Lemma emit_core event data s :
  is_auth_reply data = false ->
  core (emit event data s) = core (set_emitted (emitted (env s) ++ [(event, data)]) s).
Proof.
  intros Hd. unfold emit, emit_c. destruct (_ !! _); [|done].
  unfold forEach. rewrite (forEach_from_preserves _ _ core); [done|].
  intros. by apply guarded_core.
Qed.

(** *** The reconnection counter *)

Local Abbreviation attempts s := (reconnectAttempts (ws s)).

Lemma emit_preserves {X : Type} (proj : State World -> X) event data s :
  (forall cb s', proj (run_cb cb data s').1 = proj s') ->
  (forall lv msg s', proj (log lv msg s') = proj s') ->
  (forall v s', proj (set_invoked v s') = proj s') ->
  (forall v s', proj (set_emitted v s') = proj s') ->
  proj (emit event data s) = proj s.
Proof.
  intros Hcb Hlog Hinv Hem. unfold emit, emit_c. destruct (_ !! _); [|apply Hem].
  unfold forEach. rewrite (forEach_from_preserves _ _ proj); [apply Hem|].
  intros cb s'. unfold guarded, try_catch.
  specialize (Hcb cb (set_invoked (invoked (env s') ++ [(event, cb)]) s')).
  destruct (run_cb _ _ _) as [s'' [[]|e]]; cbn [fst] in *; rewrite ?Hlog, Hcb; apply Hinv.
Qed.

Lemma off_attempts event cb s : attempts (off event cb s) = attempts s.
Proof. done. Qed.

Lemma settle_auth_attempts n p m s : attempts (settle_auth n p m s) = attempts s.
Proof. unfold settle_auth. repeat case_match; done. Qed.

Lemma settle_connect_attempts n p m s : attempts (settle_connect n p m s) = attempts s.
Proof. unfold settle_connect. repeat case_match; done. Qed.

Lemma foldl_apply_op_attempts ops s : attempts (foldl apply_op s ops) = attempts s.
Proof.
  revert s. induction ops as [|op ops IH]; intros s; simpl; [done|].
  rewrite IH. by destruct op.
Qed.

Lemma run_cb_attempts cb data s : attempts (run_cb cb data s).1 = attempts s.
Proof.
  destruct cb as [n|i]; cbn [run_cb fst].
  - unfold authListener, resolve_auth, reject_auth.
    repeat case_match; cbn [fst]; rewrite ?settle_auth_attempts; done.
  - by rewrite foldl_apply_op_attempts.
Qed.

Lemma emit_attempts event data s : attempts (emit event data s) = attempts s.
Proof. apply (emit_preserves (fun s => attempts s)); auto using run_cb_attempts. Qed.

Lemma send_attempts m s : attempts (send m s) = attempts s.
Proof.
  unfold send, send_c, try_catch, socket_send. repeat case_match; simplify_eq; done.
Qed.

Lemma stopHeartbeat_attempts s : attempts (stopHeartbeat s) = attempts s.
Proof. unfold stopHeartbeat. by case_match. Qed.

Lemma handleMessage_attempts f s : attempts (handleMessage f s) = attempts s.
Proof.
  unfold handleMessage. destruct f as [d|raw]; [|by rewrite emit_attempts].
  cbn zeta. repeat destruct (decide _); by rewrite emit_attempts.
Qed.

Lemma run_micro_attempts s m : attempts (run_micro s m) = attempts s.
Proof.
  destruct m; cbn [run_micro]; unfold resolve_connect, reject_connect;
    repeat case_match; rewrite ?settle_connect_attempts, ?emit_attempts; done.
Qed.

Lemma foldl_run_micro_attempts q s : attempts (foldl run_micro s q) = attempts s.
Proof.
  revert s. induction q as [|m q IH]; intros s; simpl; [done|].
  by rewrite IH, run_micro_attempts.
Qed.

Lemma drain_attempts s : attempts (drain s) = attempts s.
Proof.
  unfold drain, drain_pass. rewrite foldl_run_micro_attempts. cbn.
  by rewrite foldl_run_micro_attempts.
Qed.

Lemma authenticate_attempts n tok s : attempts (authenticate n tok s) = attempts s.
Proof.
  unfold authenticate, reject_auth.
  repeat case_match; cbn; rewrite ?settle_auth_attempts, ?send_attempts; done.
Qed.

Lemma disconnect_attempts s : attempts (disconnect s) = attempts s.
Proof.
  unfold disconnect. cbn. repeat case_match; cbn; by rewrite ?stopHeartbeat_attempts.
Qed.

(** What one task does to the counter: only the opening of a transport
    resets it, only a close that was not clean raises it. *)
Lemma task_attempts t s :
  match t with
  | SockOpen n =>
      match sockets (env s) !! n with
      | Some k =>
          if bool_decide (sk_ready k = CONNECTING) && negb (sk_closed k)
          then attempts (task t s) = 0%nat
          else attempts (task t s) = attempts s
      | None => attempts (task t s) = attempts s
      end
  | SockClose n wasClean _ _ =>
      match sockets (env s) !! n with
      | Some k =>
          if negb (sk_closed k) && negb wasClean
             && bool_decide (attempts s < maxReconnectAttempts)%nat
          then attempts (task t s) = S (attempts s)
          else attempts (task t s) = attempts s
      | None => attempts (task t s) = attempts s
      end
  | _ => attempts (task t s) = attempts s
  end.
Proof.
  destruct t; cbn [task].
  - done.
  - apply disconnect_attempts.
  - apply send_attempts.
  - unfold sendAudioChunk. case_match; cbn [fst]; [done|apply send_attempts].
  - done.
  - done.
  - destruct (sockets (env s) !! n) as [k|] eqn:Hk; [|done].
    destruct (_ && _); [|done].
    unfold onopen, set_sock. cbn [env sockets set_sockets on_env env_set_sockets].
    rewrite list_lookup_alter, Hk, decide_True by done. cbn [fmap option_fmap option_map].
    by rewrite authenticate_attempts.
  - repeat case_match; try done. apply handleMessage_attempts.
  - repeat case_match; try done. unfold onerror, reject_connect.
    by rewrite settle_connect_attempts, emit_attempts.
  - destruct (sockets (env s) !! n) as [k|] eqn:Hk; [|done].
    destruct (sk_closed k); cbn [negb andb]; [done|].
    unfold onclose, set_sock. cbn [env sockets set_sockets on_env env_set_sockets].
    rewrite list_lookup_alter, Hk, decide_True by done. cbn [fmap option_fmap option_map].
    rewrite emit_attempts, stopHeartbeat_attempts.
    cbn [ws set_isAuthenticated set_isConnected on_ws reconnectAttempts
         ws_set_isAuthenticated ws_set_isConnected log set_console on_env
         set_sockets].
    destruct wasClean; cbn [negb andb];
      [by rewrite emit_attempts, stopHeartbeat_attempts|].
    destruct (bool_decide _); [|by rewrite emit_attempts, stopHeartbeat_attempts].
    unfold attemptReconnect.
    cbn [ws set_timers log set_console on_env set_reconnectAttempts on_ws
         reconnectAttempts ws_set_reconnectAttempts].
    by rewrite emit_attempts, stopHeartbeat_attempts.
  - destruct (timers (env s) !! i) as [t|]; [|done].
    destruct (t_kind t); cbn; [|done].
    unfold authTimeout, reject_auth. cbn.
    case_match; [done|]. by rewrite settle_auth_attempts.
  - case_match; [|done]. unfold heartbeatTick. case_match; [apply send_attempts|done].
Qed.

(** *** The newest socket and timer *)

Lemma lookup_snoc {A} (l : list A) x : (l ++ [x]) !! length l = Some x.
Proof. by apply list_lookup_middle. Qed.

Lemma alter_snoc {A} (f : A -> A) (l : list A) x :
  alter f (length l) (l ++ [x]) = l ++ [f x].
Proof.
  pose proof (alter_app_r f l [x] 0) as Hr. rewrite Nat.add_0_r in Hr. exact Hr.
Qed.

Lemma insert_snoc {A} (l : list A) x y : <[length l := y]> (l ++ [x]) = l ++ [y].
Proof.
  pose proof (insert_app_r l [x] 0 y) as Hr. rewrite Nat.add_0_r in Hr. exact Hr.
Qed.

Lemma delete_snoc {A} (l : list A) x : delete (length l) (l ++ [x]) = l.
Proof. rewrite (delete_middle l [] x). apply app_nil_r. Qed.

Lemma alter_known {A} (f : A -> A) (l : list A) n x :
  l !! n = Some x -> alter f n l = <[n := f x]> l.
Proof.
  intros Hx. apply list_eq. intros j. rewrite list_lookup_alter, list_lookup_insert.
  pose proof (lookup_lt_Some _ _ _ Hx).
  destruct (decide (n = j)) as [->|].
  - rewrite Hx, decide_True by done. done.
  - rewrite decide_False; [done|by intros [? _]].
Qed.

Lemma lookup_insert_known {A} (l : list A) n x y :
  l !! n = Some x -> <[n := y]> l !! n = Some y.
Proof. intros Hx. apply list_lookup_insert_eq. by eapply lookup_lt_Some. Qed.

(** *** Quiescence *)

Lemma drain_idle s : microtasks (env s) = [] -> drain s = s.
Proof.
  destruct s as [w [sk tm iv nh mq co em inv wd]]. cbn. intros ->. done.
Qed.

(** *** Evaluating one task on a state given by its fields *)

Lemma emit_shape event data w (e : Env World) :
  is_auth_reply data = false ->
  exists el co inv wd,
    emit event data (MkState w e)
    = MkState (ws_set_eventListeners el w)
              (MkEnv (sockets e) (timers e) (intervals e) (nextHandle e) (microtasks e)
                     co (emitted e ++ [(event, data)]) inv wd).
Proof.
  intros Hd. pose proof (emit_core event data (MkState w e) Hd) as Hc.
  destruct (emit event data (MkState w e)) as [[so se us ic ia ra el hb] [sk tm iv nh mq co em inv wd]].
  destruct w, e. cbn in Hc. injection Hc as -> -> -> -> -> -> -> -> -> -> -> -> ->.
  by exists el, co, inv, wd.
Qed.

Ltac norm :=
  cbv beta iota zeta delta [log
     set_socket set_sessionId set_userId set_isConnected set_isAuthenticated
     set_reconnectAttempts set_eventListeners set_heartbeatInterval
     set_sockets set_timers set_intervals set_nextHandle set_microtasks set_console
     set_emitted set_invoked set_world on_ws on_env set_sock on off
     ws_set_socket ws_set_sessionId ws_set_userId ws_set_isConnected ws_set_isAuthenticated
     ws_set_reconnectAttempts ws_set_eventListeners ws_set_heartbeatInterval
     env_set_sockets env_set_timers env_set_intervals env_set_nextHandle env_set_microtasks
     env_set_console env_set_emitted env_set_invoked env_set_world
     ws env socket sessionId userId isConnected isAuthenticated reconnectAttempts
     eventListeners heartbeatInterval
     sockets timers intervals nextHandle microtasks console emitted invoked world
     sk_set_ready sk_set_closed sk_set_outbox sk_set_auth sk_set_promise
     sk_session sk_token sk_origin sk_ready sk_closed sk_outbox sk_auth sk_promise
     t_kind t_delay fst snd negb andb orb fmap option_fmap option_map].

Ltac queue := rewrite ?app_nil_l; cbn [foldl].

Ltac havoc :=
  match goal with
  | |- context [emit ?ev ?p (MkState ?w ?e)] =>
      let el := fresh "el" in let co := fresh "co" in
      let inv := fresh "inv" in let wd := fresh "wd" in
      let H := fresh in
      destruct (emit_shape ev p w e eq_refl) as (el & co & inv & wd & H);
      rewrite !H; clear H
  end.

Lemma step_connect s sid tok :
  microtasks (env s) = [] ->
  let s' := step s (CallConnect sid tok) in
  sockets (env s') = sockets (env s) ++ [MkSock sid tok FromCaller CONNECTING false [] None Pending] /\
  socket (ws s') = Some (length (sockets (env s))) /\
  sessionId (ws s') = sid /\
  isConnected (ws s') = isConnected (ws s) /\
  isAuthenticated (ws s') = isAuthenticated (ws s) /\
  attempts s' = attempts s /\
  timers (env s') = timers (env s) /\
  microtasks (env s') = [] /\
  emitted (env s') = emitted (env s).
Proof.
  destruct s as [[so se us ic ia ra el hb] [sk tm iv nh mq co em inv wd]].
  cbn. intros ->. unfold step, task, connect, drain, drain_pass. norm. queue. norm. queue. done.
Qed.

(** The transport of the current socket opens: the client is connected,
    the counter is reset, the handshake is sent and its timeout set. *)
Lemma step_open s n k :
  sockets (env s) !! n = Some k -> sk_ready k = CONNECTING -> sk_closed k = false ->
  socket (ws s) = Some n -> microtasks (env s) = [] ->
  let s' := step s (SockOpen n) in
  sockets (env s')
  = <[n := MkSock (sk_session k) (sk_token k) (sk_origin k) OPEN false
                  (sk_outbox k ++ [OAuth (sk_token k) (sessionId (ws s))])
                  (Some Pending) (sk_promise k)]> (sockets (env s)) /\
  socket (ws s') = Some n /\
  isConnected (ws s') = true /\
  isAuthenticated (ws s') = isAuthenticated (ws s) /\
  attempts s' = 0%nat /\
  timers (env s') = timers (env s) ++ [MkTimer (TAuth n) AUTH_TIMEOUT] /\
  microtasks (env s') = [] /\
  emitted (env s') = emitted (env s).
Proof.
  destruct s as [[so se us ic ia ra el hb] [sk tm iv nh mq co em inv wd]].
  destruct k as [ks kt ko kr kc kb ka kp].
  cbn. intros Hk -> -> -> ->. unfold step, task. norm. rewrite Hk. norm.
  rewrite bool_decide_eq_true_2 by done. norm.
  rewrite (alter_known _ _ _ _ Hk). norm.
  unfold onopen. norm. rewrite !(lookup_insert_known _ _ _ _ Hk). norm.
  unfold authenticate. norm. rewrite !(lookup_insert_known _ _ _ _ Hk). norm.
  rewrite !list_insert_insert_eq.
  unfold send, send_c, try_catch, socket_send. norm.
  rewrite !(lookup_insert_known _ _ _ _ Hk). norm.
  unfold drain, drain_pass. norm. queue. norm. queue.
  rewrite !list_insert_insert_eq. done.
Qed.


(** A reconnection timer expires: [connect] is called again. *)
Lemma step_reconnect_timer s i tok d :
  timers (env s) !! i = Some (MkTimer (TReconnect tok) d) ->
  microtasks (env s) = [] ->
  let s' := step s (TimerFire i) in
  sockets (env s')
  = sockets (env s)
    ++ [MkSock (sessionId (ws s)) tok FromReconnect CONNECTING false [] None Pending] /\
  attempts s' = attempts s /\
  timers (env s') = delete i (timers (env s)) /\
  microtasks (env s') = [] /\
  emitted (env s') = emitted (env s).
Proof.
  destruct s as [[so se us ic ia ra el hb] [sk tm iv nh mq co em inv wd]].
  cbn. intros Ht ->. unfold step, task. norm. rewrite Ht. norm.
  unfold connect, drain, drain_pass. norm. queue. norm. queue. done.
Qed.

(** The transport of a reconnection fails before it opens: the promise
    of [connect] is rejected, and the continuation in [attemptReconnect]
    reports the end of the attempts if the counter has reached the cap. *)
Lemma step_error_reconnect s n k :
  sockets (env s) !! n = Some k -> sk_closed k = false ->
  sk_promise k = Pending -> sk_origin k = FromReconnect ->
  microtasks (env s) = [] ->
  let s' := step s (SockError n) in
  sockets (env s')
  = <[n := MkSock (sk_session k) (sk_token k) FromReconnect CLOSED false
                  (sk_outbox k) (sk_auth k) (Rejected "WebSocket error")]> (sockets (env s)) /\
  attempts s' = attempts s /\
  timers (env s') = timers (env s) /\
  microtasks (env s') = [] /\
  emitted (env s')
  = emitted (env s) ++ [("error", PSocketError)]
    ++ (if bool_decide (maxReconnectAttempts <= attempts s)%nat
        then [("reconnectionFailed", PUndefined)] else []).
Proof.
  destruct s as [[so se us ic ia ra el hb] [sk tm iv nh mq co em inv wd]].
  destruct k as [ks kt ko kr kc kb ka kp].
  cbn. intros Hk -> -> -> ->. unfold step, task. norm. rewrite Hk. norm.
  rewrite (alter_known _ _ _ _ Hk). norm.
  unfold onerror. norm. havoc. norm.
  unfold reject_connect, settle_connect. norm.
  rewrite !(lookup_insert_known _ _ _ _ Hk). norm.
  rewrite !list_insert_insert_eq.
  unfold drain, drain_pass. norm. queue. unfold run_micro. norm.
  rewrite !(lookup_insert_known _ _ _ _ Hk). norm.
  destruct (bool_decide _).
  - havoc. norm. queue. rewrite <-app_assoc. done.
  - norm. queue. done.
Qed.

(** A socket closes, and not cleanly: the client is disconnected and,
    below the cap, schedules a reconnection. *)
Lemma step_close_unclean s n k code reason :
  sockets (env s) !! n = Some k -> sk_closed k = false ->
  microtasks (env s) = [] ->
  let s' := step s (SockClose n false code reason) in
  length (sockets (env s')) = length (sockets (env s)) /\
  isConnected (ws s') = false /\
  isAuthenticated (ws s') = false /\
  microtasks (env s') = [] /\
  emitted (env s') = emitted (env s) ++ [("disconnected", PDisconnected code reason)] /\
  if bool_decide (attempts s < maxReconnectAttempts)%nat
  then attempts s' = S (attempts s) /\
       timers (env s')
       = timers (env s)
         ++ [MkTimer (TReconnect (sk_token k))
                     (reconnectDelay * 2 ^ (Z.of_nat (S (attempts s)) - 1))]
  else attempts s' = attempts s /\ timers (env s') = timers (env s).
Proof.
  destruct s as [[so se us ic ia ra el hb] [sk tm iv nh mq co em inv wd]].
  destruct k as [ks kt ko kr kc kb ka kp].
  cbn. intros Hk -> ->. unfold step, task. norm. rewrite Hk. norm.
  rewrite (alter_known _ _ _ _ Hk). norm.
  unfold onclose. norm. rewrite !(lookup_insert_known _ _ _ _ Hk). norm.
  unfold stopHeartbeat. norm.
  destruct hb as [h|]; norm; havoc; norm;
    (destruct (bool_decide _);
     [unfold attemptReconnect; norm; unfold drain, drain_pass; norm; queue; norm; queue;
      rewrite length_insert; done
     |unfold drain, drain_pass; norm; queue; norm; queue; rewrite length_insert; done]).
Qed.

(** *** The handshake timeout, whenever it expires *)







(** The counter never exceeds the cap. *)
Lemma attempts_bounded_step s t :
  (attempts s <= maxReconnectAttempts)%nat -> (attempts (step s t) <= maxReconnectAttempts)%nat.
Proof.
  intros Hle. unfold step. rewrite drain_attempts.
  pose proof (task_attempts t s) as Ht.
  destruct t; try (rewrite Ht; done).
  - destruct (sockets (env s) !! n); [|by rewrite Ht].
    destruct (_ && _); rewrite Ht; [unfold maxReconnectAttempts, MAX_RECONNECT_ATTEMPTS; lia|done].
  - destruct (sockets (env s) !! n); [|by rewrite Ht].
    destruct (negb (sk_closed s0)), (negb wasClean); cbn [andb] in Ht; try (rewrite Ht; done).
    case_bool_decide; rewrite Ht; lia.
Qed.

Lemma attempts_bounded_run ts : forall s,
  (attempts s <= maxReconnectAttempts)%nat -> (attempts (run ts s) <= maxReconnectAttempts)%nat.
Proof.
  induction ts as [|t ts IH]; intros s Hle; [done|].
  apply IH, attempts_bounded_step, Hle.
Qed.

(** *** Reconnection *)

Lemma times_emitted_app event s s' l :
  emitted (env s') = emitted (env s) ++ l ->
  times_emitted event s'
  = (times_emitted event s + length (List.filter (fun e => bool_decide (e.1 = event)) l))%nat.
Proof. intros He. unfold times_emitted. by rewrite He, List.filter_app, length_app. Qed.

(** One reconnection that fails before the transport opens. *)
Lemma failed_round s T tok d code reason :
  timers (env s) = T ++ [MkTimer (TReconnect tok) d] ->
  microtasks (env s) = [] ->
  let ns := length (sockets (env s)) in
  let s' := run [TimerFire (length T); SockError ns; SockClose ns false code reason] s in
  length (sockets (env s')) = S ns /\
  microtasks (env s') = [] /\
  if bool_decide (attempts s < maxReconnectAttempts)%nat
  then attempts s' = S (attempts s) /\
       timers (env s')
       = T ++ [MkTimer (TReconnect tok)
                       (reconnectDelay * 2 ^ (Z.of_nat (S (attempts s)) - 1))] /\
       times_emitted "reconnectionFailed" s' = times_emitted "reconnectionFailed" s
  else attempts s' = attempts s /\
       timers (env s') = T /\
       times_emitted "reconnectionFailed" s' = S (times_emitted "reconnectionFailed" s).
Proof.
  intros Htm Hq ns s'. subst s'. unfold run. cbn [foldl].
  assert (Ht : timers (env s) !! length T = Some (MkTimer (TReconnect tok) d))
    by (rewrite Htm; apply lookup_snoc).
  destruct (step_reconnect_timer s _ _ _ Ht Hq) as (Hsk1 & Hat1 & Htm1 & Hq1 & Hem1).
  set (s1 := step s (TimerFire (length T))) in *.
  assert (Hk1 : sockets (env s1) !! ns
                = Some (MkSock (sessionId (ws s)) tok FromReconnect CONNECTING false [] None Pending))
    by (rewrite Hsk1; apply lookup_snoc).
  destruct (step_error_reconnect s1 ns _ Hk1 eq_refl eq_refl eq_refl Hq1)
    as (Hsk2 & Hat2 & Htm2 & Hq2 & Hem2).
  set (s2 := step s1 (SockError ns)) in *.
  cbn [sk_session sk_token sk_outbox sk_auth] in Hsk2.
  assert (Hk2 : sockets (env s2) !! ns
                = Some (MkSock (sessionId (ws s)) tok FromReconnect CLOSED false [] None
                               (Rejected "WebSocket error")))
    by (rewrite Hsk2; eapply lookup_insert_known, Hk1).
  destruct (step_close_unclean s2 ns _ code reason Hk2 eq_refl Hq2)
    as (Hlen3 & _ & _ & Hq3 & Hem3 & Hrest).
  set (s3 := step s2 (SockClose ns false code reason)) in *.
  cbn [sk_token] in Hrest.
  split. { rewrite Hlen3, Hsk2, length_insert, Hsk1, length_app. cbn. lia. }
  split; [done|].
  assert (Htm' : timers (env s2) = T) by (rewrite Htm2, Htm1, Htm; apply delete_snoc).
  rewrite Hat2, Hat1, Htm' in Hrest. rewrite Hat1 in Hem2.
  assert (Hem : emitted (env s3)
                = emitted (env s)
                  ++ ([("error", PSocketError)]
                      ++ (if bool_decide (maxReconnectAttempts <= attempts s)%nat
                          then [("reconnectionFailed", PUndefined)] else [])
                      ++ [("disconnected", PDisconnected code reason)])).
  { rewrite Hem3, Hem2, Hem1. by rewrite <-!app_assoc. }
  rewrite (times_emitted_app "reconnectionFailed" s s3 _ Hem).
  destruct (decide (attempts s < maxReconnectAttempts)%nat) as [Hlt|Hge].
  - rewrite bool_decide_eq_true_2 in Hrest |- * by done.
    destruct Hrest as [-> ->]. split; [done|]. split; [done|].
    rewrite (bool_decide_eq_false_2 (maxReconnectAttempts <= attempts s)%nat) by lia.
    cbn. repeat case_bool_decide; simplify_eq; cbn; lia.
  - rewrite bool_decide_eq_false_2 in Hrest |- * by done.
    destruct Hrest as [-> ->]. split; [done|]. split; [done|].
    rewrite (bool_decide_eq_true_2 (maxReconnectAttempts <= attempts s)%nat) by lia.
    cbn. repeat case_bool_decide; simplify_eq; cbn; lia.
Qed.

Lemma run_app ts1 ts2 s : run (ts1 ++ ts2) s = run ts2 (run ts1 s).
Proof. apply foldl_app. Qed.

(** Consecutive reconnections that fail before the transport opens. *)
Lemma failed_rounds details : forall s T tok a,
  timers (env s) = T ++ [MkTimer (TReconnect tok) (reconnectDelay * 2 ^ (Z.of_nat a - 1))] ->
  microtasks (env s) = [] ->
  attempts s = a -> (a <= maxReconnectAttempts)%nat ->
  (a + length details <= S maxReconnectAttempts)%nat ->
  let s' := run (failed_reconnects (length T) (length (sockets (env s))) details) s in
  attempts s' = Nat.min (a + length details) maxReconnectAttempts /\
  timers (env s')
  = T ++ (if bool_decide (a + length details <= maxReconnectAttempts)%nat
          then [MkTimer (TReconnect tok)
                        (reconnectDelay * 2 ^ (Z.of_nat (a + length details) - 1))]
          else []) /\
  times_emitted "reconnectionFailed" s'
  = (times_emitted "reconnectionFailed" s
     + (if bool_decide (a + length details <= maxReconnectAttempts)%nat then 0 else 1))%nat.
Proof.
  induction details as [|[code reason] details IH]; intros s T tok a Htm Hq Ha Hle Hlen s'.
  - subst s'. cbn [failed_reconnects run foldl length]. rewrite Nat.add_0_r.
    rewrite bool_decide_eq_true_2 by done. split; [lia|]. split; [done|lia].
  - subst s'. cbn [failed_reconnects length] in *.
    change (run (?t1 :: ?t2 :: ?t3 :: ?rest) s) with (run rest (run [t1; t2; t3] s)).
    destruct (failed_round s T tok _ code reason Htm Hq) as (Hlen1 & Hq1 & Hrest).
    set (s1 := run _ s) in *. rewrite <-Hlen1.
    case_bool_decide as Hlt.
    + destruct Hrest as (Hat1 & Htm1 & Hem1). rewrite Ha in Hat1, Htm1.
      destruct (IH s1 T tok (S a) Htm1 Hq1 Hat1 ltac:(lia) ltac:(lia)) as (I1 & I2 & I3).
      replace (a + S (length details))%nat with (S a + length details)%nat by lia.
      rewrite I1, I2, I3, Hem1. done.
    + destruct Hrest as (Hat1 & Htm1 & Hem1).
      assert (details = []) as -> by (destruct details; [done|cbn in Hlen; lia]).
      cbn [failed_reconnects run foldl length].
      rewrite bool_decide_eq_false_2 by lia.
      rewrite Hat1, Htm1, Hem1, app_nil_r. split; [lia|]. split; [done|lia].
Qed.

(** C4 (amended).  After a close that was not clean, at count 0, the
    first reconnection is scheduled after the base delay; while the
    reconnections fail before their transport opens, the reconnection
    after [j] failures is scheduled after [reconnectDelay * 2^j]; after
    the fifth failure [reconnectionFailed] is emitted once and no timer is
    left.  In every reachable state the counter is at most 5. *)
Theorem reconnection_backoff_until_cap s n k code reason details :
  sockets (env s) !! n = Some k -> sk_closed k = false ->
  attempts s = 0%nat -> microtasks (env s) = [] ->
  (length details <= maxReconnectAttempts)%nat ->
  let j := length details in
  let s' :=
    run (SockClose n false code reason
           :: failed_reconnects (length (timers (env s))) (length (sockets (env s))) details) s in
  attempts s' = Nat.min (S j) maxReconnectAttempts /\
  timers (env s')
  = timers (env s)
    ++ (if bool_decide (j < maxReconnectAttempts)%nat
        then [MkTimer (TReconnect (sk_token k)) (reconnectDelay * 2 ^ Z.of_nat j)]
        else []) /\
  times_emitted "reconnectionFailed" s'
  = (times_emitted "reconnectionFailed" s
     + (if bool_decide (j < maxReconnectAttempts)%nat then 0 else 1))%nat /\
  (forall ts w, (attempts (run ts (initial w)) <= maxReconnectAttempts)%nat).
Proof.
  intros Hk Hc Ha Hq Hlen j s'. split; [|split; [|split]].
  4:{ intros ts w. apply attempts_bounded_run. cbn. lia. }
  all: subst s';
    change (run (?t :: ?rest) s) with (run rest (step s t));
    destruct (step_close_unclean s n k code reason Hk Hc Hq)
      as (Hlen1 & _ & _ & Hq1 & Hem1 & Hrest);
    set (s1 := step s _) in *;
    rewrite Ha in Hrest; rewrite bool_decide_eq_true_2 in Hrest
      by (unfold maxReconnectAttempts, MAX_RECONNECT_ATTEMPTS; lia);
    destruct Hrest as [Hat1 Htm1]; rewrite <-Hlen1;
    destruct (failed_rounds details s1 (timers (env s)) (sk_token k) 1 Htm1 Hq1 Hat1
                ltac:(unfold maxReconnectAttempts, MAX_RECONNECT_ATTEMPTS; lia) ltac:(lia))
      as (I1 & I2 & I3).
  - rewrite I1. done.
  - rewrite I2. fold j.
    destruct (decide (j < maxReconnectAttempts)%nat).
    + rewrite !bool_decide_eq_true_2 by lia. do 5 f_equal. lia.
    + rewrite !bool_decide_eq_false_2 by lia. done.
  - rewrite I3, (times_emitted_app "reconnectionFailed" s s1 _ Hem1). fold j. cbn.
    rewrite (bool_decide_eq_false_2 ("disconnected" = "reconnectionFailed")) by done. cbn.
    destruct (decide (j < maxReconnectAttempts)%nat).
    + rewrite !bool_decide_eq_true_2 by lia. lia.
    + rewrite !bool_decide_eq_false_2 by lia. lia.
Qed.

(** C9 (amended).  The counter is reset when a transport opens, before
    the handshake; a message, the handshake reply included, leaves it as
    it is; and nothing but the opening of a transport lowers it: the only
    other change is the increment at a close that was not clean. *)
Theorem reconnectAttempts_reset_on_open s t :
  (forall n k, t = SockOpen n -> sockets (env s) !! n = Some k ->
     sk_ready k = CONNECTING -> sk_closed k = false ->
     attempts (step s t) = 0%nat) /\
  (forall n f, t = SockMessage n f -> attempts (step s t) = attempts s) /\
  (attempts (step s t) <> attempts s ->
   (exists n, t = SockOpen n /\ attempts (step s t) = 0%nat) \/
   (exists n code reason, t = SockClose n false code reason /\
      attempts (step s t) = S (attempts s))).
Proof.
  unfold step. rewrite drain_attempts. pose proof (task_attempts t s) as Ht.
  split; [|split].
  - intros n k -> Hk Hr Hc. rewrite Hk, Hr, Hc in Ht. exact Ht.
  - intros n f ->. exact Ht.
  - intros Hne. destruct t; try (by rewrite Ht in Hne).
    + left. exists n. split; [done|].
      destruct (sockets (env s) !! n); [|by rewrite Ht in Hne].
      destruct (_ && _); [done|by rewrite Ht in Hne].
    + right. exists n, code, reason.
      destruct (sockets (env s) !! n) as [k|]; [|by rewrite Ht in Hne].
      destruct (negb (sk_closed k)), wasClean; cbn [negb andb] in Ht;
        try (by rewrite Ht in Hne).
      destruct (bool_decide _); [done|by rewrite Ht in Hne].
Qed.

(** *** Sending *)

Lemma send_open m s k sk :
  isConnected (ws s) = true -> socket (ws s) = Some k ->
  sockets (env s) !! k = Some sk -> sk_ready sk = OPEN ->
  send_c m s
  = (log LLog "WebSocket message sent"
       (set_sockets (<[k := sk_set_outbox (sk_outbox sk ++ [m]) sk]> (sockets (env s))) s),
     Return true).
Proof.
  intros Hc Hs Hk Hr. unfold send_c, try_catch, socket_send. by rewrite Hc, Hs, Hk, Hr.
Qed.

(** C5 (amended).  [send] never throws and never touches the client's
    own fields.  Its gate is the connection, not the authentication: not
    connected, or without a socket, it transmits nothing and returns
    [false]; connected, with the current socket open, it transmits and
    returns [true], authenticated or not. *)
Theorem send_gate_is_connected m s :
  (exists b, (send_c m s).2 = Return b) /\
  ws (send m s) = ws s /\
  (isConnected (ws s) = false \/ socket (ws s) = None ->
   (send_c m s).2 = Return false /\ sockets (env (send m s)) = sockets (env s)) /\
  (sockets (env (send m s)) <> sockets (env s) -> isConnected (ws s) = true) /\
  (forall k sk,
     isConnected (ws s) = true -> socket (ws s) = Some k ->
     sockets (env s) !! k = Some sk -> sk_ready sk = OPEN ->
     (send_c m s).2 = Return true /\
     sockets (env (send m s))
     = <[k := sk_set_outbox (sk_outbox sk ++ [m]) sk]> (sockets (env s))).
Proof.
  split; [|split; [|split; [|split]]].
  - unfold send_c, try_catch, socket_send. repeat case_match; simplify_eq; eauto.
  - unfold send, send_c, try_catch, socket_send. repeat case_match; simplify_eq; done.
  - unfold send, send_c. intros [Hc|Hs].
    + rewrite Hc. done.
    + rewrite Hs. by destruct (isConnected (ws s)).
  - unfold send, send_c. destruct (isConnected (ws s)); [done|]. intros Hne. by destruct Hne.
  - intros k sk Hc Hs Hk Hr. unfold send. by rewrite (send_open m s k sk Hc Hs Hk Hr).
Qed.

(** *** Audio chunks *)


(** *** Emitting *)

Lemma off_invoked event cb s : invoked (env (off event cb s)) = invoked (env s).
Proof. done. Qed.

Lemma settle_auth_invoked n p m s : invoked (env (settle_auth n p m s)) = invoked (env s).
Proof. unfold settle_auth. repeat case_match; done. Qed.

Lemma foldl_apply_op_invoked ops s : invoked (env (foldl apply_op s ops)) = invoked (env s).
Proof.
  revert s. induction ops as [|op ops IH]; intros s; simpl; [done|].
  rewrite IH. by destruct op.
Qed.

Lemma run_cb_invoked cb data s : invoked (env (run_cb cb data s).1) = invoked (env s).
Proof.
  destruct cb as [n|i]; cbn [run_cb fst].
  - unfold authListener, resolve_auth, reject_auth.
    repeat case_match; cbn [fst]; rewrite ?settle_auth_invoked; done.
  - by rewrite foldl_apply_op_invoked.
Qed.

Lemma guarded_invoked event data cb s :
  invoked (env (guarded event data cb s).1) = invoked (env s) ++ [(event, cb)].
Proof.
  unfold guarded, try_catch.
  pose proof (run_cb_invoked cb data (set_invoked (invoked (env s) ++ [(event, cb)]) s)) as Hi.
  destruct (run_cb _ _ _) as [s' [[]|e]]; cbn in Hi |- *; exact Hi.
Qed.

Lemma guarded_listeners event data cb s :
  listeners event (guarded event data cb s).1
  = listeners event (run_cb cb data (set_invoked (invoked (env s) ++ [(event, cb)]) s)).1.
Proof. unfold guarded, try_catch. by destruct (run_cb _ _ _) as [s' [[]|e]]. Qed.

Lemma foldl_guarded_invoked event data l : forall s,
  invoked (env (foldl (fun s' cb => (guarded event data cb s').1) s l))
  = invoked (env s) ++ map (pair event) l.
Proof.
  induction l as [|cb l IH]; intros s; cbn [foldl map]; [by rewrite app_nil_r|].
  rewrite IH, guarded_invoked, <-app_assoc. done.
Qed.

(** [emit] never throws; and when no listener of the event changes the
    event's array while it runs, every listener in the array is invoked,
    in order, whether or not earlier ones threw. *)
Lemma emit_invokes_stable_listeners event data s :
  (emit_c event data s).2 = Return tt /\
  ((forall cb s', cb ∈ listeners event s -> listeners event s' = listeners event s ->
      listeners event (run_cb cb data s').1 = listeners event s) ->
   invoked (env (emit event data s)) = invoked (env s) ++ map (pair event) (listeners event s)).
Proof.
  split; [apply emit_returns|]. intros Hst. unfold emit, emit_c.
  destruct (eventListeners (ws (set_emitted _ s)) !! event) as [l|] eqn:Hl.
  - rewrite forEach_fold.
    + cbn [fst]. rewrite foldl_guarded_invoked. done.
    + intros cb s' Hin Hs'. split; [|apply guarded_returns].
      rewrite guarded_listeners. apply Hst; done.
  - cbn [fst]. unfold listeners, listeners_in. cbn in Hl |- *. rewrite Hl. cbn.
    by rewrite app_nil_r.
Qed.

(** *** Promise reactions do not outlive their task *)

Lemma emit_microtasks event data s :
  is_auth_reply data = false ->
  microtasks (env (emit event data s)) = microtasks (env s).
Proof.
  intros Hd. exact (f_equal (fun c => microtasks (env c)) (emit_core event data s Hd)).
Qed.

Lemma settle_connect_queue n p m s :
  is_connect_reaction m = true ->
  exists l, microtasks (env (settle_connect n p m s)) = microtasks (env s) ++ l /\
            forallb is_connect_reaction l = true.
Proof.
  intros Hm. unfold settle_connect.
  destruct (sockets (env s) !! n) as [k|]; [|by exists []; rewrite app_nil_r].
  destruct (sk_promise k); try by (exists []; rewrite app_nil_r).
  exists [m]. cbn. by rewrite Hm.
Qed.

Lemma run_micro_queue s m :
  exists l, microtasks (env (run_micro s m)) = microtasks (env s) ++ l /\
            forallb is_connect_reaction l = true /\
            (is_connect_reaction m = true -> l = []).
Proof.
  destruct m as [n|n e|n|n e]; cbn [run_micro is_connect_reaction].
  - destruct (settle_connect_queue n Fulfilled (ConnectThen n)
                (emit "connected"
                   (PConnected
                      match sockets (env (startHeartbeat s)) !! n with
                      | Some k => sk_session k
                      | None => None
                      end (userId (ws (startHeartbeat s)))) (startHeartbeat s)) eq_refl)
      as (l & Hl & Hc).
    exists l. split; [|by split].
    unfold resolve_connect. rewrite Hl, emit_microtasks by done. done.
  - destruct (settle_connect_queue n (Rejected e) (ConnectCatch n e)
                (log LError "Authentication failed" s) eq_refl) as (l & Hl & Hc).
    exists l. split; [|by split]. unfold reject_connect. by rewrite Hl.
  - exists []. rewrite app_nil_r. split; [|done].
    destruct (sk_origin <$> _) as [[]|]; try done. by rewrite emit_microtasks.
  - exists []. rewrite app_nil_r. split; [|done].
    destruct (sk_origin <$> _) as [[]|]; try done.
    destruct (bool_decide _); [|done]. by rewrite emit_microtasks.
Qed.

Lemma foldl_run_micro_queue q : forall s,
  exists l, microtasks (env (foldl run_micro s q)) = microtasks (env s) ++ l /\
            forallb is_connect_reaction l = true /\
            (forallb is_connect_reaction q = true -> l = []).
Proof.
  induction q as [|m q IH]; intros s; cbn [foldl forallb].
  - exists []. by rewrite app_nil_r.
  - destruct (run_micro_queue s m) as (l1 & Hl1 & Hc1 & Hn1).
    destruct (IH (run_micro s m)) as (l2 & Hl2 & Hc2 & Hn2).
    exists (l1 ++ l2). rewrite Hl2, Hl1, <-app_assoc. split; [done|]. split.
    + rewrite forallb_app. by rewrite Hc1, Hc2.
    + intros [Hm Hq]%andb_true_iff. by rewrite Hn1, Hn2.
Qed.

Lemma drain_quiescent s : microtasks (env (drain s)) = [].
Proof.
  unfold drain.
  destruct (foldl_run_micro_queue (microtasks (env s)) (set_microtasks [] s)) as (l1 & Hl1 & Hc1 & _).
  change (foldl run_micro (set_microtasks [] s) (microtasks (env s))) with (drain_pass s) in Hl1.
  cbn in Hl1.
  destruct (foldl_run_micro_queue (microtasks (env (drain_pass s))) (set_microtasks [] (drain_pass s)))
    as (l2 & Hl2 & _ & Hn2).
  change (foldl run_micro (set_microtasks [] (drain_pass s)) (microtasks (env (drain_pass s))))
    with (drain_pass (drain_pass s)) in Hl2.
  rewrite Hl2. cbn. apply Hn2. by rewrite Hl1.
Qed.

(** *** Subscribing and unsubscribing *)

Lemma listeners_off event event' cb s :
  listeners event' (off event cb s)
  = if decide (event' = event) then remove_first cb (listeners event s) else listeners event' s.
Proof.
  destruct s as [[so se us ic ia ra el hb] e].
  unfold listeners, off, remove_listener, listeners_in. norm.
  destruct (el !! event) as [l|] eqn:Hl; norm.
  - destruct (decide (event' = event)) as [->|Hne].
    + by rewrite lookup_insert_eq.
    + by rewrite lookup_insert_ne.
  - destruct (decide (event' = event)) as [->|Hne]; [|done]. by rewrite Hl.
Qed.

Lemma listeners_on event event' cb s :
  listeners event' (on event cb s)
  = if decide (event' = event) then listeners event s ++ [cb] else listeners event' s.
Proof.
  destruct s as [[so se us ic ia ra el hb] e].
  unfold listeners, on, add_listener, listeners_in. norm.
  destruct (decide (event' = event)) as [->|Hne].
  - by rewrite lookup_insert_eq.
  - by rewrite lookup_insert_ne.
Qed.

(** [off] removes the first registration of the callback for the event,
    and only that one: later registrations of the same callback, the other
    callbacks and the other events keep their listeners and their order. *)
Theorem off_removes_first_registration event cb s l1 l2 :
  listeners event s = l1 ++ cb :: l2 -> cb ∉ l1 ->
  listeners event (off event cb s) = l1 ++ l2 /\
  forall event', event' <> event -> listeners event' (off event cb s) = listeners event' s.
Proof.
  intros Hl Hcb. split.
  - rewrite listeners_off, decide_True by done. rewrite Hl. by apply remove_first_middle.
  - intros event' Hne. by rewrite listeners_off, decide_False.
Qed.

(** Unsubscribing a callback right after subscribing it gives back the
    listeners there were, for every event, provided it was not already
    registered for that event. *)
Theorem off_undoes_on event cb s :
  cb ∉ listeners event s ->
  forall event', listeners event' (off event cb (on event cb s)) = listeners event' s.
Proof.
  intros Hcb event'. rewrite listeners_off, !listeners_on.
  destruct (decide (event' = event)) as [->|Hne]; [|done].
  rewrite decide_True by done.
  rewrite (remove_first_middle (listeners event s) [] cb Hcb). apply app_nil_r.
Qed.

(** Unsubscribing a callback that is not registered for the event, or
    from an event nobody subscribed to, changes nothing at all. *)
Theorem off_unregistered_is_noop event cb s :
  cb ∉ listeners event s -> off event cb s = s.
Proof.
  intros Hcb. destruct s as [[so se us ic ia ra el hb] e].
  unfold off, remove_listener, listeners, listeners_in in *. norm. cbn [ws eventListeners] in Hcb.
  destruct (el !! event) as [l|] eqn:Hl; [|done]. cbn [default] in Hcb.
  rewrite remove_first_absent by done. by rewrite insert_id.
Qed.

(** *** The handshake *)

(** An event whose only listener is the handshake's. *)
Lemma emit_to_authListener n event data s :
  eventListeners (ws s) !! event = Some [AuthListener n] ->
  emit event data s
  = (guarded event data (AuthListener n)
       (set_emitted (emitted (env s) ++ [(event, data)]) s)).1.
Proof.
  intros Hel. unfold emit, emit_c.
  change (eventListeners (ws (set_emitted (emitted (env s) ++ [(event, data)]) s)))
    with (eventListeners (ws s)).
  rewrite Hel. unfold forEach, listeners, listeners_in.
  change (eventListeners (ws (set_emitted (emitted (env s) ++ [(event, data)]) s)))
    with (eventListeners (ws s)).
  rewrite Hel. change (default [] (Some [AuthListener n])) with [AuthListener n].
  cbn [length forEach_from].
  change (eventListeners (ws (set_emitted (emitted (env s) ++ [(event, data)]) s)))
    with (eventListeners (ws s)).
  rewrite Hel. change (default [] (Some [AuthListener n])) with [AuthListener n].
  change ([AuthListener n] !! 0%nat) with (Some (AuthListener n)).
  cbv beta iota. destruct (guarded _ _ _ _) as [s' [[]|e]]; reflexivity.
Qed.

(** The server accepts the handshake. *)
Lemma step_authenticated s n k d :
  sockets (env s) !! n = Some k -> sk_ready k = OPEN -> sk_closed k = false ->
  sk_auth k = Some Pending -> sk_promise k = Pending ->
  eventListeners (ws s) !! "message" = Some [AuthListener n] ->
  microtasks (env s) = [] ->
  in_type d = "authenticated" ->
  let s' := step s (SockMessage n (FJson d)) in
  sockets (env s')
  = <[n := MkSock (sk_session k) (sk_token k) (sk_origin k) OPEN false (sk_outbox k)
                  (Some Fulfilled) Fulfilled]> (sockets (env s)) /\
  socket (ws s') = socket (ws s) /\
  sessionId (ws s') = sessionId (ws s) /\
  isConnected (ws s') = isConnected (ws s) /\
  isAuthenticated (ws s') = true /\
  userId (ws s') = Some (in_user_id d) /\
  attempts s' = attempts s /\
  heartbeatInterval (ws s') = Some (nextHandle (env s)) /\
  intervals (env s') = intervals (env s) ++ [nextHandle (env s)] /\
  timers (env s') = timers (env s) /\
  microtasks (env s') = [] /\
  emitted (env s')
  = emitted (env s)
    ++ [("message", PData d); ("connected", PConnected (sk_session k) (Some (in_user_id d)))]
    ++ match sk_origin k with
       | FromReconnect => [("reconnected", PUndefined)]
       | FromCaller => []
       end.
Proof.
  destruct s as [[so se us ic ia ra el hb] [sk tm iv nh mq co em inv wd]].
  destruct k as [ks kt ko kr kc kb ka kp]. destruct d as [ty u m].
  cbn. intros Hk -> -> -> -> Hel -> ->. unfold step, task. norm. rewrite Hk. norm.
  rewrite bool_decide_eq_true_2 by done. norm.
  unfold onmessage, handleMessage. cbn [in_type].
  repeat (destruct (decide _) as [?|_]; [discriminate|]).
  norm. rewrite (emit_to_authListener n) by exact Hel.
  unfold guarded, try_catch, run_cb, authListener. cbn [in_type in_user_id].
  rewrite decide_True by done. norm.
  unfold remove_listener. rewrite Hel, remove_first_single.
  unfold resolve_auth, settle_auth. norm. rewrite Hk. norm.
  unfold drain, drain_pass. norm. queue.
  unfold run_micro, startHeartbeat. norm.
  rewrite !(lookup_insert_known _ _ _ _ Hk). norm. havoc. norm.
  unfold resolve_connect, settle_connect. norm.
  rewrite !(lookup_insert_known _ _ _ _ Hk). norm. queue. norm.
  rewrite ?list_insert_insert_eq.
  rewrite !(lookup_insert_known _ _ _ _ Hk). norm.
  destruct ko; norm.
  - rewrite <-?app_assoc. done.
  - havoc. norm. rewrite <-?app_assoc. done.
Qed.

(** The server refuses the handshake. *)
Lemma step_auth_error s n k d :
  sockets (env s) !! n = Some k -> sk_ready k = OPEN -> sk_closed k = false ->
  sk_auth k = Some Pending -> sk_promise k = Pending -> sk_origin k = FromCaller ->
  eventListeners (ws s) !! "message" = Some [AuthListener n] ->
  microtasks (env s) = [] ->
  in_type d = "auth_error" ->
  let s' := step s (SockMessage n (FJson d)) in
  sockets (env s')
  = <[n := MkSock (sk_session k) (sk_token k) FromCaller OPEN false (sk_outbox k)
                  (Some (Rejected (in_message d))) (Rejected (in_message d))]> (sockets (env s)) /\
  ws s' = ws_set_eventListeners (<["message" := []]> (eventListeners (ws s))) (ws s) /\
  intervals (env s') = intervals (env s) /\
  timers (env s') = timers (env s) /\
  microtasks (env s') = [] /\
  emitted (env s') = emitted (env s) ++ [("message", PData d)].
Proof.
  destruct s as [[so se us ic ia ra el hb] [sk tm iv nh mq co em inv wd]].
  destruct k as [ks kt ko kr kc kb ka kp]. destruct d as [ty u m].
  cbn. intros Hk -> -> -> -> -> Hel -> ->. unfold step, task. norm. rewrite Hk. norm.
  rewrite bool_decide_eq_true_2 by done. norm.
  unfold onmessage, handleMessage. cbn [in_type].
  repeat (destruct (decide _) as [?|_]; [discriminate|]).
  norm. rewrite (emit_to_authListener n) by exact Hel.
  unfold guarded, try_catch, run_cb, authListener. cbn [in_type in_message].
  rewrite decide_False by done. rewrite decide_True by done. norm.
  unfold remove_listener. rewrite Hel, remove_first_single.
  unfold reject_auth, settle_auth. norm. rewrite Hk. norm.
  unfold drain, drain_pass. norm. queue.
  unfold run_micro. norm.
  unfold reject_connect, settle_connect. norm.
  rewrite !(lookup_insert_known _ _ _ _ Hk). norm. queue. norm.
  rewrite ?list_insert_insert_eq.
  rewrite !(lookup_insert_known _ _ _ _ Hk). norm. done.
Qed.

Lemma step_connect_rest s sid tok :
  microtasks (env s) = [] ->
  let s' := step s (CallConnect sid tok) in
  eventListeners (ws s') = eventListeners (ws s) /\
  userId (ws s') = userId (ws s) /\
  heartbeatInterval (ws s') = heartbeatInterval (ws s) /\
  intervals (env s') = intervals (env s) /\
  nextHandle (env s') = nextHandle (env s).
Proof.
  destruct s as [[so se us ic ia ra el hb] [sk tm iv nh mq co em inv wd]].
  cbn. intros ->. unfold step, task, connect, drain, drain_pass. norm. queue. norm. queue. done.
Qed.

Lemma step_open_rest s n k :
  sockets (env s) !! n = Some k -> sk_ready k = CONNECTING -> sk_closed k = false ->
  socket (ws s) = Some n -> microtasks (env s) = [] ->
  let s' := step s (SockOpen n) in
  eventListeners (ws s') = add_listener "message" (AuthListener n) (eventListeners (ws s)) /\
  sessionId (ws s') = sessionId (ws s) /\
  userId (ws s') = userId (ws s) /\
  heartbeatInterval (ws s') = heartbeatInterval (ws s) /\
  intervals (env s') = intervals (env s) /\
  nextHandle (env s') = nextHandle (env s).
Proof.
  destruct s as [[so se us ic ia ra el hb] [sk tm iv nh mq co em inv wd]].
  destruct k as [ks kt ko kr kc kb ka kp].
  cbn. intros Hk -> -> -> ->. unfold step, task. norm. rewrite Hk. norm.
  rewrite bool_decide_eq_true_2 by done. norm.
  rewrite (alter_known _ _ _ _ Hk). norm.
  unfold onopen. norm. rewrite !(lookup_insert_known _ _ _ _ Hk). norm.
  unfold authenticate. norm. rewrite !(lookup_insert_known _ _ _ _ Hk). norm.
  rewrite !list_insert_insert_eq.
  unfold send, send_c, try_catch, socket_send. norm.
  rewrite !(lookup_insert_known _ _ _ _ Hk). norm.
  unfold drain, drain_pass. norm. queue. norm. queue. done.
Qed.

(** The state in which the handshake reply is awaited, reached from a
    state with no listener for "message". *)
Lemma handshake_pending s sid tok :
  microtasks (env s) = [] -> listeners "message" s = [] ->
  let n := length (sockets (env s)) in
  let s2 := run [CallConnect sid tok; SockOpen n] s in
  sockets (env s2)
  = sockets (env s) ++ [MkSock sid tok FromCaller OPEN false [OAuth tok sid] (Some Pending) Pending] /\
  eventListeners (ws s2) !! "message" = Some [AuthListener n] /\
  socket (ws s2) = Some n /\ sessionId (ws s2) = sid /\ userId (ws s2) = userId (ws s) /\
  isConnected (ws s2) = true /\ isAuthenticated (ws s2) = isAuthenticated (ws s) /\
  attempts s2 = 0%nat /\
  heartbeatInterval (ws s2) = heartbeatInterval (ws s) /\
  intervals (env s2) = intervals (env s) /\ nextHandle (env s2) = nextHandle (env s) /\
  timers (env s2) = timers (env s) ++ [MkTimer (TAuth n) AUTH_TIMEOUT] /\
  microtasks (env s2) = [] /\
  emitted (env s2) = emitted (env s).
Proof.
  intros Hq Hl n s2. subst s2. unfold run. cbn [foldl].
  destruct (step_connect s sid tok Hq) as (Hsk1 & Hso1 & Hse1 & Hic1 & Hia1 & Hat1 & Htm1 & Hq1 & Hem1).
  destruct (step_connect_rest s sid tok Hq) as (Hel1 & Hus1 & Hhb1 & Hiv1 & Hnh1).
  set (s1 := step s (CallConnect sid tok)) in *.
  assert (Hk1 : sockets (env s1) !! n
                = Some (MkSock sid tok FromCaller CONNECTING false [] None Pending))
    by (rewrite Hsk1; apply lookup_snoc).
  destruct (step_open s1 n _ Hk1 eq_refl eq_refl Hso1 Hq1)
    as (Hsk2 & Hso2 & Hic2 & Hia2 & Hat2 & Htm2 & Hq2 & Hem2).
  destruct (step_open_rest s1 n _ Hk1 eq_refl eq_refl Hso1 Hq1)
    as (Hel2 & Hse2 & Hus2 & Hhb2 & Hiv2 & Hnh2).
  set (s2 := step s1 (SockOpen n)) in *.
  cbn [sk_session sk_token sk_origin sk_outbox sk_promise] in Hsk2.
  repeat split; try congruence.
  - rewrite Hsk2, Hsk1, Hse1. apply insert_snoc.
  - rewrite Hel2, Hel1. unfold add_listener. rewrite lookup_insert_eq.
    unfold listeners in Hl. rewrite Hl. done.
Qed.

(** The handshake succeeds: when the transport opens and the server
    answers [authenticated], the promise of [connect] is fulfilled, the
    client is authenticated under the user id of the reply, the heartbeat
    runs, and [connected] is emitted with the session and user ids. *)
Theorem connect_resolves_on_authenticated_reply s sid tok d :
  microtasks (env s) = [] -> listeners "message" s = [] ->
  in_type d = "authenticated" ->
  let n := length (sockets (env s)) in
  let s' := run [CallConnect sid tok; SockOpen n; SockMessage n (FJson d)] s in
  sockets (env s') !! n
  = Some (MkSock sid tok FromCaller OPEN false [OAuth tok sid] (Some Fulfilled) Fulfilled) /\
  status s' = Authenticated /\
  isConnected (ws s') = true /\
  sessionId (ws s') = sid /\
  userId (ws s') = Some (in_user_id d) /\
  attempts s' = 0%nat /\
  heartbeatInterval (ws s') = Some (nextHandle (env s)) /\
  intervals (env s') = intervals (env s) ++ [nextHandle (env s)] /\
  emitted (env s')
  = emitted (env s)
    ++ [("message", PData d); ("connected", PConnected sid (Some (in_user_id d)))].
Proof.
  intros Hq Hl Hd n s'. subst s'.
  change (run [CallConnect sid tok; SockOpen n; SockMessage n (FJson d)] s)
    with (step (run [CallConnect sid tok; SockOpen n] s) (SockMessage n (FJson d))).
  destruct (handshake_pending s sid tok Hq Hl)
    as (Hsk & Hel & Hso & Hse & Hus & Hic & Hia & Hat & Hhb & Hiv & Hnh & Htm & Hq2 & Hem).
  fold n in Hsk, Hel, Hso, Hse, Hus, Hic, Hia, Hat, Hhb, Hiv, Hnh, Htm, Hq2, Hem.
  set (s2 := run [CallConnect sid tok; SockOpen n] s) in *.
  assert (Hk : sockets (env s2) !! n
               = Some (MkSock sid tok FromCaller OPEN false [OAuth tok sid] (Some Pending) Pending))
    by (rewrite Hsk; apply lookup_snoc).
  destruct (step_authenticated s2 n _ d Hk eq_refl eq_refl eq_refl eq_refl Hel Hq2 Hd)
    as (Hsk3 & Hso3 & Hse3 & Hic3 & Hia3 & Hus3 & Hat3 & Hhb3 & Hiv3 & Htm3 & Hq3 & Hem3).
  set (s3 := step s2 _) in *.
  cbn [sk_session sk_token sk_origin sk_outbox] in Hsk3, Hem3.
  split. { rewrite Hsk3. eapply lookup_insert_known, Hk. }
  split. { unfold status. by rewrite Hia3. }
  do 6 (split; [congruence|]).
  rewrite Hem3, Hem, app_nil_r. done.
Qed.

(** The handshake is refused: when the server answers [auth_error], the
    promise of [connect] is rejected with the server's message and the
    handshake listener is removed; the transport is left open, so the
    client stays connected and unauthenticated, with no heartbeat and no
    reconnection. *)
Theorem connect_rejects_on_auth_error s sid tok d :
  microtasks (env s) = [] -> listeners "message" s = [] ->
  isAuthenticated (ws s) = false ->
  in_type d = "auth_error" ->
  let n := length (sockets (env s)) in
  let s' := run [CallConnect sid tok; SockOpen n; SockMessage n (FJson d)] s in
  sockets (env s') !! n
  = Some (MkSock sid tok FromCaller OPEN false [OAuth tok sid]
                 (Some (Rejected (in_message d))) (Rejected (in_message d))) /\
  status s' = Connected /\
  listeners "message" s' = [] /\
  heartbeatInterval (ws s') = heartbeatInterval (ws s) /\
  intervals (env s') = intervals (env s) /\
  reconnect_pending s' = reconnect_pending s /\
  emitted (env s') = emitted (env s) ++ [("message", PData d)].
Proof.
  intros Hq Hl Hna Hd n s'. subst s'.
  change (run [CallConnect sid tok; SockOpen n; SockMessage n (FJson d)] s)
    with (step (run [CallConnect sid tok; SockOpen n] s) (SockMessage n (FJson d))).
  destruct (handshake_pending s sid tok Hq Hl)
    as (Hsk & Hel & Hso & Hse & Hus & Hic & Hia & Hat & Hhb & Hiv & Hnh & Htm & Hq2 & Hem).
  fold n in Hsk, Hel, Hso, Hse, Hus, Hic, Hia, Hat, Hhb, Hiv, Hnh, Htm, Hq2, Hem.
  set (s2 := run [CallConnect sid tok; SockOpen n] s) in *.
  assert (Hk : sockets (env s2) !! n
               = Some (MkSock sid tok FromCaller OPEN false [OAuth tok sid] (Some Pending) Pending))
    by (rewrite Hsk; apply lookup_snoc).
  destruct (step_auth_error s2 n _ d Hk eq_refl eq_refl eq_refl eq_refl eq_refl Hel Hq2 Hd)
    as (Hsk3 & Hws3 & Hiv3 & Htm3 & Hq3 & Hem3).
  set (s3 := step s2 _) in *.
  cbn [sk_session sk_token sk_origin sk_outbox] in Hsk3.
  split. { rewrite Hsk3. eapply lookup_insert_known, Hk. }
  split.
  { unfold status. rewrite Hws3.
    cbn [ws_set_eventListeners isAuthenticated isConnected]. by rewrite Hia, Hna, Hic. }
  split.
  { unfold listeners, listeners_in. rewrite Hws3.
    cbn [ws_set_eventListeners eventListeners]. by rewrite lookup_insert_eq. }
  split. { rewrite Hws3. cbn [ws_set_eventListeners heartbeatInterval]. done. }
  split; [congruence|]. split; [|congruence].
  unfold reconnect_pending. rewrite Htm3, Htm, existsb_app. cbn. by rewrite !orb_false_r.
Qed.

(** *** Inbound frames *)

(** A frame that is not a reply to the handshake only reaches listeners:
    whether it parses or not, and whatever its type, it is emitted once and
    nothing of the connection changes (flags, ids, counter, sockets, timers,
    heartbeat).  Text that does not parse is emitted as [parseError], with
    the raw text; a parsed message is emitted with itself as data. *)
Theorem frame_other_than_handshake_reply_only_notifies f s :
  (forall d, f = FJson d -> in_type d <> "authenticated" /\ in_type d <> "auth_error") ->
  exists event data,
    core (handleMessage f s) = core (set_emitted (emitted (env s) ++ [(event, data)]) s) /\
    (forall raw, f = FGarbage raw -> event = "parseError" /\ data = PParseError raw) /\
    (forall d, f = FJson d -> data = PData d).
Proof.
  intros Hf. destruct f as [d|raw].
  - destruct (Hf d eq_refl) as [H1 H2].
    assert (is_auth_reply (PData d) = false) as Hd.
    { cbn. by rewrite !bool_decide_eq_false_2. }
    unfold handleMessage. cbv zeta.
    repeat (destruct (decide _) as [?|?];
            [eexists _, (PData d); rewrite emit_core by exact Hd;
             split; [reflexivity|]; split; [intros; discriminate|by intros ? [= <-]]|]).
    eexists _, (PData d). rewrite emit_core by exact Hd.
    split; [reflexivity|]. split; [intros; discriminate|by intros ? [= <-]].
  - exists "parseError", (PParseError raw). unfold handleMessage.
    rewrite emit_core by done. split; [reflexivity|].
    split; [intros ? [= <-]; done|intros; discriminate].
Qed.

(** *** Leaving *)

Lemma step_disconnect s :
  microtasks (env s) = [] ->
  let s' := step s CallDisconnect in
  socket (ws s') = None /\
  sessionId (ws s') = None /\
  userId (ws s') = None /\
  isConnected (ws s') = false /\
  isAuthenticated (ws s') = false /\
  heartbeatInterval (ws s') = None /\
  attempts s' = attempts s /\
  eventListeners (ws s') = eventListeners (ws s) /\
  length (sockets (env s')) = length (sockets (env s)) /\
  timers (env s') = timers (env s) /\
  microtasks (env s') = [] /\
  emitted (env s') = emitted (env s).
Proof.
  destruct s as [[so se us ic ia ra el hb] [sk tm iv nh mq co em inv wd]].
  cbn. intros ->. unfold step, task, disconnect, stopHeartbeat. norm.
  destruct hb as [h|], so as [k|]; norm;
    try (destruct (sk !! k) as [x|]; norm; [destruct (decide _); norm|]);
    unfold drain, drain_pass; norm; queue; norm; queue;
    rewrite ?length_insert; done.
Qed.

Lemma step_reconnect_timer_socket s i tok d :
  timers (env s) !! i = Some (MkTimer (TReconnect tok) d) ->
  microtasks (env s) = [] ->
  socket (ws (step s (TimerFire i))) = Some (length (sockets (env s))).
Proof.
  destruct s as [[so se us ic ia ra el hb] [sk tm iv nh mq co em inv wd]].
  cbn. intros Ht ->. unfold step, task. norm. rewrite Ht. norm.
  unfold connect, drain, drain_pass. norm. queue. norm. queue. done.
Qed.

(** [disconnect()] clears the client's flags, ids, socket and heartbeat,
    but emits nothing, keeps the reconnection counter and cancels no
    timer: with a reconnection pending the client still reads as
    reconnecting, and when that timer expires it connects again, with no
    session id. *)
Theorem disconnect_keeps_pending_reconnection s i tok d :
  timers (env s) !! i = Some (MkTimer (TReconnect tok) d) ->
  microtasks (env s) = [] ->
  let s1 := step s CallDisconnect in
  let s2 := step s1 (TimerFire i) in
  getConnectionStatus s1 = (false, false, None, None, attempts s) /\
  socket (ws s1) = None /\
  timers (env s1) = timers (env s) /\
  emitted (env s1) = emitted (env s) /\
  status s1 = Reconnecting /\
  socket (ws s2) = Some (length (sockets (env s))) /\
  sockets (env s2) !! length (sockets (env s))
  = Some (MkSock None tok FromReconnect CONNECTING false [] None Pending).
Proof.
  intros Ht Hq s1 s2.
  destruct (step_disconnect s Hq)
    as (Hso1 & Hse1 & Hus1 & Hic1 & Hia1 & Hhb1 & Hat1 & Hel1 & Hlen1 & Htm1 & Hq1 & Hem1).
  fold s1 in Hso1, Hse1, Hus1, Hic1, Hia1, Hhb1, Hat1, Hel1, Hlen1, Htm1, Hq1, Hem1.
  assert (Ht1 : timers (env s1) !! i = Some (MkTimer (TReconnect tok) d)) by by rewrite Htm1.
  destruct (step_reconnect_timer s1 i tok d Ht1 Hq1) as (Hsk2 & Hat2 & Htm2 & Hq2 & Hem2).
  pose proof (step_reconnect_timer_socket s1 i tok d Ht1 Hq1) as Hso2.
  fold s2 in Hsk2, Hat2, Htm2, Hq2, Hem2, Hso2.
  assert (Hk2 : sockets (env s2) !! length (sockets (env s))
                = Some (MkSock None tok FromReconnect CONNECTING false [] None Pending)).
  { rewrite Hsk2, Hse1, <-Hlen1. apply lookup_snoc. }
  assert (Hpending : reconnect_pending s1 = true).
  { unfold reconnect_pending. rewrite Htm1. apply existsb_exists.
    exists (MkTimer (TReconnect tok) d). split; [|done].
    apply list_elem_of_In. by eapply list_elem_of_lookup_2. }
  split. { unfold getConnectionStatus. by rewrite Hic1, Hia1, Hse1, Hus1, Hat1. }
  do 3 (split; [done|]).
  split. { unfold status. by rewrite Hia1, Hic1, Hpending. }
  split. { by rewrite Hso2, Hlen1. }
  done.
Qed.

(** A socket that closes cleanly is never reconnected, whatever the
    counter: the client is marked disconnected, the heartbeat it holds is
    stopped, [disconnected] is emitted with the code and reason, and the
    counter and the pending timers are left as they were. *)
Theorem clean_close_schedules_no_reconnection s n k code reason :
  sockets (env s) !! n = Some k -> sk_closed k = false ->
  microtasks (env s) = [] ->
  let s' := step s (SockClose n true code reason) in
  isConnected (ws s') = false /\
  isAuthenticated (ws s') = false /\
  heartbeatInterval (ws s') = None /\
  (forall h, heartbeatInterval (ws s) = Some h -> h ∉ intervals (env s')) /\
  attempts s' = attempts s /\
  timers (env s') = timers (env s) /\
  emitted (env s') = emitted (env s) ++ [("disconnected", PDisconnected code reason)].
Proof.
  destruct s as [[so se us ic ia ra el hb] [sk tm iv nh mq co em inv wd]].
  destruct k as [ks kt ko kr kc kb ka kp].
  cbn. intros Hk -> ->. unfold step, task. norm. rewrite Hk. norm.
  rewrite (alter_known _ _ _ _ Hk). norm.
  unfold onclose. norm. rewrite !(lookup_insert_known _ _ _ _ Hk). norm.
  unfold stopHeartbeat. norm.
  destruct hb as [h|]; norm; havoc; norm;
    unfold drain, drain_pass; norm; queue; norm; queue.
  - repeat split; try done. intros h' [= <-].
    intros [Hne _]%list_elem_of_filter. done.
  - repeat split; done.
Qed.

(** *** The heartbeat *)

(** When a socket closes, cleanly or not, the heartbeat the client holds
    is stopped. *)
Lemma step_close_heartbeat s n k wasClean code reason h :
  sockets (env s) !! n = Some k -> sk_closed k = false ->
  microtasks (env s) = [] ->
  heartbeatInterval (ws s) = Some h ->
  h ∉ intervals (env (step s (SockClose n wasClean code reason))).
Proof.
  destruct s as [[so se us ic ia ra el hb] [sk tm iv nh mq co em inv wd]].
  destruct k as [ks kt ko kr kc kb ka kp].
  cbn. intros Hk -> -> ->. unfold step, task. norm. rewrite Hk. norm.
  rewrite (alter_known _ _ _ _ Hk). norm.
  unfold onclose. norm. rewrite !(lookup_insert_known _ _ _ _ Hk). norm.
  unfold stopHeartbeat. norm. havoc. norm.
  destruct wasClean; norm;
    [|destruct (bool_decide _); [unfold attemptReconnect; norm|]];
    unfold drain, drain_pass; norm; queue; norm; queue;
    intros [Hne _]%list_elem_of_filter; done.
Qed.

(** While the client is connected, each tick of the heartbeat it holds
    sends one [ping] on the current socket; once that socket has closed,
    cleanly or not, the tick sends nothing any more. *)
Theorem heartbeat_pings_until_the_socket_closes s h k sk wasClean code reason :
  heartbeatInterval (ws s) = Some h -> h ∈ intervals (env s) ->
  isConnected (ws s) = true -> socket (ws s) = Some k ->
  sockets (env s) !! k = Some sk -> sk_ready sk = OPEN -> sk_closed sk = false ->
  microtasks (env s) = [] ->
  sockets (env (step s (IntervalTick h)))
  = <[k := sk_set_outbox (sk_outbox sk ++ [OPing]) sk]> (sockets (env s)) /\
  let s' := step s (SockClose k wasClean code reason) in
  step s' (IntervalTick h) = s'.
Proof.
  intros Hhb Hin Hc Hso Hk Hr Hcl Hq. split.
  - unfold step, task. rewrite decide_True by done. unfold heartbeatTick. rewrite Hc.
    unfold send. rewrite (send_open OPing s k sk Hc Hso Hk Hr). cbn [fst].
    rewrite drain_idle by exact Hq. done.
  - intros s'.
    pose proof (step_close_heartbeat s k sk wasClean code reason h Hk Hcl Hq Hhb) as Hout.
    fold s' in Hout.
    unfold step at 1. unfold task. rewrite decide_False by done.
    apply drain_idle. apply drain_quiescent.
Qed.

End Facts.

Import ConnectionScenarios.





Lemma reconnection_backoff_until_cap_witness :
  sockets (env authenticated) !! 0%nat = Some authenticated_socket /\
  reconnectAttempts (ws authenticated) = 0%nat /\
  let s' := run (SockClose 0 false 1006 "" :: failed_reconnects 1 1 five_failures)
                authenticated in
  reconnectAttempts (ws s') = 5%nat /\
  timers (env s') = timers (env authenticated) /\
  times_emitted "reconnectionFailed" s' = 1%nat.
Proof.
  assert (Hk : sockets (env authenticated) !! 0%nat = Some authenticated_socket)
    by (vm_compute; reflexivity).
  split; [exact Hk|]. split; [reflexivity|].
  destruct (reconnection_backoff_until_cap authenticated 0 authenticated_socket 1006 ""
              five_failures Hk eq_refl eq_refl eq_refl ltac:(vm_compute; lia))
    as (H1 & H2 & H3 & _).
  split; [exact H1|]. split; [|exact H3].
  etrans; [exact H2|]. apply app_nil_r.
Defined.

Lemma reconnection_unbounded_when_transport_opens :
  let s := run (flapping ++ [unclean 6]) connected in
  length (List.filter from_reconnect (sockets (env s))) = 6%nat /\
  t_delay <$> List.filter (fun t => match t_kind t with TReconnect _ => true | _ => false end)
                (timers (env s))
  = [1000] /\
  times_emitted "reconnectionFailed" s = 0%nat /\
  reconnectAttempts (ws s) = 1%nat.
Proof. vm_compute. done. Qed.

Lemma send_gate_is_connected_witness :
  isConnected (ws (initial 0%nat)) = false /\
  (send_c OPing (initial 0%nat)).2 = Return false.
Proof.
  split; [reflexivity|].
  exact (proj1 (proj1 (proj2 (proj2 (send_gate_is_connected OPing (initial 0%nat))))
                 (or_introl eq_refl))).
Defined.

Lemma send_transmits_before_authentication :
  status connected = Connected /\
  isAuthenticated (ws connected) = false /\
  (send_c OPing connected).2 = Return true /\
  sk_outbox <$> sockets (env (send OPing connected)) !! 0%nat
  = Some [OAuth "token-1" (Some "session-1"); OPing].
Proof. vm_compute. done. Qed.

Lemma reconnectAttempts_reset_on_open_witness :
  sockets (env reconnecting) !! 1%nat
  = Some (MkSock (Some "session-1") "token-1" FromReconnect CONNECTING false [] None Pending) /\
  reconnectAttempts (ws reconnecting) = 1%nat /\
  reconnectAttempts (ws (step reconnecting (SockOpen 1))) = 0%nat.
Proof.
  assert (Hk : sockets (env reconnecting) !! 1%nat
               = Some (MkSock (Some "session-1") "token-1" FromReconnect CONNECTING false
                              [] None Pending)) by (vm_compute; reflexivity).
  split; [exact Hk|]. split; [reflexivity|].
  exact (proj1 (reconnectAttempts_reset_on_open reconnecting (SockOpen 1)) 1%nat _
           eq_refl Hk eq_refl eq_refl).
Defined.

Lemma counter_reset_before_handshake :
  let s' := step reconnecting (SockOpen 1) in
  reconnectAttempts (ws reconnecting) = 1%nat /\
  reconnectAttempts (ws s') = 0%nat /\
  isAuthenticated (ws s') = false /\
  status s' = Connected.
Proof. vm_compute. done. Qed.

Lemma off_removes_first_registration_witness :
  listeners "message" handshaking = [AuthListener 0] ++ UserCb 1 :: [] /\
  listeners "message" (off "message" (UserCb 1) handshaking) = [AuthListener 0] ++ [].
Proof.
  assert (Hl : listeners "message" handshaking = [AuthListener 0] ++ UserCb 1 :: [])
    by (vm_compute; reflexivity).
  split; [exact Hl|].
  apply (off_removes_first_registration "message" (UserCb 1) handshaking _ _ Hl).
  intros Hin. apply list_elem_of_singleton in Hin. discriminate Hin.
Defined.

Lemma off_undoes_on_witness :
  listeners "message" connected = [AuthListener 0] /\
  listeners "message" (off "message" (UserCb 1) (on "message" (UserCb 1) connected))
  = listeners "message" connected.
Proof.
  assert (Hl : listeners "message" connected = [AuthListener 0]) by (vm_compute; reflexivity).
  split; [exact Hl|].
  apply (off_undoes_on "message" (UserCb 1) connected). rewrite Hl.
  intros Hin. apply list_elem_of_singleton in Hin. discriminate Hin.
Defined.

Lemma off_unregistered_is_noop_witness :
  listeners "transcription" connected = [] /\
  off "transcription" (UserCb 1) connected = connected.
Proof.
  assert (Hl : listeners "transcription" connected = []) by (vm_compute; reflexivity).
  split; [exact Hl|].
  apply (off_unregistered_is_noop "transcription" (UserCb 1) connected). rewrite Hl.
  apply not_elem_of_nil.
Defined.

Lemma connect_resolves_on_authenticated_reply_witness :
  listeners "message" (initial 0%nat) = [] /\
  status (run [CallConnect (Some "session-1") "token-1"; SockOpen 0;
               SockMessage 0 authenticated_reply] (initial 0%nat)) = Authenticated.
Proof.
  split; [reflexivity|].
  exact (proj1 (proj2
    (connect_resolves_on_authenticated_reply (initial 0%nat) (Some "session-1") "token-1"
       (MkInbound "authenticated" "user-1" "") eq_refl eq_refl eq_refl))).
Defined.

Lemma connect_rejects_on_auth_error_witness :
  listeners "message" (initial 0%nat) = [] /\
  status (run [CallConnect (Some "session-1") "token-1"; SockOpen 0;
               SockMessage 0 refused_reply] (initial 0%nat)) = Connected.
Proof.
  split; [reflexivity|].
  exact (proj1 (proj2
    (connect_rejects_on_auth_error (initial 0%nat) (Some "session-1") "token-1"
       (MkInbound "auth_error" "" "invalid token") eq_refl eq_refl eq_refl eq_refl))).
Defined.

Lemma frame_other_than_handshake_reply_only_notifies_witness :
  exists event data,
    core (handleMessage (FGarbage "{") connected)
    = core (set_emitted (emitted (env connected) ++ [(event, data)]) connected) /\
    (forall raw, FGarbage "{" = FGarbage raw -> event = "parseError" /\ data = PParseError raw) /\
    (forall d, FGarbage "{" = FJson d -> data = PData d).
Proof.
  apply (frame_other_than_handshake_reply_only_notifies (FGarbage "{") connected).
  intros d Hd. discriminate Hd.
Defined.

Lemma disconnect_keeps_pending_reconnection_witness :
  timers (env dropped) !! 1%nat = Some (MkTimer (TReconnect "token-1") 1000) /\
  status (step dropped CallDisconnect) = Reconnecting /\
  sockets (env (step (step dropped CallDisconnect) (TimerFire 1))) !! 1%nat
  = Some (MkSock None "token-1" FromReconnect CONNECTING false [] None Pending).
Proof.
  assert (Ht : timers (env dropped) !! 1%nat = Some (MkTimer (TReconnect "token-1") 1000))
    by (vm_compute; reflexivity).
  split; [exact Ht|].
  destruct (disconnect_keeps_pending_reconnection dropped 1 "token-1" 1000 Ht eq_refl)
    as (_ & _ & _ & _ & H5 & _ & H7).
  split; [exact H5|exact H7].
Defined.

Lemma clean_close_schedules_no_reconnection_witness :
  sockets (env authenticated) !! 0%nat = Some authenticated_socket /\
  timers (env (step authenticated (SockClose 0 true 1000 "Client disconnect")))
  = timers (env authenticated).
Proof.
  assert (Hk : sockets (env authenticated) !! 0%nat = Some authenticated_socket)
    by (vm_compute; reflexivity).
  split; [exact Hk|].
  destruct (clean_close_schedules_no_reconnection authenticated 0 authenticated_socket 1000
              "Client disconnect" Hk eq_refl eq_refl) as (_ & _ & _ & _ & _ & H6 & _).
  exact H6.
Defined.

Lemma heartbeat_pings_until_the_socket_closes_witness :
  heartbeatInterval (ws authenticated) = Some 1%nat /\
  sockets (env authenticated) !! 0%nat = Some authenticated_socket /\
  let s' := step authenticated (unclean 0) in
  step s' (IntervalTick 1) = s'.
Proof.
  assert (Hk : sockets (env authenticated) !! 0%nat = Some authenticated_socket)
    by (vm_compute; reflexivity).
  split; [reflexivity|]. split; [exact Hk|].
  refine (proj2 (heartbeat_pings_until_the_socket_closes authenticated 1 0 authenticated_socket
                   false 1006 "" eq_refl _ eq_refl eq_refl Hk eq_refl eq_refl eq_refl)).
  change (intervals (env authenticated)) with [1%nat]. apply list_elem_of_singleton. reflexivity.
Defined.

End ConnectionFacts.

(** ** The capture pipeline *)

Module CaptureFacts.
Import Connection Capture.

Section Facts.
Context {World : Type} `{!UserCallbacks World}.
Implicit Types (c : AudioCaptureService) (s : State World).

(** C6 (amended).  [handleAudioChunk] never throws, assigns nothing to
    the service and buffers nothing.  With no connection bound the chunk
    is dropped without a word.  Bound to the client, the chunk goes
    through [send], whose gate is the connection: while the client is not
    connected the chunk is not transmitted and [send] logs a warning.
    The gate on authentication is in [sendAudioChunk], which the
    pipeline does not call: unauthenticated, it transmits nothing, logs a
    warning and returns [false]. *)
Theorem dropped_chunks_are_not_fatal blob c s :
  let r := handleAudioChunk blob c s in
  r.2 = Return tt /\
  r.1.1 = c /\
  (websocket c = None -> r.1.2 = s) /\
  (websocket c = Some SinkClient ->
   isConnected (ws s) = false \/ socket (ws s) = None ->
   sockets (env r.1.2) = sockets (env s) /\
   console (env r.1.2)
   = console (env s)
     ++ [(LWarn, "Cannot send message - WebSocket not connected");
         (LLog, "Audio chunk sent via wrapper")]) /\
  (forall audioData chunkId now,
     isAuthenticated (ws s) = false ->
     sendAudioChunk audioData chunkId now s
     = (log LWarn "Cannot send audio chunk - not authenticated" s, false)).
Proof.
  intros r. subst r. unfold handleAudioChunk.
  split; [|split; [|split; [|split]]].
  - destruct (websocket c) as [[k| |]|]; [|done..].
    unfold try_catch, socket_send. repeat case_match; simplify_eq; done.
  - destruct (websocket c) as [sink|]; [|done]. by destruct (try_catch _ _ _).
  - by intros ->.
  - intros -> Hdown. unfold try_catch, send, send_c. cbn [fst snd].
    destruct Hdown as [Hc|Hs].
    + rewrite Hc. cbn. by rewrite <-app_assoc.
    + rewrite Hs. destruct (isConnected (ws s)); cbn; by rewrite <-app_assoc.
  - intros audioData chunkId now Ha. unfold sendAudioChunk. by rewrite Ha.
Qed.

(** *** The recorder's life cycle *)

(** A chunk never changes the service. *)
Lemma ondataavailable_service blob c s : (ondataavailable blob c s).1.1 = c.
Proof.
  unfold ondataavailable, handleAudioChunk. destruct (bool_decide _); [|done].
  destruct (websocket c); [|done]. by destruct (try_catch _ _ _).
Qed.

(** While the service records, it holds a recorder and a stream. *)
Lemma recording_holds_stream_step c s op :
  (isRecording c = true -> mediaRecorder c = true /\ audioStream c = true) ->
  let c' := (perform (c, s) op).1 in
  isRecording c' = true -> mediaRecorder c' = true /\ audioStream c' = true.
Proof.
  intros Hinv c'. subst c'. destruct c as [r m a ch w t]. cbn in Hinv.
  destruct op as [[e|]| sink | now | | blob |]; cbn [perform].
  6:{ destruct (mediaRecorder _) eqn:Hm; [cbn zeta; rewrite ondataavailable_service|];
      cbn in *; intros ->; by destruct Hinv. }
  all: unfold cleanup, startRecording, stopRecording; destruct r, m, a; cbn in *;
    try done; intros _; by destruct Hinv.
Qed.

Lemma recording_holds_stream ops : forall c s,
  (isRecording c = true -> mediaRecorder c = true /\ audioStream c = true) ->
  let c' := (perform_all ops (c, s)).1 in
  isRecording c' = true -> mediaRecorder c' = true /\ audioStream c' = true.
Proof.
  induction ops as [|op ops IH]; intros c s Hinv; [done|].
  unfold perform_all. cbn [foldl].
  pose proof (recording_holds_stream_step c s op Hinv) as Hstep.
  destruct (perform (c, s) op) as [c1 s1]. apply (IH c1 s1 Hstep).
Qed.

(** Whatever was done with the service before, [cleanup()] leaves it not
    recording and without a stream: until [initialize()] succeeds again,
    [startRecording()] throws and [stopRecording()] returns [false]. *)
Theorem cleanup_releases_the_microphone ops s0 now :
  let '(c, s) := perform_all (ops ++ [OpCleanup]) (constructed, s0) in
  isRecording c = false /\
  audioStream c = false /\
  (startRecording now c s).2 = Throw "Audio stream not initialized. Call initialize() first." /\
  (stopRecording c s).2 = false.
Proof.
  unfold perform_all. rewrite foldl_app. cbn [foldl].
  pose proof (recording_holds_stream ops constructed s0) as Hinv.
  unfold perform_all in Hinv.
  destruct (foldl perform (constructed, s0) ops) as [c1 s1]. cbn [fst] in Hinv.
  specialize (Hinv ltac:(discriminate)).
  assert (Hc : isRecording (cleanup c1 s1).1 = false /\ audioStream (cleanup c1 s1).1 = false).
  { unfold cleanup, stopRecording. destruct c1 as [r m a ch w t]. cbn in Hinv.
    destruct r, m, a; cbn in *; try done; by destruct Hinv. }
  cbn [perform]. destruct (cleanup c1 s1) as [c s]. cbn [fst] in Hc. destruct Hc as [Hr Ha].
  split; [done|]. split; [done|].
  unfold startRecording, stopRecording. rewrite Hr, Ha. done.
Qed.

(** In every state the service can reach, it records only while it holds
    a recorder and the microphone stream. *)
Theorem recording_service_holds_a_stream ops s0 :
  let c := (perform_all ops (constructed, s0)).1 in
  isRecording c = true -> mediaRecorder c = true /\ audioStream c = true.
Proof. apply recording_holds_stream. discriminate. Qed.


End Facts.

Import ConnectionScenarios.

Lemma dropped_chunks_are_not_fatal_witness :
  websocket bound = Some SinkClient /\
  isConnected (ws (initial 0%nat)) = false /\
  sockets (env (handleAudioChunk one_second bound (initial 0%nat)).1.2)
  = sockets (env (initial 0%nat)).
Proof.
  split; [reflexivity|]. split; [reflexivity|].
  exact (proj1 (proj1 (proj2 (proj2 (proj2
    (dropped_chunks_are_not_fatal one_second bound (initial 0%nat))))) eq_refl
    (or_introl eq_refl))).
Defined.

Lemma unbound_drop_is_silent_and_unauthenticated_chunk_is_sent :
  (* no connection bound: dropped, and nothing is logged *)
  console (env (handleAudioChunk one_second unbound connected).1.2) = console (env connected) /\
  (* bound, connected, not authenticated: transmitted *)
  isAuthenticated (ws connected) = false /\
  sk_outbox <$> sockets (env (handleAudioChunk one_second bound connected).1.2) !! 0%nat
  = Some [OAuth "token-1" (Some "session-1");
          OCaptureChunk "base64:26,69,223,163" "audio/webm;codecs=opus"].
Proof. vm_compute. done. Qed.

Lemma recording_service_holds_a_stream_witness :
  let c := (perform_all [OpInitialize None; OpStartRecording 0] (constructed, initial 0%nat)).1 in
  isRecording c = true /\ audioStream c = true.
Proof.
  split; [reflexivity|].
  exact (proj2 (recording_service_holds_a_stream
                  [OpInitialize None; OpStartRecording 0] (initial 0%nat) eq_refl)).
Defined.

End CaptureFacts.

(** ** The coordinator *)

Module StoreFacts.
Import Store JsFacts.

Section Facts.
Context {World : Type} `{!Backend} `{!Listeners World}.
Implicit Types (s : State World).

Lemma apply_sub_core s op : core (apply_sub s op) = core s.
Proof. by destruct op. Qed.

Lemma foldl_apply_sub_core ops s : core (foldl apply_sub s ops) = core s.
Proof.
  revert s. induction ops as [|op ops IH]; intros s; simpl; [done|].
  by rewrite IH, apply_sub_core.
Qed.

Lemma store_log_core lv msg s : core (log lv msg s) = core s.
Proof. done. Qed.

Lemma told_core n i s : core (fst (guarded n i s)) = core s.
Proof.
  unfold guarded, try_catch, run_listener.
  destruct (l_completion _) as [[]|e]; cbn [fst];
    rewrite ?store_log_core, foldl_apply_sub_core; done.
Qed.

Lemma told_returns n i s : snd (guarded n i s) = Return tt.
Proof.
  unfold guarded, try_catch, run_listener.
  by destruct (l_completion _) as [[]|e].
Qed.

Lemma notifyListeners_core event data s : core (notifyListeners event data s) = core s.
Proof. apply (forEach_from_preserves _ _ core), told_core. Qed.

Lemma notifyListeners_returns event data s :
  snd (notifyListeners_c event data s) = Return tt.
Proof. apply forEach_from_returns, told_returns. Qed.

Lemma notify_currentSession event data s :
  currentSession (store (notifyListeners event data s)) = currentSession (store s).
Proof. exact (f_equal (fun c => c.1.1.1) (notifyListeners_core event data s)). Qed.

Lemma notify_websocketConnected event data s :
  websocketConnected (store (notifyListeners event data s)) = websocketConnected (store s).
Proof. exact (f_equal (fun c => c.1.1.2) (notifyListeners_core event data s)). Qed.

Lemma notify_testState event data s :
  testState (store (notifyListeners event data s)) = testState (store s).
Proof. exact (f_equal (fun c => c.1.2) (notifyListeners_core event data s)). Qed.

Lemma notify_calls event data s :
  calls (rt (notifyListeners event data s)) = calls (rt s).
Proof. exact (f_equal (fun c => c.2) (notifyListeners_core event data s)). Qed.

#[local] Arguments notifyListeners : simpl never.

Ltac through_listeners :=
  repeat (rewrite ?notify_currentSession, ?notify_websocketConnected,
                  ?notify_testState, ?notify_calls; cbn).

Ltac run_body :=
  unfold attempt, bind, modify, get, ask, throw, ret, setLoading, setError, clearError;
  cbn; through_listeners.

(** [submitResponse], case by case. *)
Lemma submitResponse_cases audioFile rd now s :
  let r := submitResponse audioFile rd now s in
  let t := testState (store s) in
  let h := calls (rt s) in
  currentSession (store r.1) = currentSession (store s) /\
  ((currentSession (store s) = None /\
    r.2 = Failure "No active session" /\
    testState (store r.1) = t /\ calls (rt r.1) = h)
   \/
   (exists session file e,
      let up := upload_request file session rd (getUserId h) t in
      currentSession (store s) = Some session /\ audioFile = Some file /\
      answer_upload h up = Err e /\
      r.2 = Failure ("Audio upload failed: " +:+ e) /\
      testState (store r.1) = t /\ calls (rt r.1) = h ++ [up])
   \/
   (exists session audioResult uploads,
      currentSession (store s) = Some session /\
      ((audioFile = None /\ audioResult = None /\ uploads = []) \/
       (exists file audio,
          let up := upload_request file session rd (getUserId h) t in
          audioFile = Some file /\ audioResult = Some audio /\
          uploads = [up] /\ answer_upload h up = Ok audio)) /\
      let c := submit_request session audioResult rd now t in
      calls (rt r.1) = (h ++ uploads) ++ [c] /\
      match answer_submit (h ++ uploads) c with
      | Ok res =>
          r.2 = Success (DSubmitted audioResult res) /\
          testState (store r.1)
          = ts_set_recordings (recordings t ++ [recording_of audioResult rd now t]) t
      | Err e => r.2 = Failure e /\ testState (store r.1) = t
      end)).
Proof.
  intros r t h.
  destruct (currentSession (store s)) as [session|] eqn:Hs.
  2:{ subst r. unfold submitResponse. run_body. rewrite Hs. run_body.
      split; [done|]. by left. }
  destruct audioFile as [file|].
  - destruct (answer_upload h (upload_request file session rd (getUserId h) t))
      as [audio|e] eqn:Hup.
    + assert (Hr : currentSession (store r.1) = Some session /\
        calls (rt r.1) = (h ++ [upload_request file session rd (getUserId h) t])
                         ++ [submit_request session (Some audio) rd now t] /\
        match answer_submit (h ++ [upload_request file session rd (getUserId h) t])
                (submit_request session (Some audio) rd now t) with
        | Ok res =>
            r.2 = Success (DSubmitted (Some audio) res) /\
            testState (store r.1)
            = ts_set_recordings (recordings t ++ [recording_of (Some audio) rd now t]) t
        | Err e => r.2 = Failure e /\ testState (store r.1) = t
        end).
      { subst r. unfold submitResponse. run_body. rewrite Hs. run_body.
        fold t h. rewrite Hup. run_body. fold t h.
        destruct (answer_submit _ _) as [res|e]; run_body; done. }
      destruct Hr as (Hsess & Hcalls & Hres).
      split; [done|]. right. right.
      exists session, (Some audio), [upload_request file session rd (getUserId h) t].
      split; [done|]. split; [right; by exists file, audio|]. done.
    + subst r. unfold submitResponse. run_body. rewrite Hs. run_body.
      fold t h. rewrite Hup. run_body.
      split; [done|]. right. left. exists session, file, e. done.
  - assert (Hr : currentSession (store r.1) = Some session /\
        calls (rt r.1) = (h ++ []) ++ [submit_request session None rd now t] /\
        match answer_submit (h ++ []) (submit_request session None rd now t) with
        | Ok res =>
            r.2 = Success (DSubmitted None res) /\
            testState (store r.1)
            = ts_set_recordings (recordings t ++ [recording_of None rd now t]) t
        | Err e => r.2 = Failure e /\ testState (store r.1) = t
        end).
    { subst r. unfold submitResponse. run_body. rewrite Hs. run_body.
      fold t h. rewrite app_nil_r.
      destruct (answer_submit _ _) as [res|e]; run_body; done. }
    destruct Hr as (Hsess & Hcalls & Hres).
    split; [done|]. right. right. exists session, None, [].
    split; [done|]. split; [by left|]. done.
Qed.

(** [completeTest], case by case. *)
Lemma completeTest_cases now s :
  let r := completeTest now s in
  let t := testState (store s) in
  let h := calls (rt s) in
  currentSession (store r.1) = currentSession (store s) /\
  ((currentSession (store s) = None /\
    r.2 = Failure "No active session" /\
    testState (store r.1) = t /\ calls (rt r.1) = h)
   \/
   (exists session,
      let c := score_request session t in
      currentSession (store s) = Some session /\
      calls (rt r.1) = h ++ [c] /\
      match answer_score h c with
      | Ok score =>
          r.2 = Success (DText score) /\
          testState (store r.1)
          = ts_set_endTime (Some now) (ts_set_phase Completed (ts_set_scores (Some score) t))
      | Err e => r.2 = Failure e /\ testState (store r.1) = t
      end)).
Proof.
  intros r t h. subst r. unfold completeTest. run_body.
  destruct (currentSession (store s)) as [session|] eqn:Hs; run_body.
  2:{ split; [done|]. by left. }
  fold t h. destruct (answer_score _ _) as [score|e] eqn:Hsc; run_body.
  - split; [done|]. right. exists session. cbn. fold t h. rewrite Hsc. done.
  - split; [done|]. right. exists session. cbn. fold t h. rewrite Hsc. done.
Qed.

(** [startTest] during a test: it touches nothing of the test state but
    the phase, which it sets to [Preparation] or leaves. *)
Lemma startTest_in_test testType mode taskNumber now s session :
  currentSession (store s) = Some session ->
  let r := startTest testType mode taskNumber now s in
  let t := testState (store s) in
  currentSession (store r.1) = Some session /\
  (testState (store r.1) = t \/ testState (store r.1) = ts_set_phase Preparation t).
Proof.
  intros Hs r t. subst r. unfold startTest. run_body. rewrite Hs. run_body. rewrite Hs. run_body.
  destruct (answer_task _ _) as [content|e]; run_body.
  - destruct (websocketConnected (store s)); run_body; split; [done|by right| done|by right].
  - split; [done|by left].
Qed.

(** [nextTask] during a test. *)
Lemma nextTask_in_test now s session :
  currentSession (store s) = Some session ->
  let r := nextTask now s in
  let t := testState (store s) in
  (currentTask t < totalTasks t)%nat ->
  currentSession (store r.1) = Some session /\
  testState (store r.1) = ts_set_phase Preparation (ts_set_currentTask (S (currentTask t)) t).
Proof.
  intros Hs r t Hlt. subst r. unfold nextTask. fold t.
  rewrite bool_decide_eq_true_2 by done.
  match goal with |- context [startTest ?a ?b ?c ?d ?s'] =>
    destruct (startTest_in_test a b c d s' session) as [H1 H2] end.
  { through_listeners. done. }
  split; [done|].
  revert H2. through_listeners. fold t. intros [->| ->]; done.
Qed.

Lemma nextTask_at_end now s :
  let t := testState (store s) in
  ~ (currentTask t < totalTasks t)%nat -> nextTask now s = completeTest now s.
Proof. intros t Hge. unfold nextTask. fold t. by rewrite bool_decide_eq_false_2. Qed.

Lemma loadUserSessions_core s :
  currentSession (store (loadUserSessions s)) = currentSession (store s) /\
  testState (store (loadUserSessions s)) = testState (store s).
Proof.
  unfold loadUserSessions. destruct (isLoggedIn _); cbn; [|done].
  unfold ask. destruct (answer_sessions _ _); run_body; done.
Qed.

(** What a successful [createSession] leaves. *)
Lemma createSession_success testType mode now s s' d :
  createSession testType mode now s = (s', Success d) ->
  (exists session, currentSession (store s') = Some session) /\
  testState (store s')
  = MkTestState testType mode 1 (tasks_of testType) Preparation
      (isRecording (testState (store s))) [] None None (Some now)
      (endTime (testState (store s))).
Proof.
  unfold createSession. run_body.
  destruct (isLoggedIn _); run_body; [|by intros [= _ ?]].
  destruct testType as [ty|]; run_body; [|by intros [= _ ?]].
  destruct (answer_session _ _) as [[session url]|e]; run_body; [|by intros [= _ ?]].
  destruct url as [url|]; [destruct (getStoredToken _) as [token|]|]; run_body.
  - destruct (ws_connects _ _); run_body; intros [= <- _];
      through_listeners;
      match goal with |- context [loadUserSessions ?x] =>
        destruct (loadUserSessions_core x) as [-> ->] end;
      through_listeners; eauto.
  - intros [= <- _]; through_listeners;
      match goal with |- context [loadUserSessions ?x] =>
        destruct (loadUserSessions_core x) as [-> ->] end;
      through_listeners; eauto.
  - intros [= <- _]; through_listeners;
      match goal with |- context [loadUserSessions ?x] =>
        destruct (loadUserSessions_core x) as [-> ->] end;
      through_listeners; eauto.
Qed.

(** One request of a test in progress. *)
Lemma exec_in_test r now s session :
  currentSession (store s) = Some session -> in_test r = true ->
  let t := testState (store s) in
  let t' := testState (store (exec r now s).1) in
  currentSession (store (exec r now s).1) = Some session /\
  totalTasks t' = totalTasks t /\
  length (recordings t')
  = (length (recordings t) + (if is_successful_submit (r, (exec r now s).2) then 1 else 0))%nat /\
  currentTask t'
  = (currentTask t
     + (if is_nextTask r && bool_decide (currentTask t < totalTasks t)%nat then 1 else 0))%nat.
Proof.
  intros Hs Hin t t'. subst t'. destruct r as [| ty md tn | audioFile rd | |]; cbn [exec] in *;
    [done| | | |].
  - destruct (startTest_in_test ty md tn now s session Hs) as [H1 [-> | ->]];
      cbn; fold t; repeat split; try done; lia.
  - destruct (submitResponse_cases audioFile rd now s) as [H1 H2]. fold t in H2.
    rewrite H1, Hs. split; [done|].
    destruct H2 as [(Hn & _)|[(sess & file & e & _ & _ & _ & -> & -> & _)
                             |(sess & ar & ups & _ & _ & _ & Hres)]].
    + congruence.
    + cbn. repeat split; lia.
    + cbn zeta in Hres. destruct (answer_submit _ _) as [res|e]; destruct Hres as [-> ->]; cbn.
      * rewrite length_app. cbn. repeat split; lia.
      * repeat split; lia.
  - cbn [is_nextTask andb]. destruct (decide (currentTask t < totalTasks t)%nat) as [Hlt|Hge].
    + destruct (nextTask_in_test now s session Hs Hlt) as [H1 ->].
      rewrite bool_decide_eq_true_2 by done. cbn. fold t.
      destruct (nextTask now s).2; cbn; repeat split; try done; lia.
    + rewrite (nextTask_at_end now s Hge). rewrite bool_decide_eq_false_2 by done.
      destruct (completeTest_cases now s) as [H1 H2]. fold t in H2.
      rewrite H1, Hs. split; [done|].
      destruct H2 as [(Hn & _)|(sess & _ & _ & Hres)]; [congruence|].
      cbn zeta in Hres.
      destruct (answer_score _ _); destruct Hres as [-> ->]; cbn; repeat split; lia.
  - destruct (completeTest_cases now s) as [H1 H2]. fold t in H2.
    rewrite H1, Hs. split; [done|].
    destruct H2 as [(Hn & _)|(sess & _ & _ & Hres)]; [congruence|].
    cbn zeta in Hres.
    destruct (answer_score _ _); destruct Hres as [-> ->]; cbn; repeat split; lia.
Qed.

(** A run of a test in progress. *)
Lemma run_in_test rs : forall s session,
  currentSession (store s) = Some session ->
  forallb (fun r => in_test r.1) rs = true ->
  let t := testState (store s) in
  let t' := testState (store (run rs s).1) in
  currentSession (store (run rs s).1) = Some session /\
  totalTasks t' = totalTasks t /\
  length (recordings t') = (length (recordings t) + successful_submits (run rs s).2)%nat /\
  ((currentTask t + nextTask_calls rs <= totalTasks t)%nat ->
   currentTask t' = (currentTask t + nextTask_calls rs)%nat).
Proof.
  induction rs as [|[r now] rs IH]; intros s session Hs Hin; cbn [run].
  - cbn. repeat split; try done; lia.
  - cbn [forallb fst] in Hin. apply andb_true_iff in Hin as [Hr Hrs].
    destruct (exec_in_test r now s session Hs Hr) as (H1 & H2 & H3 & H4).
    destruct (exec r now s) as [s1 o] eqn:He. cbn [fst snd] in *.
    specialize (IH s1 session H1 Hrs). destruct IH as (I1 & I2 & I3 & I4).
    destruct (run rs s1) as [s2 os] eqn:Hrun. cbn [fst snd] in *.
    unfold successful_submits, nextTask_calls in *. cbn [List.filter fst].
    split; [done|]. split; [congruence|]. split.
    + rewrite I3, H3. destruct (is_successful_submit (r, o)); cbn [length]; lia.
    + intros Hle. rewrite H2, H4 in I4.
      destruct (is_nextTask r) eqn:Hn; cbn [andb length] in *.
      * case_bool_decide; [|lia]. rewrite I4; lia.
      * rewrite I4; lia.
Qed.

(** C1 (amended).  In a run that starts with a created session, the
    number of recordings equals the number of [submitResponse] calls that
    returned success, and after [k < totalTasks] calls of [nextTask] the
    current task is [1 + k].  A recording is appended only when the task
    submission succeeded and, if an audio file was given, its upload
    succeeded first; without a file there is no upload at all. *)
Theorem recordings_and_task_index testType mode now0 s0 s d rs :
  createSession testType mode now0 s0 = (s, Success d) ->
  forallb (fun r => in_test r.1) rs = true ->
  let r := run rs s in
  length (recordings (testState (store r.1))) = successful_submits r.2 /\
  ((nextTask_calls rs < totalTasks (testState (store s)))%nat ->
   currentTask (testState (store r.1)) = (1 + nextTask_calls rs)%nat) /\
  (forall audioFile rd now s1,
     let r1 := submitResponse audioFile rd now s1 in
     let t1 := testState (store s1) in
     let h1 := calls (rt s1) in
     recordings (testState (store r1.1)) <> recordings t1 ->
     exists session audioResult uploads res,
       currentSession (store s1) = Some session /\
       match audioFile with
       | Some file =>
           exists audio,
             audioResult = Some audio /\
             uploads = [upload_request file session rd (getUserId h1) t1] /\
             answer_upload h1 (upload_request file session rd (getUserId h1) t1) = Ok audio
       | None => audioResult = None /\ uploads = []
       end /\
       answer_submit (h1 ++ uploads) (submit_request session audioResult rd now t1) = Ok res /\
       r1.2 = Success (DSubmitted audioResult res) /\
       recordings (testState (store r1.1))
       = recordings t1 ++ [recording_of audioResult rd now t1]).
Proof.
  intros Hc Hin r.
  destruct (createSession_success _ _ _ _ _ _ Hc) as [[session Hs] Ht].
  destruct (run_in_test rs s session Hs Hin) as (_ & _ & Hrec & Htask).
  fold r in Hrec, Htask. rewrite Ht in Hrec, Htask. cbn in Hrec, Htask.
  split; [done|]. split.
  { rewrite Ht. cbn. intros Hk. apply Htask. lia. }
  intros audioFile rd now s1 r1 t1 h1 Hne.
  destruct (submitResponse_cases audioFile rd now s1) as [_ Hcases].
  fold r1 t1 h1 in Hcases.
  destruct Hcases as [(_ & _ & Hsame & _)
                     |[(sess & file & e & _ & _ & _ & _ & Hsame & _)
                      |(sess & ar & ups & Hsess & Hup & Hres)]].
  - by rewrite Hsame in Hne.
  - by rewrite Hsame in Hne.
  - cbn zeta in Hres. destruct Hres as [_ Hres].
    destruct (answer_submit _ _) as [res|e] eqn:Hsub; destruct Hres as [Ho Hts].
    + exists sess, ar, ups, res. split; [done|]. split.
      * destruct Hup as [(-> & -> & ->)|(file & audio & -> & -> & -> & Hok)]; [done|].
        by exists audio.
      * rewrite Hts. done.
    + by rewrite Hts in Hne.
Qed.




(** C8 (amended).  During a test, [nextTask] before the last task moves
    to the next task's preparation and does not complete the test, so
    through [nextTask] the phase becomes [Completed] only from the last
    task; [completeTest] itself does not look at the task index: it sets
    [Completed] exactly when the score is retrieved. *)
Theorem completion_guard_is_in_nextTask now s session :
  currentSession (store s) = Some session ->
  let t := testState (store s) in
  ((currentTask t < totalTasks t)%nat ->
   phase (testState (store (nextTask now s).1)) = Preparation) /\
  (phase (testState (store (nextTask now s).1)) = Completed ->
   phase t <> Completed -> (currentTask t <= totalTasks t)%nat ->
   currentTask t = totalTasks t) /\
  match answer_score (calls (rt s)) (score_request session t) with
  | Ok _ => phase (testState (store (completeTest now s).1)) = Completed
  | Err _ => phase (testState (store (completeTest now s).1)) = phase t
  end.
Proof.
  intros Hs t.
  assert (Hbefore : (currentTask t < totalTasks t)%nat ->
                    phase (testState (store (nextTask now s).1)) = Preparation).
  { intros Hlt. by destruct (nextTask_in_test now s session Hs Hlt) as [_ ->]. }
  split; [done|]. split.
  - intros Hdone _ Hle. destruct (decide (currentTask t < totalTasks t)%nat) as [Hlt|Hge];
      [|lia]. rewrite (Hbefore Hlt) in Hdone. discriminate.
  - destruct (completeTest_cases now s) as [_ [(Hn & _)|(sess & Hsess & _ & Hres)]];
      [congruence|].
    cbn zeta in Hres. rewrite Hs in Hsess. injection Hsess as <-. fold t in Hres.
    destruct (answer_score _ _); destruct Hres as [_ ->]; done.
Qed.

(** [notifyListeners] never throws; and when no listener changes the
    listener array while it runs, every listener in the array is told,
    in order, whether or not earlier ones threw. *)
Lemma set_invoked_listeners v s :
  sessionListeners (store (set_invoked v s)) = sessionListeners (store s).
Proof. done. Qed.

Lemma foldl_apply_sub_invoked ops s : invoked (rt (foldl apply_sub s ops)) = invoked (rt s).
Proof.
  revert s. induction ops as [|op ops IH]; intros s; simpl; [done|].
  rewrite IH. by destruct op.
Qed.

Lemma told_invoked n i s :
  invoked (rt (guarded n i s).1) = invoked (rt s) ++ [(i, n)].
Proof.
  unfold guarded, try_catch, run_listener.
  destruct (l_completion _) as [[]|e]; cbn [fst]; cbn; by rewrite foldl_apply_sub_invoked.
Qed.

Lemma told_listeners n i s :
  sessionListeners (store (guarded n i s).1)
  = sessionListeners (store (run_listener n i (set_invoked (invoked (rt s) ++ [(i, n)]) s)).1).
Proof. unfold guarded, try_catch. by destruct (run_listener _ _ _) as [s' [[]|e]]. Qed.

Lemma foldl_told_invoked n l : forall s,
  invoked (rt (foldl (fun s' i => (guarded n i s').1) s l))
  = invoked (rt s) ++ map (fun i => (i, n)) l.
Proof.
  induction l as [|i l IH]; intros s; cbn [foldl map]; [by rewrite app_nil_r|].
  rewrite IH, told_invoked, <-app_assoc. done.
Qed.

Lemma notify_invokes_stable_listeners event data s :
  (notifyListeners_c event data s).2 = Return tt /\
  ((forall i s', i ∈ sessionListeners (store s) ->
      sessionListeners (store s') = sessionListeners (store s) ->
      sessionListeners (store (run_listener (event, data) i s').1)
      = sessionListeners (store s)) ->
   invoked (rt (notifyListeners event data s))
   = invoked (rt s) ++ map (fun i => (i, (event, data))) (sessionListeners (store s))).
Proof.
  split; [apply notifyListeners_returns|]. intros Hst.
  unfold notifyListeners, notifyListeners_c. rewrite forEach_fold.
  - cbn [fst]. apply foldl_told_invoked.
  - intros i s' Hin Hs'. split; [|apply told_returns].
    rewrite told_listeners. apply Hst; done.
Qed.

(** *** The loading flag and the stored error *)

Lemma foldl_apply_sub_fields ops s : fields (foldl apply_sub s ops) = fields s.
Proof.
  revert s. induction ops as [|op ops IH]; intros s; simpl; [done|].
  rewrite IH. by destruct op.
Qed.

Lemma told_fields n i s : fields (fst (guarded n i s)) = fields s.
Proof.
  unfold guarded, try_catch, run_listener.
  destruct (l_completion _) as [[]|e]; cbn [fst]; unfold log;
    rewrite ?foldl_apply_sub_fields; try done.
  change (fields (set_console ?v ?x)) with (fields x). by rewrite foldl_apply_sub_fields.
Qed.

Lemma notifyListeners_fields event data s : fields (notifyListeners event data s) = fields s.
Proof. apply (forEach_from_preserves _ _ fields), told_fields. Qed.

Lemma notify_isLoading event data s :
  isLoading (store (notifyListeners event data s)) = isLoading (store s).
Proof. exact (f_equal isLoading (notifyListeners_fields event data s)). Qed.

Lemma notify_error event data s :
  error (store (notifyListeners event data s)) = error (store s).
Proof. exact (f_equal error (notifyListeners_fields event data s)). Qed.

Lemma notify_sessions event data s :
  sessions (store (notifyListeners event data s)) = sessions (store s).
Proof. exact (f_equal sessions (notifyListeners_fields event data s)). Qed.

Ltac through :=
  repeat (rewrite ?notify_currentSession, ?notify_websocketConnected,
                  ?notify_testState, ?notify_calls,
                  ?notify_isLoading, ?notify_error, ?notify_sessions; cbn).

Ltac body := 
  unfold attempt, bind, modify, get, ask, throw, ret, setLoading, setError, clearError;
  cbn; through.

Lemma loadUserSessions_flags s :
  isLoading (store (loadUserSessions s)) = isLoading (store s) /\
  error (store (loadUserSessions s)) = error (store s).
Proof.
  unfold loadUserSessions. destruct (isLoggedIn _); cbn; [|done].
  unfold ask. destruct (answer_sessions _ _); body; done.
Qed.

(** [createSession], case by case. *)
Lemma createSession_cases testType mode now s :
  let r := createSession testType mode now s in
  isLoading (store r.1) = false /\
  ((exists e,
      r.2 = Failure e /\ error (store r.1) = Some e /\
      currentSession (store r.1) = currentSession (store s) /\
      testState (store r.1) = testState (store s) /\
      (isLoggedIn (calls (rt s)) = false ->
       e = "Authentication required" /\ calls (rt r.1) = calls (rt s)))
   \/
   (exists session,
      r.2 = Success (DSession session) /\ error (store r.1) = None /\
      currentSession (store r.1) = Some session /\
      testState (store r.1)
      = MkTestState testType mode 1 (tasks_of testType) Preparation
          (isRecording (testState (store s))) [] None None (Some now)
          (endTime (testState (store s))))).
Proof.
  intros r. subst r. unfold createSession. body.
  destruct (isLoggedIn (calls (rt s))) eqn:Hin; body.
  2:{ split; [done|]. left. exists "Authentication required". done. }
  destruct testType as [ty|]; body.
  2:{ split; [done|]. left. eexists. done. }
  destruct (answer_session _ _) as [[session url]|e]; body.
  2:{ split; [done|]. left. eexists. done. }
  assert (forall x : State World,
    isLoading (store (loadUserSessions x)) = isLoading (store x) /\
    error (store (loadUserSessions x)) = error (store x) /\
    currentSession (store (loadUserSessions x)) = currentSession (store x) /\
    testState (store (loadUserSessions x)) = testState (store x)) as Hload.
  { intros x. destruct (loadUserSessions_flags x), (loadUserSessions_core x). done. }
  destruct url as [url|]; [destruct (getStoredToken _) as [token|]|]; body.
  - destruct (ws_connects _ _); body;
      (split; [done|]); right; exists session;
      match goal with |- context [loadUserSessions ?x] =>
        destruct (Hload x) as (H1 & H2 & H3 & H4); rewrite ?H1, ?H2, ?H3, ?H4 end; through; done.
  - split; [done|]. right. exists session.
    match goal with |- context [loadUserSessions ?x] =>
      destruct (Hload x) as (H1 & H2 & H3 & H4); rewrite ?H1, ?H2, ?H3, ?H4 end. through. done.
  - split; [done|]. right. exists session.
    match goal with |- context [loadUserSessions ?x] =>
      destruct (Hload x) as (H1 & H2 & H3 & H4); rewrite ?H1, ?H2, ?H3, ?H4 end. through. done.
Qed.

(** A failed [createSession] leaves the session there was, and the test
    state, as they were; its error is handed back, stored in [error], and
    the loading flag is cleared. *)
Theorem failed_createSession_keeps_the_session testType mode now s e :
  (createSession testType mode now s).2 = Failure e ->
  let s' := (createSession testType mode now s).1 in
  currentSession (store s') = currentSession (store s) /\
  testState (store s') = testState (store s) /\
  error (store s') = Some e /\
  isLoading (store s') = false.
Proof.
  intros Hfail s'. subst s'.
  destruct (createSession_cases testType mode now s) as [Hl [(e' & Ho & He & Hs & Ht & _)|(x & Ho & _)]].
  - rewrite Ho in Hfail. injection Hfail as ->. done.
  - rewrite Ho in Hfail. discriminate.
Qed.

(** Without a logged-in user [createSession] fails with "Authentication
    required" before it asks the backend anything. *)
Theorem createSession_requires_login testType mode now s :
  isLoggedIn (calls (rt s)) = false ->
  (createSession testType mode now s).2 = Failure "Authentication required" /\
  calls (rt (createSession testType mode now s).1) = calls (rt s).
Proof.
  intros Hin.
  destruct (createSession_cases testType mode now s) as [_ [(e & Ho & _ & _ & _ & Hg)|(x & Ho & _)]].
  - destruct (Hg Hin) as [-> Hc]. done.
  - exfalso. revert Ho. unfold createSession. body. rewrite Hin. body. done.
Qed.


Lemma completeTest_flags now s :
  let r := completeTest now s in
  isLoading (store r.1) = false /\
  forall e, r.2 = Failure e -> error (store r.1) = Some e.
Proof.
  intros r. subst r. unfold completeTest. body.
  destruct (currentSession (store s)) as [session|]; body.
  2:{ split; [done|]. by intros e [= <-]. }
  destruct (answer_score _ _) as [score|e']; body; (split; [done|]); by intros e [= <-].
Qed.

(** What [startTest] does to the test state, with or without a session:
    the task index and the number of tasks are kept, or they are those of
    a session it has just created. *)
Lemma startTest_cases testType mode taskNumber now s :
  let r := startTest testType mode taskNumber now s in
  let t := testState (store s) in
  let t' := testState (store r.1) in
  isLoading (store r.1) = false /\
  (forall e, r.2 = Failure e -> error (store r.1) = Some e) /\
  ((currentTask t' = currentTask t /\ totalTasks t' = totalTasks t) \/
   (currentTask t' = 1%nat /\ totalTasks t' = tasks_of testType)).
Proof.
  intros r t t'. subst r t t'. unfold startTest. body.
  destruct (currentSession (store s)) as [session|] eqn:Hs; body.
  - rewrite Hs. body.
    destruct (answer_task _ _) as [content|e']; body.
    + destruct (websocketConnected (store s)); body;
        (split; [done|]); (split; [by intros e [= <-]|]); by left.
    + split; [done|]. split; [by intros e [= <-]|]. by left.
  - match goal with |- context [createSession ?a ?b ?c ?x] =>
      pose proof (createSession_cases a b c x) as Hc;
      destruct (createSession a b c x) as [s1 o] end.
    cbn [fst snd] in Hc. revert Hc. through.
    intros [_ [(e' & -> & _ & Hs1 & Ht1 & _)|(session & -> & _ & Hs1 & Ht1)]]; body.
    + split; [done|]. split; [by intros e [= <-]|]. left. by rewrite Ht1.
    + rewrite Hs1. body.
      destruct (answer_task _ _) as [content|e']; body.
      * destruct (websocketConnected (store s1)); body;
          (split; [done|]); (split; [by intros e [= <-]|]); right; by rewrite Ht1.
      * split; [done|]. split; [by intros e [= <-]|]. right. by rewrite Ht1.
Qed.

Lemma nextTask_cases now s :
  let r := nextTask now s in
  let t := testState (store s) in
  let t' := testState (store r.1) in
  isLoading (store r.1) = false /\
  (forall e, r.2 = Failure e -> error (store r.1) = Some e) /\
  ((currentTask t' = currentTask t /\ totalTasks t' = totalTasks t) \/
   ((currentTask t < totalTasks t)%nat /\
    currentTask t' = S (currentTask t) /\ totalTasks t' = totalTasks t) \/
   (currentTask t' = 1%nat /\ totalTasks t' = tasks_of (type t))).
Proof.
  intros r t t'. subst r t'. unfold nextTask. fold t.
  destruct (decide (currentTask t < totalTasks t)%nat) as [Hlt|Hge].
  - rewrite bool_decide_eq_true_2 by done.
    match goal with |- context [startTest ?a ?b ?c ?d ?x] =>
      destruct (startTest_cases a b c d x) as (Hl & He & Hi) end.
    split; [done|]. split; [done|]. revert Hi. through. fold t.
    intros [[-> ->]|[-> ->]]; [right; left; done|right; right; done].
  - rewrite bool_decide_eq_false_2 by done.
    destruct (completeTest_flags now s) as [Hl He].
    split; [done|]. split; [done|]. left.
    destruct (completeTest_cases now s) as [_ [(_ & _ & -> & _)|(session & _ & _ & Hres)]];
      [done|].
    cbn zeta in Hres. destruct (answer_score _ _); destruct Hres as [_ ->]; done.
Qed.


(** *** The task index *)

Lemma exec_index r now s :
  let t := testState (store s) in
  let t' := testState (store (exec r now s).1) in
  (1 <= currentTask t <= totalTasks t)%nat ->
  totalTasks t = 3%nat \/ totalTasks t = 4%nat ->
  (1 <= currentTask t' <= totalTasks t')%nat /\
  (totalTasks t' = 3%nat \/ totalTasks t' = 4%nat).
Proof.
  intros t t' Hr Hn. subst t'.
  assert (forall ty, (1 <= tasks_of ty)%nat /\ (tasks_of ty = 3%nat \/ tasks_of ty = 4%nat)) as Htasks.
  { intros ty. unfold tasks_of. destruct (decide _); split; auto; lia. }
  destruct r as [ty md | ty md tn | audioFile rd | |]; cbn [exec].
  - destruct (createSession_cases ty md now s) as [_ [(e' & _ & _ & _ & -> & _)|(x & _ & _ & _ & ->)]];
      [done|]. cbn. destruct (Htasks ty). split; [lia|done].
  - destruct (startTest_cases ty md tn now s) as (_ & _ & [[-> ->]|[-> ->]]); [done|].
    destruct (Htasks ty). split; [lia|done].
  - destruct (submitResponse_cases audioFile rd now s) as [_ Hc]. fold t in Hc.
    destruct Hc as [(_ & _ & -> & _)|[(sess & file & e & _ & _ & _ & _ & -> & _)
                                      |(sess & ar & ups & _ & _ & _ & Hres)]]; [done|done|].
    cbn zeta in Hres. destruct (answer_submit _ _); destruct Hres as [_ ->]; done.
  - destruct (nextTask_cases now s) as (_ & _ & [[-> ->]|[(Hlt & -> & ->)|[-> ->]]]); fold t.
    + done.
    + fold t in Hlt. split; [lia|done].
    + destruct (Htasks (type t)). split; [lia|done].
  - destruct (completeTest_cases now s) as [_ [(_ & _ & -> & _)|(session & _ & _ & Hres)]];
      [done|].
    cbn zeta in Hres. fold t in Hres. destruct (answer_score _ _); destruct Hres as [_ ->]; done.
Qed.

(** Whatever is asked of the store, in whatever order and whatever the
    backend answers, the current task stays between 1 and the number of
    tasks, which is 3 or 4. *)
Theorem task_index_stays_in_range rs w :
  let t := testState (store (run rs (constructed w)).1) in
  (1 <= currentTask t <= totalTasks t)%nat /\
  (totalTasks t = 3%nat \/ totalTasks t = 4%nat).
Proof.
  assert (forall s,
    (1 <= currentTask (testState (store s)) <= totalTasks (testState (store s)))%nat ->
    totalTasks (testState (store s)) = 3%nat \/ totalTasks (testState (store s)) = 4%nat ->
    let t := testState (store (run rs s).1) in
    (1 <= currentTask t <= totalTasks t)%nat /\
    (totalTasks t = 3%nat \/ totalTasks t = 4%nat)) as Hrun.
  { induction rs as [|[r now] rs IH]; intros s Hr Hn; cbn [run]; [done|].
    destruct (exec_index r now s Hr Hn) as [Hr1 Hn1].
    destruct (exec r now s) as [s1 o]. cbn [fst] in Hr1, Hn1.
    specialize (IH s1 Hr1 Hn1). destruct (run rs s1) as [s2 os]. exact IH. }
  apply Hrun; cbn; [lia|by right].
Qed.

(** *** Logging out *)

(** [clearSessions()] forgets the session, the session list and the
    test, but neither the stored error nor the connection flag; after it,
    [submitResponse] and [completeTest] fail with "No active session"
    without asking the backend anything. *)
Theorem clearSessions_ends_the_test audioFile rd now s :
  let s' := clearSessions s in
  currentSession (store s') = None /\
  sessions (store s') = [] /\
  testState (store s') = fresh_testState /\
  error (store s') = error (store s) /\
  websocketConnected (store s') = websocketConnected (store s) /\
  (submitResponse audioFile rd now s').2 = Failure "No active session" /\
  calls (rt (submitResponse audioFile rd now s').1) = calls (rt s) /\
  (completeTest now s').2 = Failure "No active session" /\
  calls (rt (completeTest now s').1) = calls (rt s).
Proof.
  intros s'.
  assert (Hs : currentSession (store s') = None) by (subst s'; unfold clearSessions; by through).
  assert (Hc : calls (rt s') = calls (rt s)) by (subst s'; unfold clearSessions; by through).
  split; [done|]. split; [subst s'; unfold clearSessions; by through|].
  split; [subst s'; unfold clearSessions; by through|].
  split; [subst s'; unfold clearSessions; by through|].
  split; [subst s'; unfold clearSessions; by through|].
  destruct (submitResponse_cases audioFile rd now s') as [_ Hsub].
  destruct (completeTest_cases now s') as [_ Hcom].
  destruct Hsub as [(_ & -> & _ & ->)|[(x & ? & ? & Hx & _)|(x & ? & ? & Hx & _)]];
    [|congruence|congruence].
  destruct Hcom as [(_ & -> & _ & ->)|(x & Hx & _)]; [|congruence].
  done.
Qed.

(** *** Subscribing to the store *)

(** The function [onSessionChange] returns undoes the subscription: the
    store is as it was, provided the listener was not already subscribed. *)
Theorem unsubscribe_undoes_subscribe s i :
  i ∉ sessionListeners (store s) ->
  apply_sub (apply_sub s (Subscribe i)) (Unsubscribe i) = s.
Proof.
  intros Hi. destruct s as [[cs ss il er sl wc ts] r].
  unfold apply_sub, on_store, st_set_sessionListeners. cbn in *.
  by rewrite (remove_first_middle sl [] i Hi), app_nil_r.
Qed.

(** *** A whole test *)

Lemma run_cons r now rs s : (run ((r, now) :: rs) s).1 = (run rs (exec r now s).1).1.
Proof.
  cbn [run]. destruct (exec r now s) as [s1 o]. cbn [fst].
  by destruct (run rs s1).
Qed.

Lemma answer_each_completes rounds : forall s session,
  (forall h c, exists r, answer_submit h c = Ok r) ->
  (forall h c, exists r, answer_score h c = Ok r) ->
  currentSession (store s) = Some session ->
  let t := testState (store s) in
  rounds <> [] ->
  (currentTask t + length rounds = S (totalTasks t))%nat ->
  let t' := testState (store (run (answer_each rounds) s).1) in
  phase t' = Completed /\
  currentTask t' = totalTasks t /\
  task <$> recordings t' = (task <$> recordings t) ++ seq (currentTask t) (length rounds) /\
  is_Some (scores t').
Proof.
  induction rounds as [|[[rd t1] t2] rest IH]; intros s session Hsub Hsc Hs t Hne Hlen t';
    [done|].
  subst t'. cbn [answer_each]. rewrite !run_cons. cbn [exec].
  destruct (submitResponse_cases None rd t1 s) as [Hs1 Hcases]. fold t in Hcases.
  destruct Hcases as [(Hn & _)|[(x & file & e & _ & Hf & _)|(x & ar & ups & _ & Hup & Hres)]];
    [congruence|discriminate|].
  destruct Hup as [(_ & -> & ->)|(file & audio & Hf & _)]; [|discriminate].
  cbn zeta in Hres. destruct Hres as [_ Hres].
  destruct (Hsub (calls (rt s) ++ []) (submit_request x None rd t1 t)) as [res Hok].
  rewrite Hok in Hres. destruct Hres as [_ Ht1].
  rewrite Hs in Hs1.
  set (s1 := (submitResponse None rd t1 s).1) in *.
  cbn [length] in Hlen.
  destruct rest as [|round rest]; cbn [length] in Hlen.
  - cbn [answer_each run fst length].
    assert (Hend : ~ (currentTask (testState (store s1)) < totalTasks (testState (store s1)))%nat).
    { rewrite Ht1. cbn. lia. }
    rewrite (nextTask_at_end t2 s1 Hend).
    destruct (completeTest_cases t2 s1) as [_ [(Hn & _)|(y & _ & _ & Hres)]]; [congruence|].
    cbn zeta in Hres.
    destruct (Hsc (calls (rt s1)) (score_request y (testState (store s1)))) as [score Hok2].
    rewrite Hok2 in Hres. destruct Hres as [_ ->]. rewrite Ht1. cbn.
    split; [done|]. split; [lia|]. split; [|by eexists].
    rewrite fmap_app. done.
  - assert (Hlt : (currentTask (testState (store s1)) < totalTasks (testState (store s1)))%nat).
    { rewrite Ht1. cbn. lia. }
    destruct (nextTask_in_test t2 s1 session Hs1 Hlt) as [Hs2 Ht2].
    set (s2 := (nextTask t2 s1).1) in *.
    destruct (IH s2 session Hsub Hsc Hs2 ltac:(done)) as (I1 & I2 & I3 & I4).
    { rewrite Ht2, Ht1. cbn. lia. }
    rewrite Ht2, Ht1 in I2, I3.
    cbn [currentTask totalTasks recordings ts_set_phase ts_set_currentTask ts_set_recordings]
      in I2, I3.
    split; [done|]. split; [done|]. split; [|done].
    rewrite I3, fmap_app, <-app_assoc. done.
Qed.

(** With a backend that accepts every submission and score request, a
    session that is created and then answered task by task (a response
    submitted, then [nextTask]) ends completed, with a score and one
    recording for each task, in the order of the tasks: the last
    [nextTask] completes the test. *)
Theorem answering_every_task_completes_the_test testType mode now0 s0 s d rounds :
  (forall h c, exists r, answer_submit h c = Ok r) ->
  (forall h c, exists r, answer_score h c = Ok r) ->
  createSession testType mode now0 s0 = (s, Success d) ->
  length rounds = tasks_of testType ->
  let t' := testState (store (run (answer_each rounds) s).1) in
  phase t' = Completed /\
  currentTask t' = tasks_of testType /\
  task <$> recordings t' = seq 1 (tasks_of testType) /\
  is_Some (scores t').
Proof.
  intros Hsub Hsc Hcreate Hlen t'. subst t'.
  destruct (createSession_success testType mode now0 s0 s d Hcreate) as [[session Hs] Ht].
  assert (Hne : rounds <> []).
  { intros ->. revert Hlen. unfold tasks_of. by destruct (decide _). }
  destruct (answer_each_completes rounds s session Hsub Hsc Hs Hne) as (I1 & I2 & I3 & I4).
  { rewrite Ht. cbn. lia. }
  rewrite Ht in I2, I3. cbn in I2, I3. rewrite Hlen in I3. done.
Qed.

(** *** The session list *)

(** [loadUserSessions()] surfaces nothing: it leaves the session, the
    test, the loading flag and the stored error alone.  With nobody logged
    in it does nothing at all; otherwise it asks the backend once, and
    replaces the session list only if the answer is a success. *)
Theorem loadUserSessions_is_silent s :
  let s' := loadUserSessions s in
  currentSession (store s') = currentSession (store s) /\
  testState (store s') = testState (store s) /\
  isLoading (store s') = isLoading (store s) /\
  error (store s') = error (store s) /\
  if isLoggedIn (calls (rt s))
  then calls (rt s') = calls (rt s) ++ [ApiGetSessions] /\
       sessions (store s')
       = match answer_sessions (calls (rt s)) ApiGetSessions with
         | Ok l => l
         | Err _ => sessions (store s)
         end
  else s' = s.
Proof.
  intros s'. subst s'.
  destruct (loadUserSessions_core s) as [H1 H2], (loadUserSessions_flags s) as [H3 H4].
  do 4 (split; [done|]).
  unfold loadUserSessions. destruct (isLoggedIn _); cbn; [|done].
  unfold ask. destruct (answer_sessions _ _); body; done.
Qed.

(** *** Starting a task *)

(** During a session, [startTest] asks the backend for the task once;
    when that succeeds and the store has seen the connection's
    [connected] event last, it also asks the connection to start the
    conversation for that task.  After the [disconnected] event it asks
    the backend only. *)
Theorem conversation_starts_only_while_connected testType mode taskNumber now s session data :
  currentSession (store s) = Some session ->
  let c := start_request testType session (task_or_current taskNumber s) in
  calls (rt (startTest testType mode taskNumber now s).1)
  = calls (rt s) ++ [c]
    ++ match answer_task (calls (rt s)) c with
       | Ok _ =>
           if websocketConnected (store s)
           then [WsStartConversation testType
                   ("task_" +:+ pretty (task_or_current taskNumber s))]
           else []
       | Err _ => []
       end /\
  websocketConnected (store (onWebsocketConnected data s)) = true /\
  websocketConnected (store (onWebsocketDisconnected data s)) = false /\
  calls (rt (startTest testType mode taskNumber now (onWebsocketDisconnected data s)).1)
  = calls (rt s) ++ [c].
Proof.
  intros Hs c.
  assert (forall x : State World,
    currentSession (store x) = Some session ->
    calls (rt (startTest testType mode taskNumber now x).1)
    = calls (rt x) ++ [start_request testType session (task_or_current taskNumber x)]
      ++ match answer_task (calls (rt x))
                 (start_request testType session (task_or_current taskNumber x)) with
         | Ok _ =>
             if websocketConnected (store x)
             then [WsStartConversation testType
                     ("task_" +:+ pretty (task_or_current taskNumber x))]
             else []
         | Err _ => []
         end) as Hstart.
  { intros x Hx. unfold startTest. body. rewrite Hx. body. rewrite Hx. body.
    unfold task_or_current. body.
    destruct (answer_task _ _) as [content|e]; body; [|done].
    destruct (websocketConnected (store x)); body; [|done].
    unfold task_or_current. body. by rewrite <-app_assoc. }
  split; [by apply Hstart|].
  unfold onWebsocketConnected, onWebsocketDisconnected.
  split; [by through|]. split; [by through|].
  rewrite Hstart by (by through). through.
  unfold task_or_current. through. fold (task_or_current taskNumber s). fold c.
  by destruct (answer_task _ _).
Qed.

End Facts.

Import StoreScenarios.

Lemma recordings_and_task_index_witness :
  createSession (Some "toefl") (Some "practice") 1000 (constructed 0%nat)
  = (created, Success (DSession (MkSession "session-1"))) /\
  forallb (fun r => in_test r.1) test_run = true /\
  let r := run test_run created in
  length (recordings (testState (store r.1))) = successful_submits r.2 /\
  ((nextTask_calls test_run < totalTasks (testState (store created)))%nat ->
   currentTask (testState (store r.1)) = (1 + nextTask_calls test_run)%nat).
Proof.
  assert (Hc : createSession (Some "toefl") (Some "practice") 1000 (constructed 0%nat)
               = (created, Success (DSession (MkSession "session-1"))))
    by (vm_compute; reflexivity).
  assert (Hin : forallb (fun r => in_test r.1) test_run = true) by reflexivity.
  split; [exact Hc|]. split; [exact Hin|].
  destruct (recordings_and_task_index _ _ _ _ _ _ test_run Hc Hin) as (H1 & H2 & _).
  exact (conj H1 H2).
Defined.

Lemma recording_appended_without_upload :
  let r := submitResponse None spoken 1200 created in
  r.2 = Success (DSubmitted None "accepted") /\
  length (recordings (testState (store r.1)))
  = S (length (recordings (testState (store created)))) /\
  List.filter is_upload (calls (rt r.1)) = [].
Proof. vm_compute. done. Qed.


Lemma completeTest_before_last_task :
  let s := (submitResponse None spoken 1200 created).1 in
  currentTask (testState (store s)) = 1%nat /\
  totalTasks (testState (store s)) = 4%nat /\
  phase (testState (store s)) = Preparation /\
  phase (testState (store (completeTest 1300 s).1)) = Completed.
Proof. vm_compute. done. Qed.

Lemma completion_guard_is_in_nextTask_witness :
  currentSession (store created) = Some (MkSession "session-1") /\
  ((currentTask (testState (store created)) < totalTasks (testState (store created)))%nat ->
   phase (testState (store (nextTask 1300 created).1)) = Preparation).
Proof.
  split; [reflexivity|].
  exact (proj1 (completion_guard_is_in_nextTask 1300 created _ eq_refl)).
Defined.

(** Emitting never throws: every call of a handler is inside its own
    [try]/[catch], for the connection's [emit] and for the store's
    [notifyListeners] alike, and a handler that throws does not stop the
    handlers after it: when no handler subscribes or unsubscribes while
    the emit runs, every registered handler is invoked, in registration
    order. *)
Theorem handlers_run_despite_exceptions
    {W1 : Type} `{!Connection.UserCallbacks W1}
    {W2 : Type} `{!Backend} `{!Listeners W2}
    (event : string) (data : Connection.Payload) (c : Connection.State W1)
    (notice : string) (detail : Detail) (s : State W2) :
  (Connection.emit_c event data c).2 = Return tt /\
  ((forall cb c', cb ∈ Connection.listeners event c ->
      Connection.listeners event c' = Connection.listeners event c ->
      Connection.listeners event (Connection.run_cb cb data c').1
      = Connection.listeners event c) ->
   Connection.invoked (Connection.env (Connection.emit event data c))
   = Connection.invoked (Connection.env c)
     ++ map (pair event) (Connection.listeners event c)) /\
  (notifyListeners_c notice detail s).2 = Return tt /\
  ((forall i s', i ∈ sessionListeners (store s) ->
      sessionListeners (store s') = sessionListeners (store s) ->
      sessionListeners (store (run_listener (notice, detail) i s').1)
      = sessionListeners (store s)) ->
   invoked (rt (notifyListeners notice detail s))
   = invoked (rt s) ++ map (fun i => (i, (notice, detail))) (sessionListeners (store s))).
Proof.
  destruct (ConnectionFacts.emit_invokes_stable_listeners event data c) as [H1 H2].
  destruct (notify_invokes_stable_listeners notice detail s) as [H3 H4].
  done.
Qed.

Import (hints) ConnectionScenarios.

Lemma handlers_run_despite_exceptions_witness :
  (* the first listener of "transcription" throws, the second still runs *)
  Connection.listeners "transcription" ConnectionScenarios.listening
  = [Connection.UserCb 0; Connection.UserCb 1] /\
  (Connection.user_cb 0 ConnectionScenarios.transcript 0%nat).(Connection.cb_completion)
  = Throw "listener failed" /\
  Connection.invoked
    (Connection.env
       (Connection.emit "transcription" ConnectionScenarios.transcript
          ConnectionScenarios.listening))
  = Connection.invoked (Connection.env ConnectionScenarios.listening)
    ++ [("transcription", Connection.UserCb 0); ("transcription", Connection.UserCb 1)] /\
  (* the same in the store: listener 1 throws, listener 2 is still told *)
  invoked (rt (notifyListeners "taskChanged" (DTask 2 4) observed))
  = [(1%nat, ("taskChanged", DTask 2 4)); (2%nat, ("taskChanged", DTask 2 4))].
Proof.
  assert (Hl : Connection.listeners "transcription" ConnectionScenarios.listening
               = [Connection.UserCb 0; Connection.UserCb 1]) by (vm_compute; reflexivity).
  split; [exact Hl|]. split; [reflexivity|].
  destruct (handlers_run_despite_exceptions (W1 := nat) (W2 := nat)
              "transcription" ConnectionScenarios.transcript ConnectionScenarios.listening
              "taskChanged" (DTask 2 4) observed) as (_ & H2 & _ & H4).
  split.
  - rewrite H2, Hl; [reflexivity|].
    intros cb c' Hin Hc'. rewrite Hl in Hin.
    apply elem_of_cons in Hin as [->|Hin]; [exact Hc'|].
    apply elem_of_cons in Hin as [->|Hin]; [exact Hc'|].
    exfalso. exact (not_elem_of_nil _ Hin).
  - rewrite H4; [reflexivity|].
    intros i s' Hin Hs'. change (sessionListeners (store observed)) with [1%nat; 2%nat] in *.
    apply elem_of_cons in Hin as [->|Hin]; [exact Hs'|].
    apply elem_of_cons in Hin as [->|Hin]; [exact Hs'|].
    exfalso. exact (not_elem_of_nil _ Hin).
Defined.

(** C10.  A registered handler that is not invoked, although no handler
    throws.  In the connection: a listener subscribed to "message" while
    the handshake is pending comes after [authListener], which removes
    itself from the array while "message" is emitted with the reply; the
    listener after it is passed over.  In the store: the first of two
    listeners calls its unsubscribe function when it is told, and the
    second is never told. *)
Lemma later_listener_is_skipped :
  (* the connection: [authListener] removes itself while "message" is emitted *)
  Connection.listeners "message" ConnectionScenarios.handshaking
  = [Connection.AuthListener 0; Connection.UserCb 1] /\
  Connection.invoked
    (Connection.env
       (Connection.emit "message"
          (Connection.PData (Connection.MkInbound "authenticated" "user-1" ""))
          ConnectionScenarios.handshaking))
  = [("message", Connection.AuthListener 0)] /\
  (* the store: listener 0 unsubscribes itself while the listeners are told *)
  sessionListeners (store one_shot) = [0%nat; 2%nat] /\
  invoked (rt (notifyListeners "taskChanged" (DTask 2 4) one_shot))
  = [(0%nat, ("taskChanged", DTask 2 4))].
Proof. vm_compute. done. Qed.

Lemma failed_createSession_keeps_the_session_witness :
  (createSession None None 0 (constructed 0%nat)).2
  = Failure "TypeError: testType.toUpperCase" /\
  currentSession (store (createSession None None 0 (constructed 0%nat)).1) = None.
Proof.
  assert (Hf : (createSession None None 0 (constructed 0%nat)).2
               = Failure "TypeError: testType.toUpperCase") by (vm_compute; reflexivity).
  split; [exact Hf|].
  exact (proj1 (failed_createSession_keeps_the_session None None 0 (constructed 0%nat) _ Hf)).
Defined.

Lemma createSession_requires_login_witness :
  (@createSession nat anonymous_backend demo_listeners (Some "toefl") None 0
     (constructed 0%nat)).2
  = Failure "Authentication required".
Proof.
  exact (proj1 (@createSession_requires_login nat anonymous_backend demo_listeners
                  (Some "toefl") None 0 (constructed 0%nat) eq_refl)).
Defined.

Lemma unsubscribe_undoes_subscribe_witness :
  sessionListeners (store (constructed 0%nat)) = [] /\
  apply_sub (apply_sub (constructed 0%nat) (Subscribe 1)) (Unsubscribe 1) = constructed 0%nat.
Proof.
  split; [reflexivity|].
  apply (unsubscribe_undoes_subscribe (constructed 0%nat) 1). apply not_elem_of_nil.
Defined.

Lemma answering_every_task_completes_the_test_witness :
  let s := (@createSession nat agreeable_backend demo_listeners (Some "toefl")
              (Some "practice") 0 (constructed 0%nat)).1 in
  let t' := testState (store (@run nat agreeable_backend demo_listeners
                                (answer_each four_rounds) s).1) in
  phase t' = Completed /\ task <$> recordings t' = [1; 2; 3; 4]%nat.
Proof.
  intros s t'.
  destruct (@answering_every_task_completes_the_test nat agreeable_backend demo_listeners
              (Some "toefl") (Some "practice") 0 (constructed 0%nat) s
              (DSession (MkSession "session-1")) four_rounds) as (H1 & _ & H3 & _).
  - intros h c. eexists. reflexivity.
  - intros h c. eexists. reflexivity.
  - vm_compute. reflexivity.
  - reflexivity.
  - split; [exact H1|exact H3].
Defined.

Lemma conversation_starts_only_while_connected_witness :
  currentSession (store created) = Some (MkSession "session-1") /\
  calls (rt (startTest (Some "toefl") (Some "practice") None 10
               (onWebsocketDisconnected Connection.PUndefined created)).1)
  = calls (rt created) ++ [ApiStartTOEFLTask "session-1" 1].
Proof.
  split; [reflexivity|].
  exact (proj2 (proj2 (proj2
    (conversation_starts_only_while_connected (Some "toefl") (Some "practice") None 10
       created (MkSession "session-1") Connection.PUndefined eq_refl)))).
Defined.

End StoreFacts.
